(** * GSCore: the protocol engine of the Gainspan Serial2WiFi driver

    A shallow embedding of [src/GSModule/GSCore.cpp].  Integers of the C++
    code are values of [Z] with the wrap-around of their type written out,
    byte buffers are [list Z], the object's fields form the record [GSCore]
    and every member function that reads the transport or re-enters the
    receive state machine is a computation of the monad [M].  Diagnostic
    printing to the [debug] stream is left out: it never changes a field. *)

From Stdlib Require Import ZArith List Bool Lia Ascii String.
From stdpp Require Import base list.
Import ListNotations.
Local Open Scope Z_scope.

(** ** Characters and fixed-width integers *)

Definition ch (a : ascii) : Z := Z.of_N (N_of_ascii a).

Definition bytes_of_string (s : string) : list Z :=
  map ch (list_ascii_of_string s).

Definition u8 (x : Z) : Z := x mod 256.
Definition u16 (x : Z) : Z := x mod 65536.
Definition u32 (x : Z) : Z := x mod 4294967296.

(** [p[i]] for a pointer [p] into a modelled buffer; a read beyond the
    modelled bytes yields 0. *)
Definition byte_at (buf : list Z) (i : Z) : Z :=
  if i <? 0 then 0 else default 0 (buf !! Z.to_nat i).

(** [buf + n] *)
Definition advance (buf : list Z) (n : Z) : list Z := drop (Z.to_nat n) buf.

(** ** Static helpers: [parseNumber] *)

Definition UINT16_MAX : Z := 65535.
Definition UINT8_MAX : Z := 255.

(** One turn of the [while (len--)] loop of the 16-bit [parseNumber]. *)
Definition parseNumber_digit (base result c : Z) : option Z :=
  if result >? UINT16_MAX / 10 then None
  else
    let result := u16 (result * base) in
    if (ch "0" <=? c) && (c <=? ch "9") then Some (u16 (result + (c - ch "0")))
    else if (ch "a" <=? c) && (c <=? ch "z") then Some (u16 (result + (10 + (c - ch "a"))))
    else if (ch "A" <=? c) && (c <=? ch "Z") then Some (u16 (result + (10 + (c - ch "A"))))
    else None.

Fixpoint parseNumber_loop (base : Z) (len : nat) (buf : list Z) (result : Z) : option Z :=
  match len with
  | O => Some result
  | S len' =>
      match parseNumber_digit base result (byte_at buf 0) with
      | None => None
      | Some result' => parseNumber_loop base len' (advance buf 1) result'
      end
  end.

(** [bool parseNumber(uint16_t *out, const uint8_t *buf, uint8_t len, uint8_t base)];
    [None] is [false], [Some v] is [true] with [*out = v]. *)
Definition parseNumber16 (buf : list Z) (len base : Z) : option Z :=
  if (base <? 2) || (base >? 36) then None
  else parseNumber_loop base (Z.to_nat len) buf 0.

(** [bool parseNumber(uint8_t *out, ...)] *)
Definition parseNumber8 (buf : list Z) (len base : Z) : option Z :=
  match parseNumber16 buf len base with
  | None => None
  | Some tmp => if tmp >? UINT8_MAX then None else Some tmp
  end.

(** ** [parseIpAddress] *)

(** An [IPAddress] is four octets, each a [uint8_t]. *)
Abbreviation IPAddress := (list Z).
Definition ip_zero : IPAddress := [0; 0; 0; 0].

(** The [for] loop over the characters [p]; [i] is the octet being filled.
    The result is the flag the function returns, [*ip], which is written
    even when the flag is [false], and [i] as the loop leaves it. *)
Fixpoint parseIpAddress_loop (p : list Z) (ip : IPAddress) (i : Z)
  : bool * IPAddress * Z :=
  match p with
  | [] => (true, ip, i)
  | c :: p' =>
      if c =? ch "." then
        let i := i + 1 in
        if i >=? 4 then (false, ip, i)
        else parseIpAddress_loop p' (<[Z.to_nat i := 0]> ip) i
      else if (c <? ch "0") || (c >? ch "9") then (false, ip, i)
      else if (byte_at ip i >=? 100) || ((byte_at ip i =? 25) && (c >? ch "5"))
      then (false, ip, i)
      else
        let ip := <[Z.to_nat i := u8 (byte_at ip i * 10)]> ip in
        let ip := <[Z.to_nat i := u8 (byte_at ip i + (c - ch "0"))]> ip in
        parseIpAddress_loop p' ip i
  end.

(** The characters the loop visits: those before the terminating NUL (the
    end of the modelled bytes counts as one) and, when [len] is not 0,
    before [str + len]. *)
Fixpoint c_string (str : list Z) : list Z :=
  match str with
  | [] => []
  | c :: str' => if c =? 0 then [] else c :: c_string str'
  end.

Definition ip_chars (str : list Z) (len : Z) : list Z :=
  if len =? 0 then c_string str else c_string (take (Z.to_nat len) str).

(** [bool parseIpAddress(IPAddress *ip, const char *str, uint16_t len)] *)
Definition parseIpAddress (str : list Z) (len : Z) : bool * IPAddress :=
  fst (parseIpAddress_loop (ip_chars str len) ip_zero 0).

(** ** Response codes *)

Inductive GSResponse : Type :=
  | GS_SUCCESS | GS_FAILURE | GS_EINVAL | GS_SOCK_FAIL | GS_ENOCID
  | GS_EBADCID | GS_ENOTSUP | GS_CON_SUCCESS | GS_ECIDCLOSE | GS_LINK_LOST
  | GS_DISASSO_EVT | GS_STBY_TMR_EVT | GS_STBY_ALM_EVT | GS_DPSLEEP_EVT
  | GS_BOOT_UNEXPEC | GS_ENOIP | GS_BOOT_INTERNAL | GS_BOOT_EXTERNAL
  | GS_NWCONN_SUCCESS
  | GS_UNKNOWN_RESPONSE | GS_UNRECOVERABLE_ERROR.

(** Modelled from the spec: the enumerator values of [GSResponse] are
    declared in GSCore.h, which is not part of the sources.  The replies are
    the numbers "0" to "18" ([GS_RESPONSE_MAX == 18] is asserted by
    [processResponseLine]) with 0 the success code; the numbering is the one
    of the module's non-verbose reply codes. *)
Definition response_code (r : GSResponse) : Z :=
  match r with
  | GS_SUCCESS => 0 | GS_FAILURE => 1 | GS_EINVAL => 2 | GS_SOCK_FAIL => 3
  | GS_ENOCID => 4 | GS_EBADCID => 5 | GS_ENOTSUP => 6 | GS_CON_SUCCESS => 7
  | GS_ECIDCLOSE => 8 | GS_LINK_LOST => 9 | GS_DISASSO_EVT => 10
  | GS_STBY_TMR_EVT => 11 | GS_STBY_ALM_EVT => 12 | GS_DPSLEEP_EVT => 13
  | GS_BOOT_UNEXPEC => 14 | GS_ENOIP => 15 | GS_BOOT_INTERNAL => 16
  | GS_BOOT_EXTERNAL => 17 | GS_NWCONN_SUCCESS => 18
  | GS_UNKNOWN_RESPONSE => 254 | GS_UNRECOVERABLE_ERROR => 255
  end.

Definition all_responses : list GSResponse :=
  [GS_SUCCESS; GS_FAILURE; GS_EINVAL; GS_SOCK_FAIL; GS_ENOCID; GS_EBADCID;
   GS_ENOTSUP; GS_CON_SUCCESS; GS_ECIDCLOSE; GS_LINK_LOST; GS_DISASSO_EVT;
   GS_STBY_TMR_EVT; GS_STBY_ALM_EVT; GS_DPSLEEP_EVT; GS_BOOT_UNEXPEC;
   GS_ENOIP; GS_BOOT_INTERNAL; GS_BOOT_EXTERNAL; GS_NWCONN_SUCCESS].

(** The cast [(GSResponse)n] of a number read from a reply. *)
Definition response_of_code (n : Z) : GSResponse :=
  match find (fun r => response_code r =? n) all_responses with
  | Some r => r
  | None => GS_UNKNOWN_RESPONSE
  end.

(** [GSResponse processResponseLine(const uint8_t *buf, uint8_t len, cid_t *connect_cid)].
    [connect_cid] is [None] for a null pointer and [Some v] for a pointer to
    a cell holding [v]; the cell after the call is returned with the code.
    The [case] labels of the asynchronous codes stand inside an [if] block
    of the [switch]; every path from them ends in [GS_UNKNOWN_RESPONSE],
    after a print on the error stream that is left out here. *)
Definition processResponseLine (buf : list Z) (len : Z) (connect_cid : option Z)
  : GSResponse * option Z :=
  let parsed :=
    if (len >=? 2) && (byte_at buf 0 =? ch "1") && (byte_at buf 1 >=? ch "0")
       && (byte_at buf 1 <=? ch "8")
    then Some (2, response_of_code (10 + byte_at buf 1 - ch "0"))
    else if (len >=? 1) && (byte_at buf 0 >=? ch "0") && (byte_at buf 0 <=? ch "9")
    then Some (1, response_of_code (byte_at buf 0 - ch "0"))
    else if (len =? 2) && (byte_at buf 0 =? ch "O") && (byte_at buf 1 =? ch "K")
    then Some (2, GS_SUCCESS)
    else None in
  match parsed with
  | None => (GS_UNKNOWN_RESPONSE, connect_cid)
  | Some (off, code) =>
      let args := advance buf off in
      let arg_len := u8 (len - off) in
      if negb (arg_len =? 0) && negb (byte_at args 0 =? ch " ")
      then (GS_UNKNOWN_RESPONSE, connect_cid)
      else
        match code with
        | GS_SUCCESS | GS_FAILURE | GS_EINVAL | GS_ENOCID | GS_EBADCID
        | GS_ENOTSUP | GS_LINK_LOST | GS_ENOIP =>
            if negb (arg_len =? 0) then (GS_UNKNOWN_RESPONSE, connect_cid)
            else (code, connect_cid)
        | GS_SOCK_FAIL =>
            if negb (arg_len =? 2) then (GS_UNKNOWN_RESPONSE, connect_cid)
            else (code, connect_cid)
        | GS_CON_SUCCESS =>
            if negb (arg_len =? 2) then (GS_UNKNOWN_RESPONSE, connect_cid)
            else
              match connect_cid with
              | None => (GS_UNKNOWN_RESPONSE, connect_cid)
              | Some _ =>
                  match parseNumber8 (advance args 1) 1 16 with
                  | None => (GS_UNKNOWN_RESPONSE, connect_cid)
                  | Some cid => (code, Some cid)
                  end
              end
        | _ => (GS_UNKNOWN_RESPONSE, connect_cid)
        end
  end.


(** ** The data model *)

Inductive RXState : Type :=
  | GS_RX_IDLE | GS_RX_ESC | GS_RX_ESC_Z | GS_RX_ESC_A
  | GS_RX_ESC_y_1 | GS_RX_ESC_y_2 | GS_RX_ESC_y_3
  | GS_RX_ASYNC | GS_RX_BULK.

(** [struct RXFrame]: [cid], [length], [udp_server], [ip], [port]. *)
Record RXFrame : Type := mkRXFrame {
  fr_cid : Z;
  fr_length : Z;
  fr_udp_server : bool;
  fr_ip : IPAddress;
  fr_port : Z
}.

Definition set_fr_cid (v : Z) (f : RXFrame) : RXFrame :=
  mkRXFrame v (fr_length f) (fr_udp_server f) (fr_ip f) (fr_port f).
Definition set_fr_length (v : Z) (f : RXFrame) : RXFrame :=
  mkRXFrame (fr_cid f) v (fr_udp_server f) (fr_ip f) (fr_port f).
Definition set_fr_udp_server (v : bool) (f : RXFrame) : RXFrame :=
  mkRXFrame (fr_cid f) (fr_length f) v (fr_ip f) (fr_port f).
Definition set_fr_ip (v : IPAddress) (f : RXFrame) : RXFrame :=
  mkRXFrame (fr_cid f) (fr_length f) (fr_udp_server f) v (fr_port f).
Definition set_fr_port (v : Z) (f : RXFrame) : RXFrame :=
  mkRXFrame (fr_cid f) (fr_length f) (fr_udp_server f) (fr_ip f) v.

(** One entry of [connections]. *)
Record Connection : Type := mkConnection {
  connected : bool;
  error : bool;
  ssl : bool;
  remote_ip : Z;
  remote_port : Z;
  local_port : Z
}.

Definition set_connected (v : bool) (c : Connection) : Connection :=
  mkConnection v (error c) (ssl c) (remote_ip c) (remote_port c) (local_port c).
Definition set_error (v : bool) (c : Connection) : Connection :=
  mkConnection (connected c) v (ssl c) (remote_ip c) (remote_port c) (local_port c).
Definition set_ssl (v : bool) (c : Connection) : Connection :=
  mkConnection (connected c) (error c) v (remote_ip c) (remote_port c) (local_port c).
Definition set_remote (ipv port lport : Z) (c : Connection) : Connection :=
  mkConnection (connected c) (error c) (ssl c) ipv port lport.

Definition connection_zero : Connection := mkConnection false false false 0 0 0.

(** Modelled from the spec: the CID constants of GSCore.h, which is not part
    of the sources.  A CID is one hexadecimal digit on the wire and
    [connections] has an entry for each of [0 .. MAX_CID]; [INVALID_CID] and
    [ANY_CID] are two further values of [cid_t] outside that range. *)
Definition MAX_CID : Z := 15.
Definition INVALID_CID : Z := 254.
Definition ANY_CID : Z := 255.

(** Modelled from the spec: the event masks of GSCore.h, four distinct bits
    of [events]. *)
Definition EVENT_ASSOCIATED : Z := 1.
Definition EVENT_DISASSOCIATED : Z := 2.
Definition EVENT_NCM_CONNECTED : Z := 4.
Definition EVENT_NCM_DISCONNECTED : Z := 8.

(** Modelled from the spec: the reserved SPI wire bytes of GSCore.h (idle,
    escape, flow control on and off, ack, all-ones, all-zeros) and the mask
    xored into an escaped byte. *)
Definition SPI_SPECIAL_ALL_ONE : Z := 255.
Definition SPI_SPECIAL_ALL_ZERO : Z := 0.
Definition SPI_SPECIAL_ACK : Z := 252.
Definition SPI_SPECIAL_IDLE : Z := 245.
Definition SPI_SPECIAL_XOFF : Z := 250.
Definition SPI_SPECIAL_XON : Z := 253.
Definition SPI_SPECIAL_ESC : Z := 251.
Definition SPI_ESC_XOR : Z := 32.

(** The fields of the object, grouped by the component that owns them. *)

(** The transport selection and the SPI link framer; [errorcount] is the
    function-local [static] counter of [processSpiSpecial]. *)
Record Link : Type := mkLink {
  serial : bool;
  ss_pin : Z;
  data_ready_pin : Z;
  spi_prev_was_esc : bool;
  spi_xoff : bool;
  spi_poll_time : Z;
  errorcount : Z
}.

Definition set_spi_prev_was_esc (v : bool) (l : Link) : Link :=
  mkLink (serial l) (ss_pin l) (data_ready_pin l) v (spi_xoff l) (spi_poll_time l) (errorcount l).
Definition set_spi_xoff (v : bool) (l : Link) : Link :=
  mkLink (serial l) (ss_pin l) (data_ready_pin l) (spi_prev_was_esc l) v (spi_poll_time l) (errorcount l).
Definition set_spi_poll_time (v : Z) (l : Link) : Link :=
  mkLink (serial l) (ss_pin l) (data_ready_pin l) (spi_prev_was_esc l) (spi_xoff l) v (errorcount l).
Definition set_errorcount (v : Z) (l : Link) : Link :=
  mkLink (serial l) (ss_pin l) (data_ready_pin l) (spi_prev_was_esc l) (spi_xoff l) (spi_poll_time l) v.

(** The ring buffer and the two live frame headers. *)
Record Ring : Type := mkRing {
  rx_data : list Z;
  rx_data_head : Z;
  rx_data_tail : Z;
  head_frame : RXFrame;
  tail_frame : RXFrame
}.

Definition set_rx_data (v : list Z) (r : Ring) : Ring :=
  mkRing v (rx_data_head r) (rx_data_tail r) (head_frame r) (tail_frame r).
Definition set_rx_data_head (v : Z) (r : Ring) : Ring :=
  mkRing (rx_data r) v (rx_data_tail r) (head_frame r) (tail_frame r).
Definition set_rx_data_tail (v : Z) (r : Ring) : Ring :=
  mkRing (rx_data r) (rx_data_head r) v (head_frame r) (tail_frame r).
Definition set_head_frame (v : RXFrame) (r : Ring) : Ring :=
  mkRing (rx_data r) (rx_data_head r) (rx_data_tail r) v (tail_frame r).
Definition set_tail_frame (v : RXFrame) (r : Ring) : Ring :=
  mkRing (rx_data r) (rx_data_head r) (rx_data_tail r) (head_frame r) v.

(** The receive state machine and its header accumulator. *)
Record Rx : Type := mkRx {
  rx_state : RXState;
  rx_async : list Z;
  rx_async_len : Z;
  rx_async_left : Z;
  rx_async_subtype : Z
}.

Definition set_rx_state (v : RXState) (r : Rx) : Rx :=
  mkRx v (rx_async r) (rx_async_len r) (rx_async_left r) (rx_async_subtype r).
Definition set_rx_async (v : list Z) (r : Rx) : Rx :=
  mkRx (rx_state r) v (rx_async_len r) (rx_async_left r) (rx_async_subtype r).
Definition set_rx_async_len (v : Z) (r : Rx) : Rx :=
  mkRx (rx_state r) (rx_async r) v (rx_async_left r) (rx_async_subtype r).
Definition set_rx_async_left (v : Z) (r : Rx) : Rx :=
  mkRx (rx_state r) (rx_async r) (rx_async_len r) v (rx_async_subtype r).
Definition set_rx_async_subtype (v : Z) (r : Rx) : Rx :=
  mkRx (rx_state r) (rx_async r) (rx_async_len r) (rx_async_left r) v.

(** Association state, pending events and the connection table. *)
Record Net : Type := mkNet {
  ncm_auto_cid : Z;
  events : Z;
  associated : bool;
  connections : list Connection
}.

Definition set_ncm_auto_cid (v : Z) (n : Net) : Net :=
  mkNet v (events n) (associated n) (connections n).
Definition set_events (v : Z) (n : Net) : Net :=
  mkNet (ncm_auto_cid n) v (associated n) (connections n).
Definition set_associated (v : bool) (n : Net) : Net :=
  mkNet (ncm_auto_cid n) (events n) v (connections n).
Definition set_connections (v : list Connection) (n : Net) : Net :=
  mkNet (ncm_auto_cid n) (events n) (associated n) v.

(** What lies outside the object: the values the transport will hand to the
    successive reads ([serial->read()] results, -1 for "nothing", or the
    bytes clocked in by [SPI.transfer]), the bytes written to it so far,
    the samples [digitalRead] will give for the data-ready pin, the values
    [micros()] and [millis()] will return, and the text printed on the
    [error] stream by [writeCommand]. *)
Record World : Type := mkWorld {
  wire_in : list Z;
  wire_out : list Z;
  pin_in : list bool;
  micros_in : list Z;
  millis_in : list Z;
  error_out : list Z
}.

Definition set_wire_in (v : list Z) (w : World) : World :=
  mkWorld v (wire_out w) (pin_in w) (micros_in w) (millis_in w) (error_out w).
Definition set_wire_out (v : list Z) (w : World) : World :=
  mkWorld (wire_in w) v (pin_in w) (micros_in w) (millis_in w) (error_out w).
Definition set_pin_in (v : list bool) (w : World) : World :=
  mkWorld (wire_in w) (wire_out w) v (micros_in w) (millis_in w) (error_out w).
Definition set_micros_in (v : list Z) (w : World) : World :=
  mkWorld (wire_in w) (wire_out w) (pin_in w) v (millis_in w) (error_out w).
Definition set_millis_in (v : list Z) (w : World) : World :=
  mkWorld (wire_in w) (wire_out w) (pin_in w) (micros_in w) v (error_out w).
Definition set_error_out (v : list Z) (w : World) : World :=
  mkWorld (wire_in w) (wire_out w) (pin_in w) (micros_in w) (millis_in w) v.

(** The object.  [has_error] is [this->error != NULL]. *)
Record GSCore : Type := mkGSCore {
  link : Link;
  ring : Ring;
  rx : Rx;
  net : Net;
  world : World;
  initializing : bool;
  unrecoverableError : bool;
  has_error : bool
}.

Definition upd_link (f : Link -> Link) (s : GSCore) : GSCore :=
  mkGSCore (f (link s)) (ring s) (rx s) (net s) (world s) (initializing s)
           (unrecoverableError s) (has_error s).
Definition upd_ring (f : Ring -> Ring) (s : GSCore) : GSCore :=
  mkGSCore (link s) (f (ring s)) (rx s) (net s) (world s) (initializing s)
           (unrecoverableError s) (has_error s).
Definition upd_rx (f : Rx -> Rx) (s : GSCore) : GSCore :=
  mkGSCore (link s) (ring s) (f (rx s)) (net s) (world s) (initializing s)
           (unrecoverableError s) (has_error s).
Definition upd_net (f : Net -> Net) (s : GSCore) : GSCore :=
  mkGSCore (link s) (ring s) (rx s) (f (net s)) (world s) (initializing s)
           (unrecoverableError s) (has_error s).
Definition upd_world (f : World -> World) (s : GSCore) : GSCore :=
  mkGSCore (link s) (ring s) (rx s) (net s) (f (world s)) (initializing s)
           (unrecoverableError s) (has_error s).
Definition set_unrecoverableError (v : bool) (s : GSCore) : GSCore :=
  mkGSCore (link s) (ring s) (rx s) (net s) (world s) (initializing s) v (has_error s).

(** [connections[cid].field = v].  An index above [MAX_CID] is outside the
    C array (undefined behaviour in the source); the model leaves the table
    as it is there. *)
Definition upd_connection (cid : Z) (f : Connection -> Connection) (s : GSCore) : GSCore :=
  upd_net (fun n => set_connections (alter f (Z.to_nat cid) (connections n)) n) s.

(** [connections[cid]] *)
Definition connection (cid : Z) (s : GSCore) : Connection :=
  default connection_zero (connections (net s) !! Z.to_nat cid).

(** ** Declarations of GSCore.h that the implementation depends on

    The header is not part of the sources.  Sizes, the object representation
    of [RXFrame], its conversion to [bool], and the timing and logging
    constants are parameters of the development. *)
Class Header : Type := {
  (** [sizeof(rx_data)] *)
  RX_DATA_SIZE : Z;
  (** 2 to the width of [rx_data_index_t] *)
  RX_INDEX_MOD : Z;
  (** [sizeof(RXFrame)] *)
  FRAME_SIZE : Z;
  (** the bytes [memcpy] copies out of an [RXFrame], and back *)
  frame_bytes : RXFrame -> list Z;
  frame_of_bytes : list Z -> RXFrame;
  (** [RXFrame::operator bool] and the default-constructed [RXFrame()] *)
  frame_bool : RXFrame -> bool;
  frame_null : RXFrame;
  (** [sizeof(rx_async)] *)
  RX_ASYNC_SIZE : Z;
  MAX_RESPONSE_SIZE : Z;
  RESPONSE_TIMEOUT : Z;
  MINIMUM_POLL_INTERVAL : Z;
  INVALID_PIN : Z;
  GS_LOG_ERRORS : bool
}.

(** The values an [RXFrame] can hold, by the types of its fields. *)
Definition frame_wf (f : RXFrame) : Prop :=
  0 <= fr_cid f < 256 /\ 0 <= fr_length f < 65536 /\ 0 <= fr_port f < 65536 /\
  List.length (fr_ip f) = 4%nat /\ Forall (fun o => 0 <= o < 256) (fr_ip f).

(** What the constructor's [static_assert]s and the C++ object model give. *)
Class HeaderOk (hdr : Header) : Prop := {
  (** [is_power_of_two(sizeof(rx_data))], with room for at least one byte *)
  rx_data_size_pow2 : exists k, 0 < k /\ RX_DATA_SIZE = 2 ^ k;
  rx_index_mod_pow2 : exists w, 0 < w /\ RX_INDEX_MOD = 2 ^ w;
  (** [max_for_type(rx_data_index_t) >= sizeof(rx_data) - 1] *)
  rx_index_fits : RX_DATA_SIZE <= RX_INDEX_MOD;
  frame_size_pos : 0 < FRAME_SIZE;
  frame_size_fits : FRAME_SIZE + 1 < RX_DATA_SIZE;
  frame_size_u8 : FRAME_SIZE < 256;
  (** [memcpy] out of and back into an [RXFrame] is the identity *)
  frame_bytes_length : forall f, Z.of_nat (List.length (frame_bytes f)) = FRAME_SIZE;
  frame_roundtrip : forall f, frame_wf f -> frame_of_bytes (frame_bytes f) = f;
  (** a frame with bytes left for a connection of the table is a frame;
      [RXFrame()] is not *)
  frame_bool_pending :
    forall f, 0 < fr_length f -> 0 <= fr_cid f <= MAX_CID -> frame_bool f = true;
  frame_bool_null : frame_bool frame_null = false
}.

(** ** The monad of member functions

    A member function is run on the object and its environment and either
    returns a value and the new state, or has no result: the loop it runs
    was cut off by the fuel, or it read beyond [rx_async]. *)
Definition M (A : Type) : Type := GSCore -> option (A * GSCore).

Definition ret {A} (a : A) : M A := fun s => Some (a, s).
Definition bind {A B} (m : M A) (k : A -> M B) : M B :=
  fun s => match m s with
           | None => None
           | Some (a, s') => k a s'
           end.
Definition gets {A} (f : GSCore -> A) : M A := fun s => Some (f s, s).
Definition modify (f : GSCore -> GSCore) : M unit := fun s => Some (tt, f s).
Definition no_result {A} : M A := fun _ => None.
Definition when (b : bool) (m : M unit) : M unit := if b then m else ret tt.

Notation "x <- m ;; k" := (bind m (fun x => k))
  (at level 20, m at level 99, k at level 200, only parsing).
Notation "m ;;; k" := (bind m (fun _ => k))
  (at level 20, k at level 200, only parsing).

(** A member function that always returns, run inside [M]. *)
Definition lift {A} (f : GSCore -> A * GSCore) : M A := fun s => Some (f s).

Definition has_flag (ev mask : Z) : bool := negb (Z.land ev mask =? 0).
Definition set_flag (mask : Z) (n : Net) : Net :=
  set_events (Z.lor (events n) mask) n.
Definition clear_flag (mask : Z) (n : Net) : Net :=
  set_events (Z.land (events n) (Z.lnot mask)) n.

(** ** The connection table and the events *)

Definition processDisconnect (cid : Z) (s : GSCore) : GSCore :=
  if negb (connected (connection cid s)) then s
  else
    let s := upd_connection cid (set_connected false) s in
    let s := upd_connection cid (set_ssl false) s in
    if cid =? ncm_auto_cid (net s) then
      let s := upd_net (set_ncm_auto_cid INVALID_CID) s in
      if has_flag (events (net s)) EVENT_NCM_CONNECTED
      then upd_net (clear_flag EVENT_NCM_CONNECTED) s
      else upd_net (set_flag EVENT_NCM_DISCONNECTED) s
    else s.

Definition processConnect (cid remote_ip remote_port local_port : Z) (ncm : bool)
                          (s : GSCore) : GSCore :=
  let s := if connected (connection cid s) then processDisconnect cid s else s in
  let s := if ncm
           then upd_net (set_flag EVENT_NCM_CONNECTED) (upd_net (set_ncm_auto_cid cid) s)
           else s in
  let s := upd_connection cid (set_remote remote_ip remote_port local_port) s in
  let s := upd_connection cid (set_error false) s in
  upd_connection cid (set_connected true) s.

(** The values [cid] takes in [for (cid_t cid = 0; cid <= MAX_CID; ++cid)]. *)
Definition all_cids : list Z := map Z.of_nat (seq 0 (Z.to_nat MAX_CID + 1)).

Definition processDisassociation (s : GSCore) : GSCore :=
  if negb (associated (net s)) then s
  else
    let s := if has_flag (events (net s)) EVENT_ASSOCIATED
             then upd_net (clear_flag EVENT_ASSOCIATED) s
             else upd_net (set_flag EVENT_DISASSOCIATED) s in
    let s := upd_net (set_associated false) s in
    fold_left (fun s cid =>
                 if connected (connection cid s)
                 then processDisconnect cid (upd_connection cid (set_error true) s)
                 else s)
              all_cids s.

Definition processAssociation (s : GSCore) : GSCore :=
  let s := if associated (net s) then processDisassociation s else s in
  let s := upd_net (set_associated true) s in
  upd_net (set_flag EVENT_ASSOCIATED) s.

(** [enum GSAsync] *)
Definition GS_ASYNC_SOCK_FAIL : Z := 0.
Definition GS_ASYNC_CON_SUCCESS : Z := 1.
Definition GS_ASYNC_ECIDCLOSE : Z := 2.
Definition GS_ASYNC_DISASSO_EVT : Z := 3.
Definition GS_ASYNC_STBY_TMR_EVT : Z := 4.
Definition GS_ASYNC_STBY_ALM_EVT : Z := 5.
Definition GS_ASYNC_DPSLEEP_EVT : Z := 6.
Definition GS_ASYNC_BOOT_UNEXPEC : Z := 7.
Definition GS_ASYNC_ENOIP : Z := 8.
Definition GS_ASYNC_BOOT_INTERNAL : Z := 9.
Definition GS_ASYNC_BOOT_EXTERNAL : Z := 10.
Definition GS_ASYNC_FAILURE : Z := 11.
Definition GS_ASYNC_NWCONN_SUCCESS : Z := 12.
Definition GS_ASYNC_MAX : Z := GS_ASYNC_NWCONN_SUCCESS.

(** The inner [switch] of [processAsync], for the subtypes without
    arguments. *)
Definition processAsync_noargs (subtype : Z) (s : GSCore) : bool * GSCore :=
  if subtype =? GS_ASYNC_FAILURE then (false, s)
  else if subtype =? GS_ASYNC_DISASSO_EVT then (true, processDisassociation s)
  else if (subtype =? GS_ASYNC_STBY_TMR_EVT) || (subtype =? GS_ASYNC_STBY_ALM_EVT)
          || (subtype =? GS_ASYNC_DPSLEEP_EVT) then (false, s)
  else if (subtype =? GS_ASYNC_BOOT_UNEXPEC) || (subtype =? GS_ASYNC_BOOT_INTERNAL)
          || (subtype =? GS_ASYNC_BOOT_EXTERNAL) then
    (if initializing s then (true, s) else (false, s))
  else if subtype =? GS_ASYNC_NWCONN_SUCCESS then (true, processAssociation s)
  else if subtype =? GS_ASYNC_ENOIP then (true, processDisassociation s)
  else (false, s).

Definition processAsync (s : GSCore) : bool * GSCore :=
  if rx_async_subtype (rx s) >? GS_ASYNC_MAX then (false, s)
  else if rx_async_len (rx s) <? 1 then (false, s)
  else
    match parseNumber8 (rx_async (rx s)) 1 16 with
    | None => (false, s)
    | Some subtype =>
        if negb (subtype =? rx_async_subtype (rx s)) then (false, s)
        else
          let arg_len := u8 (rx_async_len (rx s) - 1) in
          let args := advance (rx_async (rx s)) 1 in
          if negb (arg_len =? 0) && negb (byte_at args 0 =? ch " ") then (false, s)
          else if rx_async_subtype (rx s) =? GS_ASYNC_CON_SUCCESS then
            if arg_len <? 2 then (false, s)
            else if arg_len =? 2 then
              match parseNumber8 (advance args 1) 1 16 with
              | None => (false, s)
              | Some cid => (true, processConnect cid 0 0 0 true s)
              end
            else (false, s)
          else if (rx_async_subtype (rx s) =? GS_ASYNC_SOCK_FAIL)
                  || (rx_async_subtype (rx s) =? GS_ASYNC_ECIDCLOSE) then
            if negb (arg_len =? 2) then (false, s)
            else
              match parseNumber8 (advance args 1) 1 16 with
              | None => (false, s)
              | Some cid =>
                  let s := if rx_async_subtype (rx s) =? response_code GS_SOCK_FAIL
                           then upd_connection cid (set_error true) s
                           else s in
                  (true, processDisconnect cid s)
              end
          else if arg_len >? 0 then (false, s)
          else processAsync_noargs (rx_async_subtype (rx s)) s
    end.

(** [GSCore::loop] after [readAndProcessAsync]: the callbacks invoked, in
    order, and the events left.  [on_*] tell which callbacks are set. *)
Inductive Callback : Type :=
  | OnNcmDisconnect | OnDisassociate | OnAssociate | OnNcmConnect (cid : Z).

Definition dispatch_one (registered : bool) (mask : Z) (cb : Callback)
                        (acc : list Callback * GSCore) : list Callback * GSCore :=
  let '(fired, s) := acc in
  if registered && has_flag (events (net s)) mask
  then (fired ++ [cb], upd_net (clear_flag mask) s)
  else (fired, s).

Definition dispatch_events (onNcmDisconnect onDisassociate onAssociate onNcmConnect : bool)
                           (s : GSCore) : list Callback * GSCore :=
  let acc := dispatch_one onNcmDisconnect EVENT_NCM_DISCONNECTED OnNcmDisconnect ([], s) in
  let acc := dispatch_one onDisassociate EVENT_DISASSOCIATED OnDisassociate acc in
  let acc := dispatch_one onAssociate EVENT_ASSOCIATED OnAssociate acc in
  dispatch_one onNcmConnect EVENT_NCM_CONNECTED
               (OnNcmConnect (ncm_auto_cid (net (snd acc)))) acc.

(** ** The transport and the SPI link framer *)

(** [serial->read()] *)
Definition serial_read (s : GSCore) : Z * GSCore :=
  match wire_in (world s) with
  | [] => (-1, s)
  | c :: rest => (c, upd_world (set_wire_in rest) s)
  end.

(** [serial->write(buf, len)] *)
Definition serial_write (buf : list Z) (len : Z) (s : GSCore) : GSCore :=
  upd_world (fun w => set_wire_out (wire_out w ++ take (Z.to_nat len) buf) w) s.

(** [transferSpi]: one full-duplex byte; a silent line reads as idle. *)
Definition transferSpi (out : Z) (s : GSCore) : Z * GSCore :=
  let s := upd_world (fun w => set_wire_out (wire_out w ++ [out]) w) s in
  match wire_in (world s) with
  | [] => (SPI_SPECIAL_IDLE, s)
  | c :: rest => (u8 c, upd_world (set_wire_in rest) s)
  end.

(** [digitalRead(data_ready_pin)] *)
Definition digitalRead_data_ready (s : GSCore) : bool * GSCore :=
  match pin_in (world s) with
  | [] => (false, s)
  | b :: rest => (b, upd_world (set_pin_in rest) s)
  end.

(** [micros()] *)
Definition micros (s : GSCore) : Z * GSCore :=
  match micros_in (world s) with
  | [] => (0, s)
  | t :: rest => (u32 t, upd_world (set_micros_in rest) s)
  end.

(** [millis()] *)
Definition millis (s : GSCore) : Z * GSCore :=
  match millis_in (world s) with
  | [] => (0, s)
  | t :: rest => (u32 t, upd_world (set_millis_in rest) s)
  end.

Definition processSpiSpecial (c : Z) (s : GSCore) : Z * GSCore :=
  if spi_prev_was_esc (link s) then
    (Z.lxor c SPI_ESC_XOR, upd_link (set_spi_prev_was_esc false) s)
  else
    let s := if negb (c =? SPI_SPECIAL_ALL_ONE)
             then upd_link (set_errorcount 0) s else s in
    if c =? SPI_SPECIAL_ALL_ONE then
      let s := upd_link (set_errorcount (u8 (errorcount (link s) + 1))) s in
      if errorcount (link s) >? 20
      then (-1, upd_link (set_errorcount 0) (set_unrecoverableError true s))
      else (-1, s)
    else if c =? SPI_SPECIAL_ALL_ZERO then (-1, s)
    else if c =? SPI_SPECIAL_ACK then (-1, s)
    else if c =? SPI_SPECIAL_IDLE then (-1, s)
    else if c =? SPI_SPECIAL_XOFF then (-1, upd_link (set_spi_xoff true) s)
    else if c =? SPI_SPECIAL_XON then (-1, upd_link (set_spi_xoff false) s)
    else if c =? SPI_SPECIAL_ESC then (-1, upd_link (set_spi_prev_was_esc true) s)
    else (c, s).

Definition isSpiSpecial (c : Z) : bool :=
  (c =? SPI_SPECIAL_ALL_ONE) || (c =? SPI_SPECIAL_ALL_ZERO) || (c =? SPI_SPECIAL_ACK)
  || (c =? SPI_SPECIAL_IDLE) || (c =? SPI_SPECIAL_XOFF) || (c =? SPI_SPECIAL_XON)
  || (c =? SPI_SPECIAL_ESC).

(** [processSpiSpecial(transferSpi(out))] *)
Definition spi_exchange (out : Z) (s : GSCore) : Z * GSCore :=
  let '(c, s) := transferSpi out s in processSpiSpecial c s.

(** [do { c = processSpiSpecial(transferSpi(SPI_SPECIAL_IDLE)); }
     while (c == -1 && --tries > 0);] with [more] = [tries - 1]. *)
Fixpoint readRaw_poll (more : nat) (s : GSCore) : Z * GSCore :=
  let '(c, s) := spi_exchange SPI_SPECIAL_IDLE s in
  match more with
  | O => (c, s)
  | S more' => if c =? -1 then readRaw_poll more' s else (c, s)
  end.

Section Engine.
Context {hdr : Header}.

(** The choice of [tries] when there is no data-ready pin. *)
Definition readRaw_tries (s : GSCore) : Z * GSCore :=
  let '(t, s) := micros s in
  let new_time := u16 t in
  let diff := u16 (new_time - spi_poll_time (link s)) in
  if diff <? MINIMUM_POLL_INTERVAL then
    if diff <? MINIMUM_POLL_INTERVAL / 64
    then (1, upd_link (set_spi_poll_time new_time) s)
    else (1, upd_link (fun l => set_spi_poll_time
                                  (u16 (spi_poll_time l + MINIMUM_POLL_INTERVAL / 64)) l) s)
  else (64, upd_link (set_spi_poll_time new_time) s).

Definition readRaw (s : GSCore) : Z * GSCore :=
  if unrecoverableError s then (-1, s)
  else if serial (link s) then serial_read s
  else if negb (ss_pin (link s) =? INVALID_PIN) then
    if negb (data_ready_pin (link s) =? INVALID_PIN) then
      let '(ready, s) := digitalRead_data_ready s in
      if negb ready then (-1, s)
      else readRaw_poll 63 s
    else
      let '(tries, s) := readRaw_tries s in
      readRaw_poll (Z.to_nat tries - 1) s
  else (-1, s).

(** [void GSCore::end()], after which [begin] may be called again. *)
Definition gs_end (s : GSCore) : GSCore :=
  let l := link s in
  let s := upd_link (fun _ => mkLink false INVALID_PIN INVALID_PIN (spi_prev_was_esc l)
                                     (spi_xoff l) (spi_poll_time l) (errorcount l)) s in
  let s := upd_net (fun n => set_connections
                               (map (fun _ => connection_zero) (connections n)) n) s in
  let s := upd_net (set_associated false) s in
  set_unrecoverableError false s.

(** ** The ring buffer and the frame queue *)

(** [memcpy(&rx_data[at], bytes, sizeof bytes)] *)
Fixpoint store_bytes (data : list Z) (at_ : nat) (bytes : list Z) : list Z :=
  match bytes with
  | [] => data
  | b :: bytes' => store_bytes (<[at_ := b]> data) (S at_) bytes'
  end.

Definition ring_empty (s : GSCore) : bool :=
  rx_data_head (ring s) =? rx_data_tail (ring s).

Definition loadFrameHeader (s : GSCore) : GSCore :=
  let s := if RX_DATA_SIZE - rx_data_tail (ring s) <? FRAME_SIZE
           then upd_ring (set_rx_data_tail 0) s else s in
  let bytes := take (Z.to_nat FRAME_SIZE)
                    (drop (Z.to_nat (rx_data_tail (ring s))) (rx_data (ring s))) in
  let s := upd_ring (set_tail_frame (frame_of_bytes bytes)) s in
  upd_ring (fun r => set_rx_data_tail ((rx_data_tail r + FRAME_SIZE) mod RX_INDEX_MOD) r) s.

(** [tail_frame.length--] and [--head_frame.length], on [uint16_t]. *)
Definition dec_tail_length (r : Ring) : Ring :=
  set_tail_frame (set_fr_length (u16 (fr_length (tail_frame r) - 1)) (tail_frame r)) r.
Definition dec_head_length (r : Ring) : Ring :=
  set_head_frame (set_fr_length (u16 (fr_length (head_frame r) - 1)) (head_frame r)) r.

Definition getData (s : GSCore) : Z * GSCore :=
  if negb (rx_data_tail (ring s) =? rx_data_head (ring s)) then
    let c := byte_at (rx_data (ring s)) (rx_data_tail (ring s)) in
    let s := upd_ring (fun r => set_rx_data_tail ((rx_data_tail r + 1) mod RX_DATA_SIZE) r) s in
    let s := upd_ring dec_tail_length s in
    (c, s)
  else
    let '(c, s) := readRaw s in
    if c >=? 0 then
      let s := upd_ring dec_tail_length s in
      let s := upd_ring dec_head_length s in
      if fr_length (head_frame (ring s)) =? 0
      then (c, upd_rx (set_rx_state GS_RX_IDLE) s)
      else (c, s)
    else (c, s).

Section Reentrant.
(** [processIncoming] as seen from the functions it calls itself, and the
    number of turns granted to the loop of [getFrameHeader]. *)
Variable processIncoming_rec : Z -> M bool.
Variable fuel : nat.

(** [while (tail_frame.length == 0) if (!processIncoming(readRaw())) return RXFrame();]
    The result is [false] when the function returned from inside the loop. *)
Fixpoint getFrameHeader_wait (n : nat) : M bool :=
  tf <- gets (fun s => tail_frame (ring s)) ;;
  if negb (fr_length tf =? 0) then ret true
  else
    match n with
    | O => no_result
    | S n' =>
        c <- lift readRaw ;;
        ok <- processIncoming_rec c ;;
        if ok then getFrameHeader_wait n' else ret false
    end.

Definition getFrameHeader (cid : Z) : M RXFrame :=
  tf <- gets (fun s => tail_frame (ring s)) ;;
  ok <- (if fr_length tf =? 0 then
           empty <- gets ring_empty ;;
           if negb empty then modify loadFrameHeader ;;; ret true
           else getFrameHeader_wait fuel
         else ret true) ;;
  if negb ok then ret frame_null
  else
    tf <- gets (fun s => tail_frame (ring s)) ;;
    if (cid =? ANY_CID) || (fr_cid tf =? cid) then ret tf else ret frame_null.

(** [int readData(cid_t *cid)]: the byte, or -1, and [*cid] when it was
    written. *)
Definition readData_any : M (Z * option Z) :=
  f <- getFrameHeader ANY_CID ;;
  if negb (frame_bool f) then ret (-1, None)
  else
    c <- lift getData ;;
    if c >=? 0 then
      cid <- gets (fun s => fr_cid (tail_frame (ring s))) ;;
      ret (c, Some cid)
    else ret (c, None).

(** [int readData(cid_t cid)] *)
Definition readData (cid : Z) : M Z :=
  f <- getFrameHeader cid ;;
  if negb (frame_bool f) then ret (-1) else lift getData.

Fixpoint dropData_loop (num_bytes : nat) : M unit :=
  match num_bytes with
  | O => ret tt
  | S n =>
      r <- readData_any ;;
      (match r with
       | (c, Some cid) =>
           if c >=? 0 then modify (upd_connection cid (set_error true)) else ret tt
       | (_, None) => ret tt
       end) ;;;
      dropData_loop n
  end.

(** [void dropData(uint8_t num_bytes)] *)
Definition dropData (num_bytes : Z) : M unit := dropData_loop (Z.to_nat (u8 num_bytes)).

Definition bufferIncomingData (c : Z) : M unit :=
  next_head <- gets (fun s => (rx_data_head (ring s) + 1) mod RX_DATA_SIZE) ;;
  tail <- gets (fun s => rx_data_tail (ring s)) ;;
  when (next_head =? tail) (dropData 1) ;;;
  modify (upd_ring (fun r =>
            set_rx_data (<[Z.to_nat (rx_data_head r) := u8 c]> (rx_data r)) r)) ;;;
  modify (upd_ring (set_rx_data_head next_head)).

(** [void bufferFrameHeader(const RXFrame *frame)]; every caller passes
    [&this->head_frame], so [*frame] is [head_frame] as it is when read. *)
Definition bufferFrameHeader : M unit :=
  empty <- gets ring_empty ;;
  if empty then
    modify (upd_ring (fun r => set_tail_frame (head_frame r) r))
  else
    head <- gets (fun s => rx_data_head (ring s)) ;;
    when (head >? RX_DATA_SIZE - FRAME_SIZE)
         (tail <- gets (fun s => rx_data_tail (ring s)) ;;
          head <- gets (fun s => rx_data_head (ring s)) ;;
          when (tail >? head) (dropData (tail - tail)) ;;;
          tail <- gets (fun s => rx_data_tail (ring s)) ;;
          when (tail =? 0) (dropData 1) ;;;
          modify (upd_ring (set_rx_data_head 0))) ;;;
    free <- gets (fun s => u8 ((rx_data_tail (ring s) - rx_data_head (ring s) - 1)
                               mod RX_DATA_SIZE)) ;;
    when (free <? FRAME_SIZE) (dropData (FRAME_SIZE - free)) ;;;
    modify (upd_ring (fun r =>
              set_rx_data (store_bytes (rx_data r) (Z.to_nat (rx_data_head r))
                                       (frame_bytes (head_frame r))) r)) ;;;
    modify (upd_ring (fun r =>
              set_rx_data_head ((rx_data_head r + FRAME_SIZE) mod RX_INDEX_MOD) r)).

(** ** The receive state machine *)

Definition upd_head_frame (f : RXFrame -> RXFrame) : M unit :=
  modify (upd_ring (fun r => set_head_frame (f (head_frame r)) r)).

Definition set_state (st : RXState) : M unit := modify (upd_rx (set_rx_state st)).

(** [--this->rx_async_left == 0] *)
Definition dec_async_left : M bool :=
  modify (upd_rx (fun r => set_rx_async_left (u8 (rx_async_left r - 1)) r)) ;;;
  gets (fun s => rx_async_left (rx s) =? 0).

(** The index of the first [c] in the bytes at [p], as the [uint8_t]
    counting loops of the [<ESC>y] header find it. *)
Fixpoint find_char (c : Z) (p : list Z) : option Z :=
  match p with
  | [] => None
  | x :: p' => if x =? c then Some 0
               else match find_char c p' with
                    | Some n => Some (n + 1)
                    | None => None
                    end
  end.

Definition find_char8 (c : Z) (p : list Z) : M Z :=
  match find_char c p with
  | Some n => if n <? 256 then ret n else no_result
  | None => no_result
  end.

(** [case GS_RX_ESC_Z:] once the five header bytes are in. *)
Definition finish_ESC_Z : M unit :=
  buf <- gets (fun s => rx_async (rx s)) ;;
  match parseNumber8 buf 1 16 with
  | None => set_state GS_RX_IDLE
  | Some cid =>
      upd_head_frame (set_fr_cid cid) ;;;
      match parseNumber16 (advance buf 1) 4 10 with
      | None => set_state GS_RX_IDLE
      | Some len =>
          upd_head_frame (set_fr_length len) ;;;
          upd_head_frame (set_fr_udp_server false) ;;;
          bufferFrameHeader ;;;
          set_state GS_RX_BULK
      end
  end.

(** [case GS_RX_ESC_y_3:] once the four length digits are in. *)
Definition finish_ESC_y : M unit :=
  buf <- gets (fun s => rx_async (rx s)) ;;
  let ipstart := advance buf 1 in
  iplen <- find_char8 (ch " ") ipstart ;;
  let portstart := advance ipstart (iplen + 1) in
  portlen <- find_char8 9 portstart ;;
  let lengthstart := advance portstart (portlen + 1) in
  match parseNumber8 buf 1 16 with
  | None => set_state GS_RX_IDLE
  | Some cid =>
      upd_head_frame (set_fr_cid cid) ;;;
      let '(ok, ipv) := parseIpAddress ipstart iplen in
      upd_head_frame (set_fr_ip ipv) ;;;
      if negb ok then set_state GS_RX_IDLE
      else
        match parseNumber16 portstart portlen 10 with
        | None => set_state GS_RX_IDLE
        | Some p =>
            upd_head_frame (set_fr_port p) ;;;
            match parseNumber16 lengthstart 4 10 with
            | None => set_state GS_RX_IDLE
            | Some len =>
                upd_head_frame (set_fr_length len) ;;;
                upd_head_frame (set_fr_udp_server true) ;;;
                bufferFrameHeader ;;;
                set_state GS_RX_BULK
            end
        end
  end.

(** [case GS_RX_ESC_A:] once the three header bytes are in. *)
Definition finish_ESC_A : M unit :=
  buf <- gets (fun s => rx_async (rx s)) ;;
  match parseNumber8 buf 1 16 with
  | None => set_state GS_RX_IDLE
  | Some subtype =>
      modify (upd_rx (set_rx_async_subtype subtype)) ;;;
      match parseNumber8 (advance buf 1) 2 10 with
      | None => set_state GS_RX_IDLE
      | Some remaining =>
          modify (upd_rx (set_rx_async_left remaining)) ;;;
          set_state GS_RX_ASYNC ;;;
          modify (upd_rx (set_rx_async_len 0))
      end
  end.

(** [rx_async[rx_async_len++] = c], unless [rx_async] is full. *)
Definition push_async (c : Z) (r : Rx) : Rx :=
  if rx_async_len r <? RX_ASYNC_SIZE then
    set_rx_async_len (rx_async_len r + 1)
      (set_rx_async (<[Z.to_nat (rx_async_len r) := u8 c]> (rx_async r)) r)
  else r.

Definition processIncoming_step (c : Z) : M bool :=
  if c <? 0 then ret false
  else
    st <- gets (fun s => rx_state (rx s)) ;;
    (match st with
     | GS_RX_IDLE =>
         when (c =? 27) (set_state GS_RX_ESC)
     | GS_RX_ESC =>
         if c =? ch "Z" then
           set_state GS_RX_ESC_Z ;;;
           modify (upd_rx (set_rx_async_left 5)) ;;;
           modify (upd_rx (set_rx_async_len 0))
         else if c =? ch "A" then
           set_state GS_RX_ESC_A ;;;
           modify (upd_rx (set_rx_async_left 3)) ;;;
           modify (upd_rx (set_rx_async_len 0))
         else if c =? ch "y" then
           set_state GS_RX_ESC_y_1 ;;;
           modify (upd_rx (set_rx_async_len 0))
         else set_state GS_RX_IDLE
     | GS_RX_BULK =>
         bufferIncomingData c ;;;
         modify (upd_ring dec_head_length) ;;;
         len <- gets (fun s => fr_length (head_frame (ring s))) ;;
         when (len =? 0) (set_state GS_RX_IDLE)
     | _ =>
         modify (upd_rx (push_async c)) ;;;
         match st with
         | GS_RX_ESC_Z =>
             zero <- dec_async_left ;;
             when zero finish_ESC_Z
         | GS_RX_ESC_y_1 =>
             when (c =? ch " ") (set_state GS_RX_ESC_y_2)
         | GS_RX_ESC_y_2 =>
             when (c =? 9)
                  (set_state GS_RX_ESC_y_3 ;;; modify (upd_rx (set_rx_async_left 4)))
         | GS_RX_ESC_y_3 =>
             zero <- dec_async_left ;;
             when zero finish_ESC_y
         | GS_RX_ESC_A =>
             zero <- dec_async_left ;;
             when zero finish_ESC_A
         | GS_RX_ASYNC =>
             zero <- dec_async_left ;;
             when zero (set_state GS_RX_IDLE ;;; (_ <- lift processAsync ;; ret tt))
         | _ => ret tt
         end
     end) ;;;
    ret true.

End Reentrant.

(** [bool processIncoming(int c)], cut off after [fuel] nested entries. *)
Fixpoint processIncoming (fuel : nat) (c : Z) : M bool :=
  match fuel with
  | O => no_result
  | S n => processIncoming_step (processIncoming n) n c
  end.

(** ** Writing *)

(** The SPI branch of [writeRaw]: [while (len && tries > 0)].  Every turn
    lowers [len] or [tries], so [n = len + tries] turns are enough. *)
Fixpoint writeRaw_spi (fuel n : nat) (buf : list Z) (len tries : Z) : M unit :=
  if (len =? 0) || negb (tries >? 0) then ret tt
  else
    match n with
    | O => ret tt
    | S n' =>
        err <- gets unrecoverableError ;;
        if err then ret tt
        else
          xoff <- gets (fun s => spi_xoff (link s)) ;;
          if xoff then
            c <- lift (spi_exchange SPI_SPECIAL_IDLE) ;;
            _ <- processIncoming fuel c ;;
            writeRaw_spi fuel n' buf len (tries - 1)
          else
            (if isSpiSpecial (byte_at buf 0) then
               c <- lift (spi_exchange SPI_SPECIAL_ESC) ;;
               _ <- processIncoming fuel c ;;
               c <- lift (spi_exchange (Z.lxor (byte_at buf 0) SPI_ESC_XOR)) ;;
               _ <- processIncoming fuel c ;;
               ret tt
             else
               c <- lift (spi_exchange (byte_at buf 0)) ;;
               _ <- processIncoming fuel c ;;
               ret tt) ;;;
            writeRaw_spi fuel n' (advance buf 1) (len - 1) tries
    end.

(** [void writeRaw(const uint8_t *buf, uint16_t len)] *)
Definition writeRaw (fuel : nat) (buf : list Z) (len : Z) : M unit :=
  is_serial <- gets (fun s => serial (link s)) ;;
  if is_serial then
    err <- gets unrecoverableError ;;
    if err then ret tt else modify (serial_write buf len)
  else
    pin <- gets (fun s => ss_pin (link s)) ;;
    if negb (pin =? 0) then writeRaw_spi fuel (Z.to_nat len + 1024) buf len 1024
    else ret tt.

(** [vsnprintf(buf, size, fmt, args)] where [formatted] is the whole text
    the format expands to: at most [size - 1] of its bytes and a NUL are
    stored, its full length is returned. *)
Definition vsnprintf (buf : list Z) (size : Z) (formatted : list Z) : list Z * Z :=
  let n := Z.of_nat (List.length formatted) in
  if size <=? 0 then (buf, n)
  else (store_bytes buf 0 (take (Z.to_nat (Z.min n (size - 1))) formatted ++ [0]), n).

(** [print]s of [writeCommand] on the [error] stream *)
Definition error_print (text : list Z) (s : GSCore) : GSCore :=
  upd_world (fun w => set_error_out (error_out w ++ text) w) s.

(** [void writeCommand(const char *fmt, va_list args)].  [formatted] is the
    expansion of [fmt] with [args], [buf0] what the 128 bytes of the local
    [buf] hold on entry. *)
Definition writeCommand (fuel : nat) (formatted buf0 : list Z) : M unit :=
  let sizeof_buf := 128 in
  let '(buf, len) := vsnprintf buf0 (sizeof_buf - 2) formatted in
  len <- (if len >? sizeof_buf - 2 then
            let len := sizeof_buf - 2 in
            log <- gets (fun s => GS_LOG_ERRORS && has_error s) ;;
            when log (modify (error_print (bytes_of_string "Command truncated: "
                                           ++ take (Z.to_nat len) buf
                                           ++ bytes_of_string (String "013" (String "010" ""))))) ;;;
            ret len
          else ret len) ;;
  let buf := <[Z.to_nat len := ch "013"]> buf in
  let len := len + 1 in
  let buf := <[Z.to_nat len := ch "010"]> buf in
  let len := len + 1 in
  writeRaw fuel buf len.

(** ** Reading a reply *)

(** The locals of [readResponseInternal]. *)
Record Resp : Type := mkResp {
  r_buf : list Z;
  r_read : Z;
  r_line_start : Z;
  r_dropped_data : bool;
  r_skip_line : bool
}.

(** [memmove(&buf[to], &buf[from], n)] *)
Definition memmove (buf : list Z) (to from n : Z) : list Z :=
  store_bytes buf (Z.to_nat to) (take (Z.to_nat n) (drop (Z.to_nat from) buf)).

(** The last branch of the loop: [c] is a character of a reply line and
    [len] is [*len], the room in [buf]. *)
Definition resp_store (len c : Z) (l : Resp) : Resp :=
  if r_read l <? len then
    mkResp (<[Z.to_nat (r_read l) := u8 c]> (r_buf l)) (u16 (r_read l + 1))
           (r_line_start l) (r_dropped_data l) (r_skip_line l)
  else if r_read l - r_line_start l >=? MAX_RESPONSE_SIZE then
    mkResp (r_buf l) (r_read l) (r_line_start l) true true
  else if r_line_start l >? 0 then
    let buf := memmove (r_buf l) (r_line_start l - 1) (r_line_start l)
                       (r_read l - r_line_start l) in
    let line_start := u16 (r_line_start l - 1) in
    let buf := <[Z.to_nat (r_read l) := u8 c]> buf in
    mkResp buf (r_read l) line_start true (r_skip_line l)
  else
    mkResp (r_buf l) (r_read l) (r_line_start l) true (r_skip_line l).

(** How a turn of the loop ends: with [continue], or with [return res]
    after [*len] was set. *)
Inductive Turn : Type :=
  | Continue (l : Resp)
  | Return (res : GSResponse) (len : Z) (l : Resp).

(** The branch for a line end, after the tests for an empty and for a
    skipped line: what is done with the code [res] of the line.  The second
    component is the line handed to the callback, if any. *)
Definition resp_line (len : Z) (keep_data callback : bool) (res : GSResponse) (l : Resp)
  : Turn * option (list Z) :=
  let unknown := match res with GS_UNKNOWN_RESPONSE => true | _ => false end in
  let con := match res with GS_CON_SUCCESS => true | _ => false end in
  if keep_data && negb callback && negb (r_dropped_data l) && unknown then
    let l := if r_read l <? len
             then mkResp (<[Z.to_nat (r_read l) := ch "013"]> (r_buf l)) (u16 (r_read l + 1))
                         (r_line_start l) (r_dropped_data l) false
             else mkResp (r_buf l) (r_read l) (r_line_start l) (r_dropped_data l) false in
    let l := if r_read l <? len
             then mkResp (<[Z.to_nat (r_read l) := ch "010"]> (r_buf l)) (u16 (r_read l + 1))
                         (r_line_start l) (r_dropped_data l) false
             else l in
    (Continue (mkResp (r_buf l) (r_read l) (r_read l) (r_dropped_data l) false), None)
  else
    let line := take (Z.to_nat (r_read l - r_line_start l))
                     (drop (Z.to_nat (r_line_start l)) (r_buf l)) in
    let called := if keep_data && callback && unknown then Some line else None in
    let l := mkResp (r_buf l) (r_line_start l) (r_line_start l) (r_dropped_data l) false in
    if negb unknown && negb con
    then (Return res (r_read l) l, called)
    else (Continue l, called).

(** What [readResponseInternal] hands back: the code, [buf] and [*len],
    the cell behind [connect_cid], and the lines given to the callback. *)
Record Reply : Type := mkReply {
  reply_code : GSResponse;
  reply_buf : list Z;
  reply_len : Z;
  reply_connect_cid : option Z;
  reply_lines : list (list Z)
}.

(** The [while (true)] loop, cut off after [fuel] turns. *)
Fixpoint readResponse_loop (fuel : nat) (len start : Z) (keep_data callback : bool)
                           (connect_cid : option Z) (lines : list (list Z)) (l : Resp)
  : M Reply :=
  match fuel with
  | O => no_result
  | S fuel' =>
      let continue connect_cid lines l :=
        readResponse_loop fuel' len start keep_data callback connect_cid lines l in
      let failed := mkReply GS_UNRECOVERABLE_ERROR (r_buf l) len connect_cid lines in
      err <- gets unrecoverableError ;;
      if err then ret failed
      else
        c <- lift readRaw ;;
        if c =? -1 then
          now <- lift millis ;;
          if u32 (now - start) >? RESPONSE_TIMEOUT then
            modify (set_unrecoverableError true) ;;; ret failed
          else continue connect_cid lines l
        else
          st <- gets (fun s => rx_state (rx s)) ;;
          if negb (match st with GS_RX_IDLE => true | _ => false end) || (c =? 27) then
            _ <- processIncoming fuel' c ;;
            continue connect_cid lines l
          else if (c =? ch "013") || (c =? ch "010") then
            if r_read l - r_line_start l =? 0 then continue connect_cid lines l
            else if r_skip_line l then
              continue connect_cid lines
                       (mkResp (r_buf l) (r_line_start l) (r_line_start l)
                               (r_dropped_data l) false)
            else
              let '(res, connect_cid) :=
                processResponseLine (advance (r_buf l) (r_line_start l))
                                    (u8 (r_read l - r_line_start l)) connect_cid in
              when (match res with GS_LINK_LOST => true | _ => false end)
                   (modify processDisassociation) ;;;
              match resp_line len keep_data callback res l with
              | (Continue l, called) =>
                  continue connect_cid (lines ++ option_list called) l
              | (Return res len l, called) =>
                  ret (mkReply res (r_buf l) len connect_cid (lines ++ option_list called))
              end
          else continue connect_cid lines (resp_store len c l)
  end.

(** [GSResponse readResponseInternal(buf, len, connect_cid, keep_data, callback, data)] *)
Definition readResponseInternal (fuel : nat) (buf : list Z) (len : Z)
                                (connect_cid : option Z) (keep_data callback : bool)
  : M Reply :=
  start <- lift millis ;;
  readResponse_loop fuel len start keep_data callback connect_cid []
                    (mkResp buf 0 0 false false).

End Engine.

(** ** A header to run the model on

    An instance of the declarations: a 256-byte ring buffer indexed by a
    [uint8_t], and a ten-byte frame record. *)
Definition frame_bytes_packed (f : RXFrame) : list Z :=
  [fr_cid f; fr_length f mod 256; fr_length f / 256;
   if fr_udp_server f then 1 else 0;
   byte_at (fr_ip f) 0; byte_at (fr_ip f) 1; byte_at (fr_ip f) 2; byte_at (fr_ip f) 3;
   fr_port f mod 256; fr_port f / 256].

Definition frame_of_bytes_packed (b : list Z) : RXFrame :=
  mkRXFrame (byte_at b 0) (byte_at b 1 + 256 * byte_at b 2)
            (negb (byte_at b 3 =? 0))
            [byte_at b 4; byte_at b 5; byte_at b 6; byte_at b 7]
            (byte_at b 8 + 256 * byte_at b 9).

Definition avr_header : Header := {|
  RX_DATA_SIZE := 256;
  RX_INDEX_MOD := 256;
  FRAME_SIZE := 10;
  frame_bytes := frame_bytes_packed;
  frame_of_bytes := frame_of_bytes_packed;
  frame_bool := fun f => negb (fr_length f =? 0);
  frame_null := mkRXFrame 0 0 false ip_zero 0;
  RX_ASYNC_SIZE := 64;
  MAX_RESPONSE_SIZE := 32;
  RESPONSE_TIMEOUT := 25000;
  MINIMUM_POLL_INTERVAL := 6400;
  INVALID_PIN := 255;
  GS_LOG_ERRORS := true
|}.

Definition link0 : Link := mkLink true 255 255 false false 0 0.
Definition spi_link0 : Link := mkLink false 10 255 false false 0 0.
Definition ring0 : Ring :=
  mkRing (repeat 0 256) 0 0 (mkRXFrame 0 0 false ip_zero 0) (mkRXFrame 0 0 false ip_zero 0).
Definition rx0 : Rx := mkRx GS_RX_IDLE (repeat 0 64) 0 0 0.
Definition net0 : Net := mkNet INVALID_CID 0 false (repeat connection_zero 16).
Definition world0 : World := mkWorld [] [] [] [] [] [].

(** The object after a successful [begin] on a serial port. *)
Definition core0 : GSCore := mkGSCore link0 ring0 rx0 net0 world0 false false true.

(** ** The application interface

    The member functions an application calls: polling, reading and writing
    connection data, sending a command and waiting for its reply, and
    setting the module up.  The lines these functions print on the [error]
    stream are left out, like those on the [debug] stream. *)

Section Interface.
Context {hdr : Header}.

(** [void readAndProcessAsync()]: [while (processIncoming(readRaw()) && tries-- > 0)]
    with [tries] starting at 1024, left by [return] once a data frame is
    being received. *)
Fixpoint readAndProcessAsync_loop (fuel tries : nat) : M unit :=
  c <- lift readRaw ;;
  ok <- processIncoming fuel c ;;
  if negb ok then ret tt
  else
    match tries with
    | O => ret tt
    | S tries' =>
        st <- gets (fun s => rx_state (rx s)) ;;
        match st with
        | GS_RX_ESC_Z | GS_RX_BULK => ret tt
        | _ => readAndProcessAsync_loop fuel tries'
        end
    end.

Definition readAndProcessAsync (fuel : nat) : M unit :=
  readAndProcessAsync_loop fuel 1024.

(** [void loop()]; the result is the list of the callbacks invoked. *)
Definition loop (fuel : nat)
                (onNcmDisconnect onDisassociate onAssociate onNcmConnect : bool)
  : M (list Callback) :=
  err <- gets unrecoverableError ;;
  if err then ret []
  else
    readAndProcessAsync fuel ;;;
    lift (dispatch_events onNcmDisconnect onDisassociate onAssociate onNcmConnect).

(** [uint16_t availableData(cid_t cid)] *)
Definition availableData (fuel : nat) (cid : Z) : M Z :=
  f <- getFrameHeader (processIncoming fuel) fuel cid ;;
  if negb (frame_bool f) then ret 0
  else
    empty <- gets ring_empty ;;
    when empty (c <- lift readRaw ;; _ <- processIncoming fuel c ;; ret tt) ;;;
    len <- gets (fun s => u16 ((rx_data_head (ring s) - rx_data_tail (ring s))
                               mod RX_DATA_SIZE)) ;;
    tl <- gets (fun s => fr_length (tail_frame (ring s))) ;;
    if len >? tl then ret tl else ret len.

(** [int peekData(cid_t cid)] *)
Definition peekData (fuel : nat) (cid : Z) : M Z :=
  n <- availableData fuel cid ;;
  if n >? 0 then gets (fun s => byte_at (rx_data (ring s)) (rx_data_tail (ring s)))
  else ret (-1).

(** [cid_t firstCidWithData()] *)
Definition firstCidWithData (fuel : nat) : M Z :=
  f <- getFrameHeader (processIncoming fuel) fuel ANY_CID ;;
  if negb (frame_bool f) then ret INVALID_CID
  else gets (fun s => fr_cid (tail_frame (ring s))).

(** The [while (read < size)] loop of the block read, taking bytes from the
    module directly; [remaining] is [size - read] and the bytes go to
    [buf[off + read]]. *)
Fixpoint readData_direct (remaining : nat) (buf : list Z) (off read : Z)
  : M (Z * list Z) :=
  match remaining with
  | O => ret (read, buf)
  | S k =>
      c <- lift readRaw ;;
      if c =? -1 then ret (read, buf)
      else
        let buf := <[Z.to_nat (off + read) := u8 c]> buf in
        let read := read + 1 in
        modify (upd_ring dec_tail_length) ;;;
        modify (upd_ring dec_head_length) ;;;
        len <- gets (fun s => fr_length (head_frame (ring s))) ;;
        if len =? 0 then set_state GS_RX_IDLE ;;; ret (read, buf)
        else readData_direct k buf off read
  end.

(** [size_t readData(cid_t cid, uint8_t *buf, size_t size)], reading into
    [buf + off]; the result is the count returned and [buf].  The local
    [len] is an [rx_data_index_t].  The function calls itself at most once
    for every byte asked for, unless a call copies nothing; [depth] bounds
    the nesting. *)
Fixpoint readData_block (fuel depth : nat) (cid : Z) (buf : list Z) (off size : Z)
  : M (Z * list Z) :=
  match depth with
  | O => no_result
  | S depth' =>
      f <- getFrameHeader (processIncoming fuel) fuel cid ;;
      if negb (frame_bool f) then ret (0, buf)
      else
        r <- gets ring ;;
        if negb (rx_data_tail r =? rx_data_head r) then
          let len := if rx_data_head r >? rx_data_tail r
                     then (rx_data_head r - rx_data_tail r) mod RX_INDEX_MOD
                     else (RX_DATA_SIZE - rx_data_tail r) mod RX_INDEX_MOD in
          let len := if len >? fr_length (tail_frame r)
                     then fr_length (tail_frame r) else len in
          let len := if len >? size then size else len in
          let buf := store_bytes buf (Z.to_nat off)
                       (take (Z.to_nat len) (drop (Z.to_nat (rx_data_tail r)) (rx_data r))) in
          modify (upd_ring (set_rx_data_tail ((rx_data_tail r + len) mod RX_DATA_SIZE))) ;;;
          modify (upd_ring (fun r => set_tail_frame
                              (set_fr_length (u16 (fr_length (tail_frame r) - len))
                                             (tail_frame r)) r)) ;;;
          if negb (len =? size) then
            more <- readData_block fuel depth' cid buf (off + len) (size - len) ;;
            ret ((len + fst more) mod RX_INDEX_MOD, snd more)
          else ret (len, buf)
        else readData_direct (Z.to_nat size) buf off 0
  end.

(** [bool readDataResponse()]: the [while (true)] loop, cut off after [n]
    turns. *)
Fixpoint readDataResponse_loop (fuel n : nat) (start : Z) : M bool :=
  match n with
  | O => no_result
  | S n' =>
      c <- lift readRaw ;;
      err <- gets unrecoverableError ;;
      if err then ret false
      else if c =? -1 then
        now <- lift millis ;;
        if u32 (now - start) >? RESPONSE_TIMEOUT then
          modify (set_unrecoverableError true) ;;; ret false
        else readDataResponse_loop fuel n' start
      else
        st <- gets (fun s => rx_state (rx s)) ;;
        let esc := match st with GS_RX_ESC => true | _ => false end in
        if esc && (c =? ch "O") then set_state GS_RX_IDLE ;;; ret true
        else if esc && (c =? ch "F") then set_state GS_RX_IDLE ;;; ret false
        else
          _ <- processIncoming fuel c ;;
          readDataResponse_loop fuel n' start
  end.

Definition readDataResponse (fuel n : nat) : M bool :=
  start <- lift millis ;;
  readDataResponse_loop fuel n start.

End Interface.

(** What [printf] writes for a non-negative number: its digits in [base],
    the most significant first, with lower-case letters above 9. *)
Definition digit_char (d : Z) : Z :=
  if d <? 10 then ch "0" + d else ch "a" + (d - 10).

Fixpoint digits_of (n : nat) (base v : Z) (acc : list Z) : list Z :=
  match n with
  | O => acc
  | S n' =>
      let acc := digit_char (v mod base) :: acc in
      if v / base =? 0 then acc else digits_of n' base (v / base) acc
  end.

(** [%x] and [%d] of a value below 2 to the 64. *)
Definition fmt_x (v : Z) : list Z := digits_of 16 16 v [].
Definition fmt_d (v : Z) : list Z := digits_of 20 10 v [].

(** The zero padding of [%04d]. *)
Definition pad0 (width : nat) (digits : list Z) : list Z :=
  repeat (ch "0") (width - List.length digits) ++ digits.

(** The text of ["\x1bZ%x%04d"] for [cid] and [len]. *)
Definition bulk_header (cid len : Z) : list Z :=
  [27; ch "Z"] ++ fmt_x cid ++ pad0 4 (fmt_d len).

(** The text of ["\x1bY%x%s:%u:%04d"] for [cid], the address printed by
    ["%d.%d.%d.%d"] into the 16 bytes of [ipbuf], [port] and [len]. *)
Definition udp_header (cid : Z) (ip : IPAddress) (port len : Z) : list Z :=
  let ipbuf := take 15 (fmt_d (byte_at ip 0) ++ [ch "."] ++ fmt_d (byte_at ip 1)
                        ++ [ch "."] ++ fmt_d (byte_at ip 2) ++ [ch "."]
                        ++ fmt_d (byte_at ip 3)) in
  [27; ch "Y"] ++ fmt_x cid ++ ipbuf ++ [ch ":"] ++ fmt_d port ++ [ch ":"]
    ++ pad0 4 (fmt_d len).

Section Sending.
Context {hdr : Header}.

(** [bool writeData(cid_t cid, const uint8_t *buf, uint16_t len)].
    [header0] is what the 8 bytes of the local [header] hold on entry; a
    call for more than 1400 bytes calls itself for the first 1400 and for
    the rest, and [depth] bounds that nesting. *)
Fixpoint writeData (fuel depth : nat) (cid : Z) (buf : list Z) (len : Z)
                   (header0 : list Z) : M bool :=
  if cid >? MAX_CID then ret false
  else if len >? 1400 then
    match depth with
    | O => no_result
    | S depth' =>
        ok <- writeData fuel depth' cid buf 1400 header0 ;;
        if ok then writeData fuel depth' cid (advance buf 1400) (u16 (len - 1400)) header0
        else ret false
    end
  else
    let header := fst (vsnprintf header0 8 (bulk_header cid len)) in
    writeRaw fuel header 3 ;;;
    ok <- readDataResponse fuel fuel ;;
    if negb ok then ret false
    else
      writeRaw fuel (advance header 3) (8 - 1 - 3) ;;;
      writeRaw fuel buf len ;;;
      ret true.

(** [bool writeData(cid_t cid, IPAddress ip, uint16_t port, const uint8_t *buf, uint16_t len)];
    [header0] is what the 28 bytes of the local [header] hold on entry. *)
Definition writeData_udp (fuel : nat) (cid : Z) (ip : IPAddress) (port : Z)
                         (buf : list Z) (len : Z) (header0 : list Z) : M bool :=
  if cid >? MAX_CID then ret false
  else if len >? 1400 then ret false
  else
    let '(header, headerlen) := vsnprintf header0 28 (udp_header cid ip port len) in
    writeRaw fuel header 3 ;;;
    ok <- readDataResponse fuel fuel ;;
    if negb ok then ret false
    else
      writeRaw fuel (advance header 3) (u16 (headerlen - 3)) ;;;
      writeRaw fuel buf len ;;;
      ret true.

(** [GSResponse readResponse(uint8_t *buf, uint16_t *len, cid_t *connect_cid)] *)
Definition readResponse_data (fuel : nat) (buf : list Z) (len : Z)
                             (connect_cid : option Z) : M Reply :=
  readResponseInternal fuel buf len connect_cid true false.

(** [GSResponse readResponse(cid_t *connect_cid)]; [buf0] is what the
    [MAX_RESPONSE_SIZE] bytes of the local [buf] hold on entry. *)
Definition readResponse (fuel : nat) (buf0 : list Z) (connect_cid : option Z) : M Reply :=
  readResponseInternal fuel buf0 MAX_RESPONSE_SIZE connect_cid false false.

(** [bool writeCommandCheckOk(const char *fmt, ...)]: [readResponse()] is
    called without a [connect_cid]. *)
Definition writeCommandCheckOk (fuel : nat) (formatted cmd0 resp0 : list Z) : M bool :=
  writeCommand fuel formatted cmd0 ;;;
  r <- readResponse fuel resp0 None ;;
  ret (match reply_code r with GS_SUCCESS => true | _ => false end).

(** ** Setting up *)

Definition set_initializing (v : bool) (s : GSCore) : GSCore :=
  mkGSCore (link s) (ring s) (rx s) (net s) (world s) v (unrecoverableError s)
           (has_error s).
Definition set_serial (v : bool) (l : Link) : Link :=
  mkLink v (ss_pin l) (data_ready_pin l) (spi_prev_was_esc l) (spi_xoff l)
         (spi_poll_time l) (errorcount l).
Definition set_ss_pin (v : Z) (l : Link) : Link :=
  mkLink (serial l) v (data_ready_pin l) (spi_prev_was_esc l) (spi_xoff l)
         (spi_poll_time l) (errorcount l).
Definition set_data_ready_pin (v : Z) (l : Link) : Link :=
  mkLink (serial l) (ss_pin l) v (spi_prev_was_esc l) (spi_xoff l)
         (spi_poll_time l) (errorcount l).

(** The [do ... while (true)] loop of [_begin] that waits for the module
    to show up, cut off after [n] turns: [true] when the loop was left by
    [break], [false] when the function returned from inside it. *)
Fixpoint begin_wait (n : nat) (start : Z) : M bool :=
  match n with
  | O => no_result
  | S n' =>
      pin <- gets (fun s => data_ready_pin (link s)) ;;
      leave <- (if negb (pin =? INVALID_PIN) then
                 high <- lift digitalRead_data_ready ;;
                 ret (if high then Some true else None)
               else
                 c <- lift readRaw ;;
                 if negb (c =? -1) && negb (c =? 128) then ret (Some true)
                 else
                   err <- gets unrecoverableError ;;
                   ret (if err then Some false else None)) ;;
      match leave with
      | Some b => ret b
      | None =>
          now <- lift millis ;;
          if u32 (now - start) >? RESPONSE_TIMEOUT then ret false
          else begin_wait n' start
      end
  end.

(** [while (readRaw() != -1);] *)
Fixpoint begin_drain (n : nat) : M unit :=
  match n with
  | O => no_result
  | S n' =>
      c <- lift readRaw ;;
      if c =? -1 then ret tt else begin_drain n'
  end.

(** [bool _begin()].  [cmd0] and [resp0] are what the local buffers of
    [writeCommand] and [readResponse] hold on entry. *)
Definition _begin (fuel : nat) (cmd0 resp0 : list Z) : M bool :=
  set_state GS_RX_IDLE ;;;
  modify (upd_ring (set_rx_data_tail 0)) ;;;
  modify (upd_ring (set_rx_data_head 0)) ;;;
  modify (upd_ring (fun r => set_tail_frame (set_fr_length 0 (tail_frame r)) r)) ;;;
  modify (upd_link (set_spi_prev_was_esc false)) ;;;
  modify (upd_link (set_spi_xoff false)) ;;;
  modify (upd_net (set_ncm_auto_cid INVALID_CID)) ;;;
  modify (upd_net (set_events 0)) ;;;
  t <- lift micros ;;
  modify (upd_link (set_spi_poll_time (u16 (t - MINIMUM_POLL_INTERVAL)))) ;;;
  modify (upd_net (set_associated false)) ;;;
  start <- lift millis ;;
  ready <- begin_wait fuel start ;;
  if negb ready then ret false
  else
    begin_drain fuel ;;;
    ok <- writeCommandCheckOk fuel (bytes_of_string "ATV0") cmd0 resp0 ;;
    if negb ok then ret false
    else
      ok <- writeCommandCheckOk fuel (bytes_of_string "ATE0") cmd0 resp0 ;;
      if negb ok then ret false
      else
        ok <- writeCommandCheckOk fuel (bytes_of_string "AT+BDATA=1") cmd0 resp0 ;;
        if negb ok then ret false
        else
          ok <- writeCommandCheckOk fuel (bytes_of_string "AT+ASYNCMSGFMT=1") cmd0 resp0 ;;
          if negb ok then ret false
          else
            modify (upd_net (fun n => set_connections
                                        (map (fun _ => connection_zero) (connections n)) n)) ;;;
            ret true.

(** [bool begin(Stream &serial)] *)
Definition begin_serial (fuel : nat) (cmd0 resp0 : list Z) : M bool :=
  l <- gets link ;;
  if serial l || negb (ss_pin l =? INVALID_PIN) then ret false
  else
    modify (set_initializing true) ;;;
    modify (upd_link (set_serial true)) ;;;
    res <- _begin fuel cmd0 resp0 ;;
    modify (set_initializing false) ;;;
    ret res.

(** [bool begin(uint8_t ss, uint8_t data_ready)]; the pin is configured
    outside the object. *)
Definition begin_spi (fuel : nat) (ss data_ready : Z) (cmd0 resp0 : list Z) : M bool :=
  l <- gets link ;;
  if serial l || negb (ss_pin l =? INVALID_PIN) || (ss =? INVALID_PIN) then ret false
  else
    modify (set_initializing true) ;;;
    modify (upd_link (set_ss_pin ss)) ;;;
    modify (upd_link (set_data_ready_pin data_ready)) ;;;
    res <- _begin fuel cmd0 resp0 ;;
    modify (set_initializing false) ;;;
    ret res.

End Sending.

(** * Vocabulary of the statements *)

(** The payload of a completed [<ESC>A] message is not acceptable: the
    subtype of the header is out of range, the payload is empty, its first
    byte is not the hexadecimal digit of the header's subtype, or more bytes
    follow that digit without a space in front. *)
Definition async_malformed (s : GSCore) : Prop :=
  GS_ASYNC_MAX < rx_async_subtype (rx s)
  \/ rx_async_len (rx s) < 1
  \/ parseNumber8 (rx_async (rx s)) 1 16 <> Some (rx_async_subtype (rx s))
  \/ (1 < rx_async_len (rx s) <= 256 /\ byte_at (rx_async (rx s)) 1 <> ch " ").

(** The object when the payload of an [<ESC>A] message of the subtype
    [subtype] has been read into [rx_async]. *)
Definition async_core (subtype : Z) (payload : list Z) : GSCore :=
  mkGSCore link0 ring0
           (mkRx GS_RX_IDLE (payload ++ repeat 0 (64 - List.length payload))
                 (Z.of_nat (List.length payload)) 0 subtype)
           net0 world0 false false true.

Definition single_bit (m : Z) : Prop := exists k, 0 <= k /\ m = 2 ^ k.

Definition table_ok (s : GSCore) : Prop :=
  List.length (connections (net s)) = Z.to_nat (MAX_CID + 1).

Definition valid_cid (cid : Z) : Prop := 0 <= cid <= MAX_CID.

(** One turn of the loop of [processDisassociation]. *)
Definition disassociate_cid (s : GSCore) (cid : Z) : GSCore :=
  if connected (connection cid s)
  then processDisconnect cid (upd_connection cid (set_error true) s)
  else s.

(** The state between the flag update and the cascade. *)
Definition disassociation_flags (s : GSCore) : GSCore :=
  upd_net (set_associated false)
    (if has_flag (events (net s)) EVENT_ASSOCIATED
     then upd_net (clear_flag EVENT_ASSOCIATED) s
     else upd_net (set_flag EVENT_DISASSOCIATED) s).

Definition fired_if (b : bool) (cb : Callback) : list Callback := if b then [cb] else [].

Definition is_OnDisassociate (cb : Callback) : bool :=
  match cb with OnDisassociate => true | _ => false end.
Definition is_OnAssociate (cb : Callback) : bool :=
  match cb with OnAssociate => true | _ => false end.
Definition is_OnNcmConnect (cb : Callback) : bool :=
  match cb with OnNcmConnect _ => true | _ => false end.
Definition is_OnNcmDisconnect (cb : Callback) : bool :=
  match cb with OnNcmDisconnect => true | _ => false end.

(** A table with CIDs 1 and 3 connected, on an associated module. *)
Definition conn_up : Connection := mkConnection true false false 0 0 0.
Definition net_1_3 (ev : Z) : Net :=
  mkNet INVALID_CID ev true
        (<[1%nat := conn_up]> (<[3%nat := conn_up]> (repeat connection_zero 16))).
Definition core_1_3 (ev : Z) : GSCore :=
  mkGSCore link0 ring0 rx0 (net_1_3 ev) world0 false false true.

(** The wire bytes [cs] go through [processSpiSpecial] one after the other. *)
Definition spi_feed (cs : list Z) (s : GSCore) : GSCore :=
  fold_left (fun s c => snd (processSpiSpecial c s)) cs s.


(** An SPI module with a data-ready pin that is high, about to clock in
    [wire]. *)
Definition spi_core (wire : list Z) : GSCore :=
  mkGSCore (mkLink false 10 11 false false 0 0) ring0 rx0 net0
           (mkWorld wire [] [true] [] [] []) false false true.

Definition is_digit (c : Z) : bool := (ch "0" <=? c) && (c <=? ch "9").

Definition count_dots (p : list Z) : nat :=
  List.length (List.filter (fun c => c =? ch ".") p).

(** The decimal digits of an octet. *)
Definition dec_digits (n : Z) : list Z :=
  if n <? 10 then [ch "0" + n]
  else if n <? 100 then [ch "0" + n / 10; ch "0" + n mod 10]
  else [ch "0" + n / 100; ch "0" + (n / 10) mod 10; ch "0" + n mod 10].

Definition dotted_quad (a b c d : Z) : list Z :=
  dec_digits a ++ [ch "."] ++ dec_digits b ++ [ch "."] ++ dec_digits c
    ++ [ch "."] ++ dec_digits d.

(** The claim's reading of a well-formed dotted quad: four groups of
    decimal digits, none empty, each of value at most 255, with one "."
    between neighbours. *)
Fixpoint dot_groups (str cur : list Z) : list (list Z) :=
  match str with
  | [] => [cur]
  | c :: str' => if c =? ch "." then cur :: dot_groups str' []
                 else dot_groups str' (cur ++ [c])
  end.

Definition octet_value (g : list Z) : Z :=
  fold_left (fun v c => v * 10 + (c - ch "0")) g 0.

Definition well_formed_octet (g : list Z) : bool :=
  negb (Nat.eqb (List.length g) 0) && forallb is_digit g && (octet_value g <=? 255).

Definition is_dotted_quad (str : list Z) : bool :=
  Nat.eqb (List.length (dot_groups str [])) 4
  && forallb well_formed_octet (dot_groups str []).

(** How the digits [ds] change the value [o] of the octet being filled. *)
Fixpoint octet_run (o : Z) (ds : list Z) : option Z :=
  match ds with
  | [] => Some o
  | c :: ds' =>
      if (o >=? 100) || ((o =? 25) && (c >? ch "5")) then None
      else octet_run (u8 (u8 (o * 10) + (c - ch "0"))) ds'
  end.

Definition ring_full {hdr : Header} (s : GSCore) : Prop :=
  (rx_data_head (ring s) + 1) mod RX_DATA_SIZE = rx_data_tail (ring s).

(** The number of buffered bytes, frame records included. *)
Definition occupancy {hdr : Header} (s : GSCore) : Z :=
  (rx_data_head (ring s) - rx_data_tail (ring s)) mod RX_DATA_SIZE.

(** What the types of the ring buffer's fields give. *)
Definition ring_ok {hdr : Header} (s : GSCore) : Prop :=
  Z.of_nat (List.length (rx_data (ring s))) = RX_DATA_SIZE /\
  0 <= rx_data_head (ring s) < RX_DATA_SIZE /\
  0 <= rx_data_tail (ring s) < RX_DATA_SIZE /\
  Forall (fun b => 0 <= b < 256) (rx_data (ring s)).

(** The object after the bytes [wire] have been handed, one by one, to
    [processIncoming]. *)
Definition receive (wire : list Z) (s : GSCore) : option GSCore :=
  fold_left (fun os c =>
               match os with
               | Some s => option_map snd (processIncoming (hdr := avr_header) 4 c s)
               | None => None
               end) wire (Some s).

(** The application calls [readData(cid)] [n] times. *)
Fixpoint consume (n : nat) (cid : Z) (s : GSCore) : option GSCore :=
  match n with
  | O => Some s
  | S n' =>
      match readData (hdr := avr_header) (processIncoming (hdr := avr_header) 4) 4 cid s with
      | Some (_, s') => consume n' cid s'
      | None => None
      end
  end.

(** A two-byte frame for CID 1 arrives, then the header of a 300-byte frame
    for CID 2 and 243 bytes of it, which fill the ring; the application
    reads the two bytes of the first frame; two more bytes arrive. *)
Definition exhausted_tail_full : option GSCore :=
  match receive ([27] ++ bytes_of_string "Z10002ab" ++ [27] ++ bytes_of_string "Z20300"
                 ++ repeat (ch "p") 243) core0 with
  | Some s1 =>
      match consume 2 1 s1 with
      | Some s2 => receive (repeat (ch "p") 2) s2
      | None => None
      end
  | None => None
  end.

(** A 300-byte frame for CID 1 of which 255 bytes have arrived: the ring
    is full. *)
Definition full_ring : GSCore :=
  default core0 (receive ([27] ++ bytes_of_string "Z10300" ++ repeat (ch "p") 255) core0).

(** A 252-byte frame for CID 1 arrives and is read by the application; a
    254-byte frame for CID 2 arrives.  Nothing was dropped: the ring holds
    the 254 bytes, from index 252 round to index 249. *)
Definition wrapped_ring : option GSCore :=
  match receive ([27] ++ bytes_of_string "Z10252" ++ repeat (ch "a") 252) core0 with
  | Some s1 =>
      match consume 252 1 s1 with
      | Some s2 => receive ([27] ++ bytes_of_string "Z20254" ++ repeat (ch "b") 254) s2
      | None => None
      end
  | None => None
  end.

(** The header of a five-byte frame for CID 3, as [processIncoming] has
    parsed it into [head_frame]. *)
Definition frame_3 : RXFrame := mkRXFrame 3 5 false ip_zero 0.

(** The data kept for the caller so far: what lies before the line being
    read. *)
Definition kept (l : Resp) : list Z := take (Z.to_nat (r_line_start l)) (r_buf l).

(** What the loop maintains of its locals, [len] being [*len]. *)
Definition resp_wf (len : Z) (l : Resp) : Prop :=
  0 <= r_line_start l <= r_read l /\ r_read l <= len /\
  len <= Z.of_nat (List.length (r_buf l)) /\ len < 65536.

(** A turn of the loop, seen from the locals: a character is stored, a line
    is closed ([resp_line]), a skipped line is removed, or nothing changes
    (no byte to read, an empty line, a byte of an escape sequence). *)
Inductive resp_turn {hdr : Header} (len : Z) : Resp -> Resp -> Prop :=
  | turn_store : forall c l, resp_turn len l (resp_store len c l)
  | turn_line : forall keep_data callback res l l' called,
      resp_line len keep_data callback res l = (Continue l', called) ->
      resp_turn len l l'
  | turn_skip : forall l,
      r_skip_line l = true ->
      resp_turn len l (mkResp (r_buf l) (r_line_start l) (r_line_start l)
                              (r_dropped_data l) false)
  | turn_idle : forall l, resp_turn len l l.

(** Any number of turns. *)
Inductive resp_turns {hdr : Header} (len : Z) : Resp -> Resp -> Prop :=
  | turns_none : forall l, resp_turns len l l
  | turns_more : forall l l' l'',
      resp_turn len l l' -> resp_turns len l' l'' -> resp_turns len l l''.

(** A reply buffer of seven bytes that holds the data line "xyz", closed,
    and the two characters "AB" of the line being read. *)
Definition resp_full : Resp :=
  mkResp (bytes_of_string "xyz" ++ [13; 10] ++ bytes_of_string "AB") 7 5 false false.

(** The characters [parseNumber] takes for digits. *)
Definition is_alnum (c : Z) : bool :=
  ((ch "0" <=? c) && (c <=? ch "9")) || ((ch "a" <=? c) && (c <=? ch "z"))
  || ((ch "A" <=? c) && (c <=? ch "Z")).

(** The value of such a character: 0 to 9 for a digit, 10 to 35 for a
    letter of either case. *)
Definition digit_value (c : Z) : Z :=
  if (ch "0" <=? c) && (c <=? ch "9") then c - ch "0"
  else if (ch "a" <=? c) && (c <=? ch "z") then 10 + (c - ch "a")
  else 10 + (c - ch "A").

(** The number written by the digits [ds] in [base], most significant
    digit first. *)
Definition number_of (base : Z) (ds : list Z) : Z :=
  fold_left (fun acc d => base * acc + d) ds 0.


(** What links [ncm_auto_cid] to the table and to the pending events: it
    is INVALID_CID or names a connected connection, and it is not
    INVALID_CID while an NCM-connected event waits for dispatch. *)
Definition ncm_inv (s : GSCore) : Prop :=
  0 <= ncm_auto_cid (net s) /\
  (ncm_auto_cid (net s) = INVALID_CID \/
   connected (connection (ncm_auto_cid (net s)) s) = true) /\
  (has_flag (events (net s)) EVENT_NCM_CONNECTED = true ->
   ncm_auto_cid (net s) <> INVALID_CID).

(** What a receiver that runs [processSpiSpecial] on the wire bytes [cs]
    takes for data. *)
Fixpoint spi_decode (cs : list Z) (s : GSCore) : list Z :=
  match cs with
  | [] => []
  | c :: cs' =>
      (if fst (processSpiSpecial c s) <? 0 then [] else [fst (processSpiSpecial c s)])
      ++ spi_decode cs' (snd (processSpiSpecial c s))
  end.

(** The module sends nothing and no escape is pending: every byte clocked
    in is an idle byte. *)
Definition spi_silent (s : GSCore) : Prop :=
  serial (link s) = false /\ unrecoverableError s = false /\
  spi_prev_was_esc (link s) = false /\ wire_in (world s) = [].

(** What does not change while bytes are exchanged with a silent module. *)
Definition spi_same (s s' : GSCore) : Prop :=
  ring s' = ring s /\ rx s' = rx s /\ net s' = net s /\
  spi_xoff (link s') = spi_xoff (link s) /\ ss_pin (link s') = ss_pin (link s) /\
  data_ready_pin (link s') = data_ready_pin (link s).

(** Every run of [m] relates the object before to the object after. *)
Definition steps (R : GSCore -> GSCore -> Prop) {A} (m : M A) : Prop :=
  forall s a s', m s = Some (a, s') -> R s s'.

(** A write to the link that leaves the choice of the transport alone. *)
Definition keeps_transport (f : Link -> Link) : Prop :=
  forall l, serial (f l) = serial l /\ ss_pin (f l) = ss_pin l /\
            data_ready_pin (f l) = data_ready_pin l.

(** The fault, once latched, is still latched afterwards. *)
Definition fault_kept (s s' : GSCore) : Prop :=
  unrecoverableError s = true -> unrecoverableError s' = true.

(** The choice of the transport is the same afterwards. *)
Definition transport_kept (s s' : GSCore) : Prop :=
  serial (link s') = serial (link s) /\ ss_pin (link s') = ss_pin (link s) /\
  data_ready_pin (link s') = data_ready_pin (link s).

(** The operations of the engine other than [begin] and [end]. *)
Definition engine_steps {hdr : Header} (R : GSCore -> GSCore -> Prop) : Prop :=
  (forall s, R s (snd (readRaw s))) /\
  (forall fuel c, steps R (processIncoming fuel c)) /\
  (forall fuel cid, steps R (readData (processIncoming fuel) fuel cid)) /\
  (forall fuel depth cid buf off size, steps R (readData_block fuel depth cid buf off size)) /\
  (forall fuel cid, steps R (availableData fuel cid)) /\
  (forall fuel cid, steps R (peekData fuel cid)) /\
  (forall fuel, steps R (firstCidWithData fuel)) /\
  (forall fuel buf len, steps R (writeRaw fuel buf len)) /\
  (forall fuel depth cid buf len header0, steps R (writeData fuel depth cid buf len header0)) /\
  (forall fuel cid ip port buf len header0,
      steps R (writeData_udp fuel cid ip port buf len header0)) /\
  (forall fuel formatted buf0, steps R (writeCommand fuel formatted buf0)) /\
  (forall fuel formatted cmd0 resp0, steps R (writeCommandCheckOk fuel formatted cmd0 resp0)) /\
  (forall fuel buf len cc keep_data callback,
      steps R (readResponseInternal fuel buf len cc keep_data callback)) /\
  (forall fuel n, steps R (readDataResponse fuel n)) /\
  (forall fuel r1 r2 r3 r4, steps R (loop fuel r1 r2 r3 r4)) /\
  (forall fuel cmd0 resp0, steps R (_begin fuel cmd0 resp0)).

(** The ring after [getData] has taken its oldest byte. *)
Definition ring_pop {hdr : Header} (s : GSCore) : GSCore :=
  upd_ring dec_tail_length
    (upd_ring (fun r => set_rx_data_tail ((rx_data_tail r + 1) mod RX_DATA_SIZE) r) s).

(** The [n] bytes of [data] from the index [tail] on, round the end of the
    array. *)
Fixpoint ring_bytes {hdr : Header} (n : nat) (data : list Z) (tail : Z) : list Z :=
  match n with
  | O => []
  | S n' => byte_at data tail :: ring_bytes n' data ((tail + 1) mod RX_DATA_SIZE)
  end.

(** The bytes in the ring, oldest first. *)
Definition buffered {hdr : Header} (s : GSCore) : list Z :=
  ring_bytes (Z.to_nat (occupancy s)) (rx_data (ring s)) (rx_data_tail (ring s)).

(** [n] calls of [readData(cid)] and the values they return. *)
Fixpoint read_all {hdr : Header} (fuel n : nat) (cid : Z) : M (list Z) :=
  match n with
  | O => ret []
  | S n' =>
      c <- readData (processIncoming fuel) fuel cid ;;
      cs <- read_all fuel n' cid ;;
      ret (c :: cs)
  end.

(** The bytes [wire] are handed one by one to [processIncoming]. *)
Fixpoint feed {hdr : Header} (fuel : nat) (wire : list Z) : M unit :=
  match wire with
  | [] => ret tt
  | c :: wire' => _ <- processIncoming fuel c ;; feed fuel wire'
  end.

(** With the ring empty before, the head and the tail are where they
    were. *)
Definition empty_stays (s s' : GSCore) : Prop :=
  rx_data_head (ring s) = rx_data_tail (ring s) ->
  rx_data_head (ring s') = rx_data_head (ring s) /\
  rx_data_tail (ring s') = rx_data_tail (ring s).

(** The ring buffer and its two frames are untouched. *)
Definition ring_kept (s s' : GSCore) : Prop := ring s' = ring s.

(** * Theorems *)

(** ** Synchronous replies: [processResponseLine] *)

(** C1: whatever follows the line in the buffer and whatever cell
    [connect_cid] points to, the line "0" is GS_SUCCESS, "0 foo" is
    GS_UNKNOWN_RESPONSE, "OK" is GS_SUCCESS, "217" is GS_UNKNOWN_RESPONSE,
    and "3" with a null [connect_cid] is GS_UNKNOWN_RESPONSE. *)
Theorem processResponseLine_classification :
  forall (rest : list Z) (cc : option Z),
    processResponseLine (bytes_of_string "0" ++ rest) 1 cc = (GS_SUCCESS, cc) /\
    processResponseLine (bytes_of_string "0 foo" ++ rest) 5 cc = (GS_UNKNOWN_RESPONSE, cc) /\
    processResponseLine (bytes_of_string "OK" ++ rest) 2 cc = (GS_SUCCESS, cc) /\
    processResponseLine (bytes_of_string "217" ++ rest) 3 cc = (GS_UNKNOWN_RESPONSE, cc) /\
    processResponseLine (bytes_of_string "3" ++ rest) 1 None = (GS_UNKNOWN_RESPONSE, None).
Proof.
  intros rest cc. repeat split; reflexivity.
Qed.

(** The code of "3" does not depend on [connect_cid]: it is the socket
    failure reply, which needs a CID argument. *)
Lemma processResponseLine_3 :
  forall rest cc, processResponseLine (bytes_of_string "3" ++ rest) 1 cc = (GS_UNKNOWN_RESPONSE, cc).
Proof. reflexivity. Qed.

(** ** Asynchronous messages: [processAsync] *)

Lemma byte_at_advance : forall buf n i,
  0 <= n -> 0 <= i -> byte_at (advance buf n) i = byte_at buf (n + i).
Proof.
  intros buf n i Hn Hi. unfold byte_at, advance.
  destruct (Z.ltb_spec i 0); [lia|]. destruct (Z.ltb_spec (n + i) 0); [lia|].
  rewrite lookup_drop. f_equal. f_equal. lia.
Qed.

Lemma processAsync_accepts_only_own_subtype : forall s,
  fst (processAsync s) = true ->
  parseNumber8 (rx_async (rx s)) 1 16 = Some (rx_async_subtype (rx s)).
Proof.
  intros s. unfold processAsync.
  destruct (rx_async_subtype (rx s) >? GS_ASYNC_MAX); [discriminate|].
  destruct (rx_async_len (rx s) <? 1); [discriminate|].
  destruct (parseNumber8 (rx_async (rx s)) 1 16) as [subtype|]; [|discriminate].
  destruct (Z.eqb_spec subtype (rx_async_subtype (rx s))) as [->|]; simpl; [reflexivity|discriminate].
Qed.

Lemma processAsync_rejects_malformed : forall s,
  async_malformed s -> processAsync s = (false, s).
Proof.
  intros s Hbad. unfold processAsync.
  destruct (Z.gtb_spec (rx_async_subtype (rx s)) GS_ASYNC_MAX) as [|Hsub]; [reflexivity|].
  destruct (Z.ltb_spec (rx_async_len (rx s)) 1) as [|Hlen]; [reflexivity|].
  destruct (parseNumber8 (rx_async (rx s)) 1 16) as [subtype|] eqn:Hparse; [|reflexivity].
  destruct (Z.eqb_spec subtype (rx_async_subtype (rx s))) as [Heq|]; [|reflexivity].
  simpl negb. cbv iota.
  destruct Hbad as [H | [H | [H | [Hl Hsp]]]]; try lia.
  - subst subtype. congruence.
  - assert (Harg : (u8 (rx_async_len (rx s) - 1) =? 0) = false).
    { apply Z.eqb_neq. unfold u8. rewrite Z.mod_small; lia. }
    rewrite Harg. rewrite byte_at_advance; [|lia|lia]. change (1 + 0) with 1.
    destruct (Z.eqb_spec (byte_at (rx_async (rx s)) 1) (ch " ")); [contradiction|].
    reflexivity.
Qed.

(** C10: [processAsync] accepts a message only if the first payload byte,
    read as one hexadecimal digit, is the subtype of the header; a message
    with a mismatching digit, a subtype out of range, an empty payload or
    arguments that do not start with a space is rejected, and the object,
    with its connection table, events and association state, is left as it
    was. *)
Theorem processAsync_validates_header :
  forall s,
    (fst (processAsync s) = true ->
     parseNumber8 (rx_async (rx s)) 1 16 = Some (rx_async_subtype (rx s))) /\
    (async_malformed s ->
     fst (processAsync s) = false /\ snd (processAsync s) = s /\
     net (snd (processAsync s)) = net s).
Proof.
  intros s. split.
  - apply processAsync_accepts_only_own_subtype.
  - intros Hbad. rewrite (processAsync_rejects_malformed s Hbad). auto.
Qed.

Lemma processAsync_validates_header_witness :
  parseNumber8 (rx_async (rx (async_core 12 (bytes_of_string "c")))) 1 16 = Some 12 /\
  processAsync (async_core 3 (bytes_of_string "c"))
    = (false, async_core 3 (bytes_of_string "c")) /\
  processAsync (async_core 1 (bytes_of_string "1-2"))
    = (false, async_core 1 (bytes_of_string "1-2")).
Proof.
  split; [|split].
  - apply (proj1 (processAsync_validates_header (async_core 12 (bytes_of_string "c")))).
    reflexivity.
  - destruct (proj2 (processAsync_validates_header (async_core 3 (bytes_of_string "c"))))
      as (H1 & H2 & _).
    + right. right. left. vm_compute. discriminate.
    + rewrite (surjective_pairing (processAsync _)), H1, H2. reflexivity.
  - destruct (proj2 (processAsync_validates_header (async_core 1 (bytes_of_string "1-2"))))
      as (H1 & H2 & _).
    + right. right. right. vm_compute. split; [split; [reflexivity|discriminate]|discriminate].
    + rewrite (surjective_pairing (processAsync _)), H1, H2. reflexivity.
Defined.

(** ** Event flags *)

Lemma land_single_bit : forall ev k,
  0 <= k -> Z.land ev (2 ^ k) = if Z.testbit ev k then 2 ^ k else 0.
Proof.
  intros ev k Hk. apply Z.bits_inj'. intros n Hn.
  rewrite Z.land_spec, Z.pow2_bits_eqb; [|lia].
  destruct (Z.eqb_spec k n) as [->|Hne].
  - destruct (Z.testbit ev n) eqn:Hb; simpl.
    + rewrite Z.pow2_bits_eqb, Z.eqb_refl; [reflexivity|lia].
    + rewrite Z.bits_0. reflexivity.
  - rewrite andb_false_r. destruct (Z.testbit ev k).
    + rewrite Z.pow2_bits_eqb; [|lia]. symmetry. apply Z.eqb_neq. exact Hne.
    + rewrite Z.bits_0. reflexivity.
Qed.

Lemma has_flag_testbit : forall ev k, 0 <= k -> has_flag ev (2 ^ k) = Z.testbit ev k.
Proof.
  intros ev k Hk. unfold has_flag. rewrite land_single_bit; [|lia].
  destruct (Z.testbit ev k); simpl.
  - assert (0 < 2 ^ k) by (apply Z.pow_pos_nonneg; lia).
    destruct (Z.eqb_spec (2 ^ k) 0); [lia|reflexivity].
  - reflexivity.
Qed.

Lemma has_flag_set_same : forall ev m, single_bit m -> has_flag (Z.lor ev m) m = true.
Proof.
  intros ev m (k & Hk & ->). rewrite has_flag_testbit; [|lia].
  rewrite Z.lor_spec, Z.pow2_bits_eqb, Z.eqb_refl; [|lia]. apply orb_true_r.
Qed.

Lemma has_flag_clear_same : forall ev m,
  single_bit m -> has_flag (Z.land ev (Z.lnot m)) m = false.
Proof.
  intros ev m (k & Hk & ->). rewrite has_flag_testbit; [|lia].
  rewrite Z.land_spec, Z.lnot_spec, Z.pow2_bits_eqb, Z.eqb_refl; [|lia|lia].
  apply andb_false_r.
Qed.

Lemma single_bit_inj : forall k j, 0 <= k -> 0 <= j -> 2 ^ k = 2 ^ j -> k = j.
Proof. intros k j Hk Hj H. apply (Z.pow_inj_r 2); lia. Qed.

Lemma has_flag_set_other : forall ev m m',
  single_bit m -> single_bit m' -> m <> m' ->
  has_flag (Z.lor ev m) m' = has_flag ev m'.
Proof.
  intros ev m m' (k & Hk & ->) (j & Hj & ->) Hne.
  rewrite !has_flag_testbit; [|lia|lia].
  rewrite Z.lor_spec, Z.pow2_bits_eqb; [|lia].
  destruct (Z.eqb_spec k j) as [->|]; [contradiction|]. apply orb_false_r.
Qed.

Lemma has_flag_clear_other : forall ev m m',
  single_bit m -> single_bit m' -> m <> m' ->
  has_flag (Z.land ev (Z.lnot m)) m' = has_flag ev m'.
Proof.
  intros ev m m' (k & Hk & ->) (j & Hj & ->) Hne.
  rewrite !has_flag_testbit; [|lia|lia].
  rewrite Z.land_spec, Z.lnot_spec, Z.pow2_bits_eqb; [|lia|lia].
  destruct (Z.eqb_spec k j) as [->|]; [contradiction|]. apply andb_true_r.
Qed.

Lemma single_bit_ASSOCIATED : single_bit EVENT_ASSOCIATED.
Proof. exists 0. split; [lia|reflexivity]. Qed.
Lemma single_bit_DISASSOCIATED : single_bit EVENT_DISASSOCIATED.
Proof. exists 1. split; [lia|reflexivity]. Qed.
Lemma single_bit_NCM_CONNECTED : single_bit EVENT_NCM_CONNECTED.
Proof. exists 2. split; [lia|reflexivity]. Qed.
Lemma single_bit_NCM_DISCONNECTED : single_bit EVENT_NCM_DISCONNECTED.
Proof. exists 3. split; [lia|reflexivity]. Qed.

Create HintDb flags.
#[local] Hint Resolve single_bit_ASSOCIATED single_bit_DISASSOCIATED
  single_bit_NCM_CONNECTED single_bit_NCM_DISCONNECTED : flags.

(** Rewrites the flag tests of a goal about set and cleared masks. *)
Ltac flags :=
  repeat first
    [ rewrite has_flag_set_same by auto with flags
    | rewrite has_flag_clear_same by auto with flags
    | rewrite has_flag_set_other by (auto with flags || discriminate)
    | rewrite has_flag_clear_other by (auto with flags || discriminate) ].

(** ** The connection table *)

Lemma connection_upd_same : forall cid f s,
  valid_cid cid -> table_ok s ->
  connection cid (upd_connection cid f s) = f (connection cid s).
Proof.
  intros cid f s Hc Hok. unfold connection, upd_connection. simpl.
  rewrite list_lookup_alter_eq.
  destruct (connections (net s) !! Z.to_nat cid) eqn:Hl; [reflexivity|].
  apply lookup_ge_None in Hl. unfold table_ok, valid_cid, MAX_CID in *. lia.
Qed.

Lemma connection_upd_other : forall cid cid' f s,
  0 <= cid -> 0 <= cid' -> cid <> cid' ->
  connection cid' (upd_connection cid f s) = connection cid' s.
Proof.
  intros cid cid' f s Hc Hc' Hne. unfold connection, upd_connection. simpl.
  rewrite list_lookup_alter_ne; [reflexivity|lia].
Qed.

Lemma table_ok_upd_connection : forall cid f s,
  table_ok s -> table_ok (upd_connection cid f s).
Proof.
  intros cid f s Hok. unfold table_ok, upd_connection in *. simpl.
  rewrite length_alter. exact Hok.
Qed.

Lemma connection_upd_net : forall cid f s,
  connections (f (net s)) = connections (net s) ->
  connection cid (upd_net f s) = connection cid s.
Proof. intros cid f s H. unfold connection. simpl. rewrite H. reflexivity. Qed.

(** What [processDisconnect] does to the events: only the two NCM flags
    can change. *)
Lemma processDisconnect_events : forall cid s m,
  single_bit m -> m <> EVENT_NCM_CONNECTED -> m <> EVENT_NCM_DISCONNECTED ->
  has_flag (events (net (processDisconnect cid s))) m = has_flag (events (net s)) m.
Proof.
  intros cid s m Hm H1 H2. unfold processDisconnect.
  destruct (connected (connection cid s)); simpl; [|reflexivity].
  destruct (cid =? ncm_auto_cid (net s)); [|reflexivity].
  destruct (has_flag (events (net s)) EVENT_NCM_CONNECTED); simpl.
  - apply has_flag_clear_other; auto with flags.
  - apply has_flag_set_other; auto with flags.
Qed.

Lemma processDisconnect_associated : forall cid s,
  associated (net (processDisconnect cid s)) = associated (net s).
Proof.
  intros cid s. unfold processDisconnect.
  destruct (connected (connection cid s)); simpl; [|reflexivity].
  destruct (cid =? ncm_auto_cid (net s)); [|reflexivity].
  destruct (has_flag (events (net s)) EVENT_NCM_CONNECTED); reflexivity.
Qed.

Lemma processDisconnect_table_ok : forall cid s,
  table_ok s -> table_ok (processDisconnect cid s).
Proof.
  intros cid s Hok. unfold processDisconnect.
  destruct (connected (connection cid s)); simpl; [|exact Hok].
  assert (H2 : table_ok (upd_connection cid (set_ssl false)
                           (upd_connection cid (set_connected false) s)))
    by (do 2 apply table_ok_upd_connection; exact Hok).
  destruct (cid =? ncm_auto_cid (net s)); [|exact H2].
  destruct (has_flag (events (net s)) EVENT_NCM_CONNECTED); exact H2.
Qed.

Lemma processDisconnect_other : forall cid cid' s,
  0 <= cid -> 0 <= cid' -> cid <> cid' ->
  connection cid' (processDisconnect cid s) = connection cid' s.
Proof.
  intros cid cid' s Hc Hc' Hne. unfold processDisconnect.
  destruct (connected (connection cid s)); simpl; [|reflexivity].
  assert (H2 : connection cid' (upd_connection cid (set_ssl false)
                                  (upd_connection cid (set_connected false) s))
               = connection cid' s)
    by (rewrite !connection_upd_other; auto).
  destruct (cid =? ncm_auto_cid (net s)); [|exact H2].
  destruct (has_flag (events (net s)) EVENT_NCM_CONNECTED); exact H2.
Qed.

Lemma processDisconnect_same : forall cid s,
  valid_cid cid -> table_ok s ->
  connected (connection cid (processDisconnect cid s)) = false /\
  error (connection cid (processDisconnect cid s)) = error (connection cid s).
Proof.
  intros cid s Hc Hok. unfold processDisconnect.
  destruct (connected (connection cid s)) eqn:Hcon; simpl; [|auto].
  assert (H2 : connection cid (upd_connection cid (set_ssl false)
                                 (upd_connection cid (set_connected false) s))
               = set_ssl false (set_connected false (connection cid s))).
  { rewrite !connection_upd_same; auto using table_ok_upd_connection. }
  assert (H3 : forall s', connection cid s' = set_ssl false (set_connected false (connection cid s)) ->
                 connected (connection cid s') = false /\
                 error (connection cid s') = error (connection cid s))
    by (intros s' ->; auto).
  destruct (cid =? ncm_auto_cid (net s)); [|apply H3, H2].
  destruct (has_flag (events (net s)) EVENT_NCM_CONNECTED); apply H3, H2.
Qed.

Lemma disassociate_cid_other : forall cid cid' s,
  0 <= cid -> 0 <= cid' -> cid <> cid' ->
  connection cid' (disassociate_cid s cid) = connection cid' s.
Proof.
  intros cid cid' s Hc Hc' Hne. unfold disassociate_cid.
  destruct (connected (connection cid s)); [|reflexivity].
  rewrite processDisconnect_other, connection_upd_other; auto.
Qed.

Lemma disassociate_cid_same : forall cid s,
  valid_cid cid -> table_ok s ->
  (connected (connection cid s) = true ->
   connected (connection cid (disassociate_cid s cid)) = false /\
   error (connection cid (disassociate_cid s cid)) = true) /\
  (connected (connection cid s) = false -> disassociate_cid s cid = s).
Proof.
  intros cid s Hc Hok. unfold disassociate_cid. split; intros Hcon; rewrite Hcon.
  - destruct (processDisconnect_same cid (upd_connection cid (set_error true) s) Hc
                (table_ok_upd_connection _ _ _ Hok)) as [H1 H2].
    split; [exact H1|]. rewrite H2, connection_upd_same; auto.
  - reflexivity.
Qed.

Lemma disassociate_cid_table_ok : forall cid s,
  table_ok s -> table_ok (disassociate_cid s cid).
Proof.
  intros cid s Hok. unfold disassociate_cid.
  destruct (connected (connection cid s)); [|exact Hok].
  apply processDisconnect_table_ok, table_ok_upd_connection, Hok.
Qed.

Lemma disassociate_cid_events : forall cid s m,
  single_bit m -> m <> EVENT_NCM_CONNECTED -> m <> EVENT_NCM_DISCONNECTED ->
  has_flag (events (net (disassociate_cid s cid))) m = has_flag (events (net s)) m.
Proof.
  intros cid s m Hm H1 H2. unfold disassociate_cid.
  destruct (connected (connection cid s)); [|reflexivity].
  rewrite processDisconnect_events; auto.
Qed.

Lemma disassociate_cid_associated : forall cid s,
  associated (net (disassociate_cid s cid)) = associated (net s).
Proof.
  intros cid s. unfold disassociate_cid.
  destruct (connected (connection cid s)); [|reflexivity].
  rewrite processDisconnect_associated. reflexivity.
Qed.

(** The cascade over a list of distinct CIDs. *)
Lemma disassociate_cascade : forall (l : list Z) s,
  NoDup l -> Forall valid_cid l -> table_ok s ->
  table_ok (fold_left disassociate_cid l s) /\
  associated (net (fold_left disassociate_cid l s)) = associated (net s) /\
  (forall m, single_bit m -> m <> EVENT_NCM_CONNECTED -> m <> EVENT_NCM_DISCONNECTED ->
             has_flag (events (net (fold_left disassociate_cid l s))) m
             = has_flag (events (net s)) m) /\
  (forall cid, 0 <= cid -> ~ In cid l ->
               connection cid (fold_left disassociate_cid l s) = connection cid s) /\
  (forall cid, In cid l -> connected (connection cid s) = true ->
               connected (connection cid (fold_left disassociate_cid l s)) = false /\
               error (connection cid (fold_left disassociate_cid l s)) = true) /\
  (forall cid, In cid l -> connected (connection cid s) = false ->
               connection cid (fold_left disassociate_cid l s) = connection cid s).
Proof.
  induction l as [|c l IH]; intros s Hnd Hv Hok; simpl.
  - refine (conj Hok (conj eq_refl (conj _ (conj _ (conj _ _))))); auto;
      intros cid Hin; destruct Hin.
  - apply NoDup_cons in Hnd as [Hnotin Hnd].
    apply Forall_cons in Hv as [Hc Hv].
    assert (Hnotin' : ~ In c l) by (rewrite <- list_elem_of_In; exact Hnotin).
    destruct (IH (disassociate_cid s c) Hnd Hv (disassociate_cid_table_ok c s Hok))
      as (IHok & IHas & IHev & IHout & IHon & IHoff).
    destruct (disassociate_cid_same c s Hc Hok) as [Hon Hoff].
    assert (Hc0 : 0 <= c) by (destruct Hc; assumption).
    assert (Hpos : forall cid, In cid l -> 0 <= cid).
    { intros cid Hin. rewrite Forall_forall in Hv.
      rewrite <- list_elem_of_In in Hin. apply Hv in Hin.
      destruct Hin; assumption. }
    refine (conj IHok (conj _ (conj _ (conj _ (conj _ _))))).
    + rewrite IHas. apply disassociate_cid_associated.
    + intros m Hm H1 H2. rewrite IHev; auto. apply disassociate_cid_events; auto.
    + intros cid Hcid Hnin. rewrite IHout; [|lia|tauto].
      apply disassociate_cid_other; auto; intros ->; tauto.
    + intros cid [<-|Hin] Hcon.
      * rewrite IHout; [|lia|exact Hnotin']. apply Hon. exact Hcon.
      * apply IHon; [exact Hin|]. rewrite disassociate_cid_other; auto;
          intros ->; tauto.
    + intros cid [<-|Hin] Hcon.
      * rewrite IHout; [|lia|exact Hnotin']. rewrite (Hoff Hcon). reflexivity.
      * assert (Hne : c <> cid) by (intros ->; tauto).
        rewrite IHoff; [apply disassociate_cid_other; auto|exact Hin|].
        rewrite disassociate_cid_other; auto.
Qed.

Lemma all_cids_valid : Forall valid_cid all_cids.
Proof.
  unfold all_cids. apply Forall_forall. intros x Hx.
  apply list_elem_of_fmap in Hx as (n & -> & Hn).
  apply elem_of_seq in Hn. unfold valid_cid, MAX_CID in *. simpl in Hn. lia.
Qed.

Lemma all_cids_NoDup : NoDup all_cids.
Proof.
  unfold all_cids. apply NoDup_fmap_2; [|apply NoDup_seq].
  intros x y H. lia.
Qed.

Lemma all_cids_complete : forall cid, valid_cid cid -> In cid all_cids.
Proof.
  intros cid Hc. apply list_elem_of_In. unfold all_cids.
  apply list_elem_of_fmap. exists (Z.to_nat cid).
  unfold valid_cid, MAX_CID in *. split; [lia|]. apply elem_of_seq. simpl. lia.
Qed.

Lemma processDisassociation_unfold : forall s,
  associated (net s) = true ->
  processDisassociation s =
  fold_left disassociate_cid all_cids
    (upd_net (set_associated false)
       (if has_flag (events (net s)) EVENT_ASSOCIATED
        then upd_net (clear_flag EVENT_ASSOCIATED) s
        else upd_net (set_flag EVENT_DISASSOCIATED) s)).
Proof. intros s Ha. unfold processDisassociation. rewrite Ha. reflexivity. Qed.

Lemma processDisassociation_idle : forall s,
  associated (net s) = false -> processDisassociation s = s.
Proof. intros s Ha. unfold processDisassociation. rewrite Ha. reflexivity. Qed.

Lemma processDisassociation_table_ok : forall s,
  table_ok s -> table_ok (processDisassociation s).
Proof.
  intros s Hok. destruct (associated (net s)) eqn:Ha.
  - rewrite processDisassociation_unfold; [|exact Ha].
    apply disassociate_cascade; [apply all_cids_NoDup|apply all_cids_valid|].
    destruct (has_flag (events (net s)) EVENT_ASSOCIATED); exact Hok.
  - rewrite processDisassociation_idle; auto.
Qed.

Lemma disassociation_flags_table : forall s cid,
  connection cid (disassociation_flags s) = connection cid s.
Proof.
  intros s cid. unfold disassociation_flags.
  destruct (has_flag (events (net s)) EVENT_ASSOCIATED); reflexivity.
Qed.

Lemma disassociation_flags_table_ok : forall s,
  table_ok s -> table_ok (disassociation_flags s).
Proof.
  intros s Hok. unfold disassociation_flags.
  destruct (has_flag (events (net s)) EVENT_ASSOCIATED); exact Hok.
Qed.

(** What a disassociation does to the association flags. *)
Lemma processDisassociation_events : forall s,
  table_ok s -> associated (net s) = true ->
  has_flag (events (net (processDisassociation s))) EVENT_ASSOCIATED = false /\
  has_flag (events (net (processDisassociation s))) EVENT_DISASSOCIATED =
    (if has_flag (events (net s)) EVENT_ASSOCIATED
     then has_flag (events (net s)) EVENT_DISASSOCIATED else true) /\
  associated (net (processDisassociation s)) = false.
Proof.
  intros s Hok Ha. rewrite processDisassociation_unfold; [|exact Ha].
  fold (disassociation_flags s).
  destruct (disassociate_cascade all_cids (disassociation_flags s) all_cids_NoDup
              all_cids_valid (disassociation_flags_table_ok s Hok))
    as (_ & Has & Hev & _).
  rewrite Has, !Hev; auto with flags; try discriminate.
  unfold disassociation_flags.
  destruct (has_flag (events (net s)) EVENT_ASSOCIATED) eqn:Hp; simpl; flags; auto.
Qed.

(** What a disassociation does to the connection table. *)
Lemma processDisassociation_connections : forall s cid,
  table_ok s -> associated (net s) = true -> valid_cid cid ->
  (connected (connection cid s) = true ->
   connected (connection cid (processDisassociation s)) = false /\
   error (connection cid (processDisassociation s)) = true) /\
  (connected (connection cid s) = false ->
   connection cid (processDisassociation s) = connection cid s).
Proof.
  intros s cid Hok Ha Hc. rewrite processDisassociation_unfold; [|exact Ha].
  fold (disassociation_flags s).
  destruct (disassociate_cascade all_cids (disassociation_flags s) all_cids_NoDup
              all_cids_valid (disassociation_flags_table_ok s Hok))
    as (_ & _ & _ & _ & Hon & Hoff).
  pose proof (all_cids_complete cid Hc) as Hin.
  split; intros Hcon.
  - apply Hon; [exact Hin|]. rewrite disassociation_flags_table. exact Hcon.
  - rewrite Hoff; [apply disassociation_flags_table|exact Hin|].
    rewrite disassociation_flags_table. exact Hcon.
Qed.

(** ** Dispatch of the events by [loop] *)

Lemma dispatch_events_fired : forall r1 r2 r3 r4 s,
  fst (dispatch_events r1 r2 r3 r4 s) =
    fired_if (r1 && has_flag (events (net s)) EVENT_NCM_DISCONNECTED) OnNcmDisconnect
    ++ fired_if (r2 && has_flag (events (net s)) EVENT_DISASSOCIATED) OnDisassociate
    ++ fired_if (r3 && has_flag (events (net s)) EVENT_ASSOCIATED) OnAssociate
    ++ fired_if (r4 && has_flag (events (net s)) EVENT_NCM_CONNECTED)
                (OnNcmConnect (ncm_auto_cid (net s))).
Proof.
  intros r1 r2 r3 r4 s. unfold dispatch_events, dispatch_one.
  destruct (has_flag (events (net s)) EVENT_NCM_DISCONNECTED) eqn:E1;
  destruct (has_flag (events (net s)) EVENT_DISASSOCIATED) eqn:E2;
  destruct (has_flag (events (net s)) EVENT_ASSOCIATED) eqn:E3;
  destruct (has_flag (events (net s)) EVENT_NCM_CONNECTED) eqn:E4;
  destruct r1, r2, r3, r4; simpl; flags; rewrite ?E1, ?E2, ?E3, ?E4; simpl;
    flags; rewrite ?E1, ?E2, ?E3, ?E4; simpl;
    flags; rewrite ?E1, ?E2, ?E3, ?E4; simpl; reflexivity.
Qed.

Lemma dispatch_count : forall r1 r2 r3 r4 s,
  List.filter is_OnNcmDisconnect (fst (dispatch_events r1 r2 r3 r4 s))
    = fired_if (r1 && has_flag (events (net s)) EVENT_NCM_DISCONNECTED) OnNcmDisconnect /\
  List.filter is_OnDisassociate (fst (dispatch_events r1 r2 r3 r4 s))
    = fired_if (r2 && has_flag (events (net s)) EVENT_DISASSOCIATED) OnDisassociate /\
  List.filter is_OnAssociate (fst (dispatch_events r1 r2 r3 r4 s))
    = fired_if (r3 && has_flag (events (net s)) EVENT_ASSOCIATED) OnAssociate /\
  List.filter is_OnNcmConnect (fst (dispatch_events r1 r2 r3 r4 s))
    = fired_if (r4 && has_flag (events (net s)) EVENT_NCM_CONNECTED)
               (OnNcmConnect (ncm_auto_cid (net s))).
Proof.
  intros r1 r2 r3 r4 s. rewrite dispatch_events_fired.
  destruct (r1 && has_flag (events (net s)) EVENT_NCM_DISCONNECTED),
           (r2 && has_flag (events (net s)) EVENT_DISASSOCIATED),
           (r3 && has_flag (events (net s)) EVENT_ASSOCIATED),
           (r4 && has_flag (events (net s)) EVENT_NCM_CONNECTED);
    repeat split; reflexivity.
Qed.

(** ** Disassociation *)

(** C3, as stated, fails: with CIDs 1 and 3 connected and the association
    event of this poll cycle still pending, a disassociation disconnects both
    but queues no DISASSOCIATED event. *)
Lemma disassociation_cancels_pending_association :
  let s := core_1_3 EVENT_ASSOCIATED in
  associated (net s) = true /\
  connected (connection 1 s) = true /\ connected (connection 3 s) = true /\
  connected (connection 1 (processDisassociation s)) = false /\
  connected (connection 3 (processDisassociation s)) = false /\
  has_flag (events (net (processDisassociation s))) EVENT_DISASSOCIATED = false /\
  List.filter is_OnDisassociate
    (fst (dispatch_events true true true true (processDisassociation s))) = [].
Proof. vm_compute. repeat split; reflexivity. Qed.

(** C3, amended: on an associated module with no association event pending,
    a disassociation leaves every connected CID disconnected with its error
    flag set, leaves the other entries of the table alone, and queues the
    DISASSOCIATED event once: the dispatch of the poll cycle calls the
    disassociation callback exactly once. *)
Theorem processDisassociation_cascade :
  forall s (r1 r3 r4 : bool),
    table_ok s ->
    associated (net s) = true ->
    has_flag (events (net s)) EVENT_ASSOCIATED = false ->
    associated (net (processDisassociation s)) = false /\
    (forall cid, valid_cid cid -> connected (connection cid s) = true ->
       connected (connection cid (processDisassociation s)) = false /\
       error (connection cid (processDisassociation s)) = true) /\
    (forall cid, valid_cid cid -> connected (connection cid s) = false ->
       connection cid (processDisassociation s) = connection cid s) /\
    has_flag (events (net (processDisassociation s))) EVENT_DISASSOCIATED = true /\
    List.filter is_OnDisassociate
      (fst (dispatch_events r1 true r3 r4 (processDisassociation s))) = [OnDisassociate].
Proof.
  intros s r1 r3 r4 Hok Ha Hp.
  destruct (processDisassociation_events s Hok Ha) as (_ & Hd & Has).
  rewrite Hp in Hd.
  refine (conj Has (conj _ (conj _ (conj Hd _)))).
  - intros cid Hc. apply processDisassociation_connections; auto.
  - intros cid Hc. apply processDisassociation_connections; auto.
  - destruct (dispatch_count r1 true r3 r4 (processDisassociation s)) as (_ & H & _).
    rewrite H, Hd. reflexivity.
Qed.

Lemma processDisassociation_cascade_witness :
  let s := core_1_3 0 in
  associated (net (processDisassociation s)) = false /\
  (forall cid, valid_cid cid -> connected (connection cid s) = true ->
     connected (connection cid (processDisassociation s)) = false /\
     error (connection cid (processDisassociation s)) = true) /\
  (forall cid, valid_cid cid -> connected (connection cid s) = false ->
     connection cid (processDisassociation s) = connection cid s) /\
  has_flag (events (net (processDisassociation s))) EVENT_DISASSOCIATED = true /\
  List.filter is_OnDisassociate
    (fst (dispatch_events true true true true (processDisassociation s))) = [OnDisassociate].
Proof.
  apply (processDisassociation_cascade (core_1_3 0) true true true);
    [reflexivity | reflexivity | reflexivity].
Defined.

(** ** Pairs of events within one poll cycle *)

Lemma processAssociation_table_ok : forall s,
  table_ok s -> table_ok (processAssociation s).
Proof.
  intros s Hok. unfold processAssociation.
  destruct (associated (net s)); [apply processDisassociation_table_ok|]; exact Hok.
Qed.

Lemma processAssociation_pending : forall s,
  associated (net (processAssociation s)) = true /\
  has_flag (events (net (processAssociation s))) EVENT_ASSOCIATED = true.
Proof.
  intros s. unfold processAssociation. simpl. split; [reflexivity|].
  apply has_flag_set_same. auto with flags.
Qed.

Lemma processConnect_ncm : forall cid a b c s,
  valid_cid cid -> table_ok s ->
  table_ok (processConnect cid a b c true s) /\
  connected (connection cid (processConnect cid a b c true s)) = true /\
  ncm_auto_cid (net (processConnect cid a b c true s)) = cid /\
  has_flag (events (net (processConnect cid a b c true s))) EVENT_NCM_CONNECTED = true.
Proof.
  intros cid a b c s Hc Hok. unfold processConnect.
  set (s1 := if connected (connection cid s) then processDisconnect cid s else s).
  assert (Hok1 : table_ok s1).
  { subst s1. destruct (connected (connection cid s)); auto using processDisconnect_table_ok. }
  set (s2 := upd_net (set_flag EVENT_NCM_CONNECTED) (upd_net (set_ncm_auto_cid cid) s1)).
  assert (Hok2 : table_ok s2) by exact Hok1.
  refine (conj _ (conj _ (conj _ _))).
  - auto using table_ok_upd_connection.
  - rewrite connection_upd_same; auto using table_ok_upd_connection.
  - reflexivity.
  - simpl. apply has_flag_set_same. auto with flags.
Qed.

Lemma processDisconnect_ncm : forall cid s,
  connected (connection cid s) = true ->
  ncm_auto_cid (net s) = cid ->
  has_flag (events (net s)) EVENT_NCM_CONNECTED = true ->
  events (net (processDisconnect cid s)) = Z.land (events (net s)) (Z.lnot EVENT_NCM_CONNECTED) /\
  ncm_auto_cid (net (processDisconnect cid s)) = INVALID_CID.
Proof.
  intros cid s Hcon Hncm Hp. unfold processDisconnect. rewrite Hcon. simpl.
  rewrite Hncm, Z.eqb_refl, Hp. simpl. auto.
Qed.

(** C8: an association followed, before the events are dispatched, by a
    disassociation cancels the pending ASSOCIATED flag and leaves the
    DISASSOCIATED flag as the association left it; a connection set up by the
    NCM and closed again cancels the pending NCM_CONNECTED flag and leaves
    NCM_DISCONNECTED as the connect left it.  The dispatch that follows
    calls neither the association nor the NCM connect callback, and the
    second event of a pair adds no callback of its own. *)
Theorem same_cycle_pairs_cancel :
  forall s cid rip rport lport (r1 r2 r3 r4 : bool),
    valid_cid cid -> table_ok s ->
    (has_flag (events (net (processAssociation s))) EVENT_ASSOCIATED = true /\
     has_flag (events (net (processDisassociation (processAssociation s)))) EVENT_ASSOCIATED
       = false /\
     has_flag (events (net (processDisassociation (processAssociation s)))) EVENT_DISASSOCIATED
       = has_flag (events (net (processAssociation s))) EVENT_DISASSOCIATED /\
     List.filter is_OnAssociate
       (fst (dispatch_events r1 r2 r3 r4 (processDisassociation (processAssociation s)))) = [] /\
     List.filter is_OnDisassociate
       (fst (dispatch_events r1 r2 r3 r4 (processDisassociation (processAssociation s))))
       = List.filter is_OnDisassociate
           (fst (dispatch_events r1 r2 r3 r4 (processAssociation s)))) /\
    (has_flag (events (net (processConnect cid rip rport lport true s))) EVENT_NCM_CONNECTED
       = true /\
     has_flag (events (net (processDisconnect cid (processConnect cid rip rport lport true s))))
              EVENT_NCM_CONNECTED = false /\
     has_flag (events (net (processDisconnect cid (processConnect cid rip rport lport true s))))
              EVENT_NCM_DISCONNECTED
       = has_flag (events (net (processConnect cid rip rport lport true s)))
                  EVENT_NCM_DISCONNECTED /\
     List.filter is_OnNcmConnect
       (fst (dispatch_events r1 r2 r3 r4
               (processDisconnect cid (processConnect cid rip rport lport true s)))) = [] /\
     List.filter is_OnNcmDisconnect
       (fst (dispatch_events r1 r2 r3 r4
               (processDisconnect cid (processConnect cid rip rport lport true s))))
       = List.filter is_OnNcmDisconnect
           (fst (dispatch_events r1 r2 r3 r4 (processConnect cid rip rport lport true s)))).
Proof.
  intros s cid rip rport lport r1 r2 r3 r4 Hc Hok. split.
  - destruct (processAssociation_pending s) as [Ha Hp].
    destruct (processDisassociation_events (processAssociation s)
                (processAssociation_table_ok s Hok) Ha) as (H1 & H2 & _).
    rewrite Hp in H2.
    destruct (dispatch_count r1 r2 r3 r4 (processDisassociation (processAssociation s)))
      as (_ & D2 & D3 & _).
    destruct (dispatch_count r1 r2 r3 r4 (processAssociation s)) as (_ & D2' & _).
    refine (conj Hp (conj H1 (conj H2 (conj _ _)))).
    + rewrite D3, H1, andb_false_r. reflexivity.
    + rewrite D2, D2', H2. reflexivity.
  - destruct (processConnect_ncm cid rip rport lport s Hc Hok) as (Hok' & Hcon & Hncm & Hp).
    destruct (processDisconnect_ncm cid _ Hcon Hncm Hp) as [Hev _].
    assert (H1 : has_flag (events (net (processDisconnect cid
                   (processConnect cid rip rport lport true s)))) EVENT_NCM_CONNECTED = false).
    { rewrite Hev. apply has_flag_clear_same. auto with flags. }
    assert (H2 : has_flag (events (net (processDisconnect cid
                   (processConnect cid rip rport lport true s)))) EVENT_NCM_DISCONNECTED
                 = has_flag (events (net (processConnect cid rip rport lport true s)))
                            EVENT_NCM_DISCONNECTED).
    { rewrite Hev. apply has_flag_clear_other; auto with flags; discriminate. }
    destruct (dispatch_count r1 r2 r3 r4
                (processDisconnect cid (processConnect cid rip rport lport true s)))
      as (D1 & _ & _ & D4).
    destruct (dispatch_count r1 r2 r3 r4 (processConnect cid rip rport lport true s))
      as (D1' & _).
    refine (conj Hp (conj H1 (conj H2 (conj _ _)))).
    + rewrite D4, H1, andb_false_r. reflexivity.
    + rewrite D1, D1', H2. reflexivity.
Qed.

Lemma same_cycle_pairs_cancel_witness :
  let s := core0 in
  (has_flag (events (net (processDisassociation (processAssociation s)))) EVENT_ASSOCIATED
     = false /\
   fst (dispatch_events true true true true (processDisassociation (processAssociation s)))
     = []) /\
  (has_flag (events (net (processDisconnect 2 (processConnect 2 0 0 0 true s))))
            EVENT_NCM_CONNECTED = false /\
   fst (dispatch_events true true true true
          (processDisconnect 2 (processConnect 2 0 0 0 true s))) = []).
Proof.
  assert (Hc : valid_cid 2) by (unfold valid_cid, MAX_CID; lia).
  assert (Hok : table_ok core0) by reflexivity.
  pose proof (same_cycle_pairs_cancel core0 2 0 0 0 true true true true Hc Hok) as H.
  destruct H as [(_ & H1 & _) (_ & H2 & _)].
  split; (split; [assumption | reflexivity]).
Defined.

(** ** The SPI fault latch *)

Lemma spi_feed_app : forall cs1 cs2 s,
  spi_feed (cs1 ++ cs2) s = spi_feed cs2 (spi_feed cs1 s).
Proof. intros. unfold spi_feed. apply fold_left_app. Qed.








Section FaultLatch.
Context {hdr : Header}.






End FaultLatch.


(** The same through [readRaw]: with the data-ready pin high, the call
    that clocks in 21 all-ones bytes latches the fault (and goes on polling
    until its tries are used up); the next call returns -1 and leaves the
    byte that is waiting on the wire where it is. *)
Example readRaw_latches :
  let s := spi_core (repeat SPI_SPECIAL_ALL_ONE 64 ++ [ch "0"]) in
  fst (readRaw (hdr := avr_header) s) = -1 /\
  unrecoverableError (snd (readRaw (hdr := avr_header) s)) = true /\
  wire_in (world (snd (readRaw (hdr := avr_header) s))) = [ch "0"] /\
  readRaw (hdr := avr_header) (snd (readRaw (hdr := avr_header) s))
    = (-1, snd (readRaw (hdr := avr_header) s)).
Proof. vm_compute. repeat split; reflexivity. Qed.

(** ** Dotted quads: [parseIpAddress] *)

Lemma parseIpAddress_loop_app : forall p q ip i,
  parseIpAddress_loop (p ++ q) ip i =
    let '(ok, ip', i') := parseIpAddress_loop p ip i in
    if ok then parseIpAddress_loop q ip' i' else (false, ip', i').
Proof.
  induction p as [|c p IH]; intros q ip i; simpl.
  - reflexivity.
  - destruct (c =? ch ".").
    + destruct (i + 1 >=? 4); [reflexivity|apply IH].
    + destruct ((c <? ch "0") || (c >? ch "9")); [reflexivity|].
      destruct ((byte_at ip i >=? 100) || ((byte_at ip i =? 25) && (c >? ch "5")));
        [reflexivity|apply IH].
Qed.

Lemma parseIpAddress_loop_fail : forall p ip i,
  fst (fst (parseIpAddress_loop p ip i)) = false \/
  fst (fst (parseIpAddress_loop p ip i)) = true.
Proof. intros. destruct (fst (fst (parseIpAddress_loop p ip i))); auto. Qed.

(** A string that is accepted has nothing but digits and dots, and at most
    three dots after octet 0. *)
Lemma parseIpAddress_loop_accepts : forall p ip i,
  fst (fst (parseIpAddress_loop p ip i)) = true ->
  Forall (fun c => c = ch "." \/ is_digit c = true) p /\
  (count_dots p = 0%nat \/ i + Z.of_nat (count_dots p) <= 3).
Proof.
  induction p as [|c p IH]; intros ip i H; simpl in *.
  - split; [constructor|left; reflexivity].
  - unfold count_dots. simpl.
    destruct (Z.eqb_spec c (ch ".")) as [->|Hne].
    + destruct (Z.geb_spec (i + 1) 4) as [|Hi]; [discriminate|].
      apply IH in H as [HF Hc]. split; [constructor; auto|].
      right. simpl. fold (count_dots p). destruct Hc as [->|Hc]; lia.
    + destruct (Z.ltb_spec c (ch "0")); [discriminate|].
      destruct (Z.gtb_spec c (ch "9")); [discriminate|]. simpl in H.
      destruct ((byte_at ip i >=? 100) || ((byte_at ip i =? 25) && (c >? ch "5")));
        [discriminate|].
      apply IH in H as [HF Hc]. split; [|exact Hc].
      constructor; [|exact HF]. right. unfold is_digit.
      apply andb_true_intro. split; apply Z.leb_le; lia.
Qed.

Lemma byte_at_insert_same : forall (l : list Z) i v,
  0 <= i -> (Z.to_nat i < List.length l)%nat -> byte_at (<[Z.to_nat i := v]> l) i = v.
Proof.
  intros l i v Hi Hlen. unfold byte_at. destruct (Z.ltb_spec i 0); [lia|].
  rewrite list_lookup_insert_eq; [reflexivity|exact Hlen].
Qed.

(** The digits of one octet, seen from the loop. *)
Lemma parseIpAddress_loop_octet : forall ds ip i o,
  0 <= i -> (Z.to_nat i < List.length ip)%nat ->
  Forall (fun c => is_digit c = true) ds ->
  byte_at ip i = o ->
  parseIpAddress_loop ds ip i =
    match octet_run o ds with
    | Some o' => (true, if Nat.eqb (List.length ds) 0 then ip else <[Z.to_nat i := o']> ip, i)
    | None => (false, snd (fst (parseIpAddress_loop ds ip i)), i)
    end.
Proof.
  induction ds as [|c ds IH]; intros ip i o Hi Hlen Hd Ho; simpl.
  - reflexivity.
  - apply Forall_cons in Hd as [Hc Hd]. unfold is_digit in Hc.
    apply andb_prop in Hc as [Hc1 Hc2]. apply Z.leb_le in Hc1, Hc2.
    assert (Hdot : (c =? ch ".") = false) by (apply Z.eqb_neq; unfold ch in *; simpl in *; lia).
    rewrite Hdot.
    destruct (Z.ltb_spec c (ch "0")); [lia|]. destruct (Z.gtb_spec c (ch "9")); [lia|].
    simpl. rewrite Ho.
    destruct ((o >=? 100) || ((o =? 25) && (c >? ch "5"))); [reflexivity|].
    rewrite byte_at_insert_same; [|lia|exact Hlen].
    rewrite list_insert_insert_eq.
    rewrite (IH _ i (u8 (u8 (o * 10) + (c - ch "0")))); auto.
    + destruct ds as [|c' ds]; [reflexivity|].
      destruct (octet_run (u8 (u8 (o * 10) + (c - ch "0"))) (c' :: ds)) as [o'|];
        [|reflexivity].
      simpl. rewrite list_insert_insert_eq. reflexivity.
    + rewrite length_insert. exact Hlen.
    + apply byte_at_insert_same; auto.
Qed.

(** Every octet up to 255, written in decimal, is read back. *)
Lemma octet_run_dec_digits : forall n,
  0 <= n <= 255 ->
  octet_run 0 (dec_digits n) = Some n /\
  Forall (fun c => is_digit c = true) (dec_digits n) /\
  Nat.eqb (List.length (dec_digits n)) 0 = false.
Proof.
  assert (H : forallb (fun n =>
                match octet_run 0 (dec_digits n) with
                | Some m => (m =? n) && forallb is_digit (dec_digits n)
                            && negb (Nat.eqb (List.length (dec_digits n)) 0)
                | None => false
                end) (map Z.of_nat (seq 0 256)) = true) by (vm_compute; reflexivity).
  intros n Hn. rewrite forallb_forall in H.
  specialize (H n). 
  assert (Hin : In n (map Z.of_nat (seq 0 256))).
  { replace n with (Z.of_nat (Z.to_nat n)) by lia. apply in_map, in_seq. lia. }
  apply H in Hin.
  destruct (octet_run 0 (dec_digits n)) as [m|]; [|discriminate].
  apply andb_prop in Hin as [Hin H3]. apply andb_prop in Hin as [H1 H2].
  apply Z.eqb_eq in H1. subst m. split; [reflexivity|]. split.
  - rewrite forallb_forall in H2. apply Forall_forall. intros x Hx.
    apply H2. apply list_elem_of_In. exact Hx.
  - destruct (Nat.eqb (List.length (dec_digits n)) 0); [discriminate|reflexivity].
Qed.

Lemma parseIpAddress_loop_dec_digits : forall n ip i,
  0 <= n <= 255 -> 0 <= i -> (Z.to_nat i < List.length ip)%nat -> byte_at ip i = 0 ->
  parseIpAddress_loop (dec_digits n) ip i = (true, <[Z.to_nat i := n]> ip, i).
Proof.
  intros n ip i Hn Hi Hlen H0.
  destruct (octet_run_dec_digits n Hn) as (Hrun & Hd & Hne).
  rewrite (parseIpAddress_loop_octet _ ip i 0); auto.
  rewrite Hrun, Hne. reflexivity.
Qed.

Lemma c_string_id : forall l,
  Forall (fun c => c = ch "." \/ is_digit c = true) l -> c_string l = l.
Proof.
  induction l as [|c l IH]; intros H; [reflexivity|].
  apply Forall_cons in H as [Hc H]. simpl.
  destruct (Z.eqb_spec c 0) as [->|_].
  - destruct Hc as [Hc|Hc]; discriminate.
  - rewrite IH; auto.
Qed.

Lemma dec_digits_chars : forall n,
  0 <= n <= 255 -> Forall (fun c => c = ch "." \/ is_digit c = true) (dec_digits n).
Proof.
  intros n Hn. destruct (octet_run_dec_digits n Hn) as (_ & Hd & _).
  eapply Forall_impl; [exact Hd|]. intros x Hx. right. exact Hx.
Qed.

Lemma dotted_quad_chars : forall a b c d,
  0 <= a <= 255 -> 0 <= b <= 255 -> 0 <= c <= 255 -> 0 <= d <= 255 ->
  Forall (fun c => c = ch "." \/ is_digit c = true) (dotted_quad a b c d).
Proof.
  intros a b c d Ha Hb Hc Hd. unfold dotted_quad.
  repeat (apply Forall_app; split); auto using dec_digits_chars;
    repeat constructor.
Qed.

Lemma parseIpAddress_loop_dotted_quad : forall a b c d,
  0 <= a <= 255 -> 0 <= b <= 255 -> 0 <= c <= 255 -> 0 <= d <= 255 ->
  parseIpAddress_loop (dotted_quad a b c d) ip_zero 0 = (true, [a; b; c; d], 3).
Proof.
  intros a b c d Ha Hb Hc Hd. unfold dotted_quad.
  rewrite parseIpAddress_loop_app, parseIpAddress_loop_dec_digits;
    [|lia|lia|simpl; lia|reflexivity].
  cbn -[dec_digits].
  rewrite parseIpAddress_loop_app, parseIpAddress_loop_dec_digits;
    [|lia|lia|simpl; lia|reflexivity].
  cbn -[dec_digits].
  rewrite parseIpAddress_loop_app, parseIpAddress_loop_dec_digits;
    [|lia|lia|simpl; lia|reflexivity].
  cbn -[dec_digits].
  rewrite parseIpAddress_loop_dec_digits; [|lia|lia|simpl; lia|reflexivity].
  reflexivity.
Qed.

Lemma parseIpAddress_loop_inv : forall p ip i ip' i',
  0 <= i <= 3 -> List.length ip = 4%nat ->
  parseIpAddress_loop p ip i = (true, ip', i') ->
  List.length ip' = 4%nat /\ 0 <= i' <= 3.
Proof.
  induction p as [|c p IH]; intros ip i ip' i' Hi Hlen H; simpl in H.
  - injection H as <- <-. auto.
  - destruct (c =? ch ".").
    + destruct (Z.geb_spec (i + 1) 4); [discriminate|].
      apply IH in H; auto; [lia|]. rewrite length_insert. exact Hlen.
    + destruct ((c <? ch "0") || (c >? ch "9")); [discriminate|].
      destruct ((byte_at ip i >=? 100) || ((byte_at ip i =? 25) && (c >? ch "5")));
        [discriminate|].
      apply IH in H; auto. rewrite !length_insert. exact Hlen.
Qed.

(** After a separator the octet about to be filled is 0. *)
Lemma parseIpAddress_loop_after_dot : forall p ip i ip' i',
  0 <= i <= 3 -> List.length ip = 4%nat ->
  parseIpAddress_loop (p ++ [ch "."]) ip i = (true, ip', i') ->
  byte_at ip' i' = 0 /\ List.length ip' = 4%nat /\ 0 <= i' <= 3.
Proof.
  intros p ip i ip' i' Hi Hlen H. rewrite parseIpAddress_loop_app in H.
  destruct (parseIpAddress_loop p ip i) as [[ok ip1] i1] eqn:Hp.
  destruct ok; [|discriminate].
  apply parseIpAddress_loop_inv in Hp as [Hlen1 Hi1]; auto.
  simpl in H. destruct (Z.geb_spec (i1 + 1) 4); [discriminate|].
  injection H as <- <-. split; [|split; [|lia]].
  - apply byte_at_insert_same; lia.
  - rewrite length_insert. exact Hlen1.
Qed.

(** An octet written 256 to 259 stops the loop. *)
Lemma parseIpAddress_loop_256 : forall d rest ip i,
  0 <= i -> (Z.to_nat i < List.length ip)%nat -> byte_at ip i = 0 ->
  ch "6" <= d <= ch "9" ->
  fst (fst (parseIpAddress_loop ([ch "2"; ch "5"; d] ++ rest) ip i)) = false.
Proof.
  intros d rest ip i Hi Hlen H0 Hd.
  rewrite parseIpAddress_loop_app.
  rewrite (parseIpAddress_loop_octet _ ip i 0); auto.
  - simpl. destruct (Z.gtb_spec d (ch "5")); [reflexivity|].
    unfold ch in *. simpl in *. lia.
  - repeat constructor. unfold is_digit.
    apply andb_true_intro. split; apply Z.leb_le; unfold ch in *; simpl in *; lia.
Qed.

(** C5, as stated, fails twice: "1.2" is accepted although it is not a
    dotted quad (the function has no check on the number of octets, nor on
    empty ones), and "260.1.1.1" is accepted although its first octet is
    above 255 (the test for a third digit only refuses 256 to 259). *)
Lemma parseIpAddress_accepts_more :
  fst (parseIpAddress (bytes_of_string "1.2") 0) = true /\
  is_dotted_quad (bytes_of_string "1.2") = false /\
  fst (parseIpAddress (bytes_of_string "260.1.1.1") 0) = true /\
  octet_value (bytes_of_string "260") >= 256 /\
  is_dotted_quad (bytes_of_string "260.1.1.1") = false.
Proof. vm_compute. repeat split; (reflexivity || discriminate). Qed.

(** C5, amended: [parseIpAddress] returns false whenever the characters it
    visits contain one that is neither a digit nor ".", a fourth "." (more
    than 4 octets), or an octet written 256 to 259 at the start or after a
    "."; it returns true, with the four octets, for every dotted quad of
    octets 0 to 255, whether the string ends after it or [len] does. *)
Theorem parseIpAddress_amended :
  forall str len,
    (forall c, In c (ip_chars str len) -> c <> ch "." -> is_digit c = false ->
               fst (parseIpAddress str len) = false) /\
    ((4 <= count_dots (ip_chars str len))%nat -> fst (parseIpAddress str len) = false) /\
    (forall pre d rest,
        ip_chars str len = pre ++ [ch "2"; ch "5"; d] ++ rest ->
        pre = [] \/ (exists pre', pre = pre' ++ [ch "."]) ->
        ch "6" <= d <= ch "9" ->
        fst (parseIpAddress str len) = false) /\
    (forall a b c d rest,
        0 <= a <= 255 -> 0 <= b <= 255 -> 0 <= c <= 255 -> 0 <= d <= 255 ->
        (str = dotted_quad a b c d /\ len = 0) \/
        (str = dotted_quad a b c d ++ rest /\
         len = Z.of_nat (List.length (dotted_quad a b c d))) ->
        parseIpAddress str len = (true, [a; b; c; d])).
Proof.
  intros str len. unfold parseIpAddress.
  refine (conj _ (conj _ (conj _ _))).
  - intros c Hin Hdot Hdig.
    destruct (fst (fst (parseIpAddress_loop (ip_chars str len) ip_zero 0))) eqn:E;
      [|reflexivity].
    apply parseIpAddress_loop_accepts in E as [HF _].
    rewrite Forall_forall in HF. apply list_elem_of_In in Hin.
    destruct (HF c Hin) as [H|H]; [contradiction|congruence].
  - intros Hcnt.
    destruct (fst (fst (parseIpAddress_loop (ip_chars str len) ip_zero 0))) eqn:E;
      [|reflexivity].
    apply parseIpAddress_loop_accepts in E as [_ [H|H]]; lia.
  - intros pre d rest Hstr Hpre Hd. rewrite Hstr.
    destruct Hpre as [->|[pre' ->]].
    + apply parseIpAddress_loop_256; auto; simpl; lia.
    + rewrite parseIpAddress_loop_app.
      destruct (parseIpAddress_loop (pre' ++ [ch "."]) ip_zero 0) as [[ok ip1] i1] eqn:Hp.
      destruct ok; [|reflexivity].
      apply parseIpAddress_loop_after_dot in Hp as (H0 & Hlen & Hi);
        [|lia|reflexivity].
      apply parseIpAddress_loop_256; auto; lia.
  - intros a b c d rest Ha Hb Hc Hd Hstr.
    assert (Hchars : ip_chars str len = dotted_quad a b c d).
    { pose proof (dotted_quad_chars a b c d Ha Hb Hc Hd) as HF.
      destruct Hstr as [[-> ->]|[-> ->]]; unfold ip_chars.
      - simpl. apply c_string_id, HF.
      - destruct (Z.eqb_spec (Z.of_nat (List.length (dotted_quad a b c d))) 0) as [E|_].
        + unfold dotted_quad in E. rewrite !length_app in E. simpl in E. lia.
        + rewrite Nat2Z.id, take_app_length. apply c_string_id, HF. }
    rewrite Hchars, parseIpAddress_loop_dotted_quad; auto.
Qed.

Lemma parseIpAddress_amended_witness :
  fst (parseIpAddress (bytes_of_string "1.2.3.x") 0) = false /\
  fst (parseIpAddress (bytes_of_string "1.2.3.4.5") 0) = false /\
  fst (parseIpAddress (bytes_of_string "1.258.3.4") 0) = false /\
  parseIpAddress (bytes_of_string "192.168.1.20 8080") 12 = (true, [192; 168; 1; 20]).
Proof.
  refine (conj _ (conj _ (conj _ _))).
  - apply (proj1 (parseIpAddress_amended (bytes_of_string "1.2.3.x") 0) (ch "x"));
      [simpl; tauto | discriminate | reflexivity].
  - apply (proj1 (proj2 (parseIpAddress_amended (bytes_of_string "1.2.3.4.5") 0))).
    vm_compute. lia.
  - apply (proj1 (proj2 (proj2 (parseIpAddress_amended (bytes_of_string "1.258.3.4") 0)))
             (bytes_of_string "1.") (ch "8") (bytes_of_string ".3.4"));
      [reflexivity | right; exists (bytes_of_string "1"); reflexivity
       | unfold ch; simpl; lia].
  - apply (proj2 (proj2 (proj2 (parseIpAddress_amended
                                  (bytes_of_string "192.168.1.20 8080") 12)))
             192 168 1 20 (bytes_of_string " 8080")); try lia.
    right. split; reflexivity.
Defined.

(** ** Commands: [writeCommand] *)

Lemma store_bytes_spec : forall xs buf k,
  (k + List.length xs <= List.length buf)%nat ->
  store_bytes buf k xs = take k buf ++ xs ++ drop (k + List.length xs) buf.
Proof.
  induction xs as [|x xs IH]; intros buf k Hlen; simpl in *.
  - rewrite Nat.add_0_r, take_drop. reflexivity.
  - rewrite IH; [|rewrite length_insert; lia].
    rewrite drop_insert_lt; [|lia].
    rewrite (take_S_r _ k x); [|apply list_lookup_insert_eq; lia].
    rewrite take_insert_ge; [|lia].
    rewrite <- app_assoc. simpl.
    replace (k + S (List.length xs))%nat with (S (k + List.length xs)) by lia.
    reflexivity.
Qed.

Lemma CRLF_bytes : bytes_of_string (String "013" (String "010" "")) = [13; 10].
Proof. reflexivity. Qed.

(** The buffer handed to [writeRaw] for a command that fits. *)
Lemma command_buffer_short : forall (formatted buf0 : list Z),
  (List.length formatted <= 125)%nat -> List.length buf0 = 128%nat ->
  take (S (S (List.length formatted)))
       (<[S (List.length formatted) := 10]>
          (<[List.length formatted := 13]>
             (store_bytes buf0 0 (formatted ++ [0]))))
  = formatted ++ [13; 10].
Proof.
  intros formatted buf0 Hn Hlen.
  rewrite store_bytes_spec; [|rewrite length_app; simpl; lia].
  rewrite length_app. simpl.
  destruct (drop (List.length formatted + 1) buf0) as [|y rest] eqn:Hd.
  { apply (f_equal List.length) in Hd. rewrite length_drop in Hd. simpl in Hd. lia. }
  rewrite <- app_assoc. simpl.
  rewrite insert_app_r_alt; [|lia]. rewrite Nat.sub_diag. simpl.
  rewrite insert_app_r_alt; [|lia].
  replace (S (List.length formatted) - List.length formatted)%nat with 1%nat by lia.
  simpl.
  rewrite take_app_ge; [|lia].
  replace (S (S (List.length formatted)) - List.length formatted)%nat with 2%nat by lia.
  reflexivity.
Qed.

(** The buffer handed to [writeRaw] for a command of more than 125 bytes. *)
Lemma command_buffer_long : forall (formatted buf0 : list Z),
  (125 < List.length formatted)%nat -> List.length buf0 = 128%nat ->
  exists x,
    take 128 (<[127%nat := 10]> (<[126%nat := 13]>
                (store_bytes buf0 0 (take 125 formatted ++ [0]))))
    = take 125 formatted ++ [x; 13; 10] /\
    take 126 (store_bytes buf0 0 (take 125 formatted ++ [0]))
    = take 125 formatted ++ [x].
Proof.
  intros formatted buf0 Hn Hlen.
  assert (Ht : List.length (take 125 formatted) = 125%nat) by (rewrite length_take; lia).
  rewrite store_bytes_spec; [|rewrite length_app; simpl; lia].
  rewrite length_app, Ht. simpl.
  destruct (drop 126 buf0) as [|y [|z [|w rest]]] eqn:Hd;
    apply (f_equal List.length) in Hd as Hd'; rewrite length_drop in Hd';
    simpl in Hd'; try lia.
  exists 0. rewrite <- app_assoc. simpl. split.
  - rewrite insert_app_r_alt; [|lia]. rewrite Ht. simpl.
    rewrite insert_app_r_alt; [|lia]. rewrite Ht. simpl.
    rewrite take_ge; [reflexivity|]. rewrite length_app, Ht. simpl. lia.
  - rewrite take_app_ge; [|lia]. rewrite Ht. reflexivity.
Qed.

Section Commands.
Context {hdr : Header}.

Lemma writeRaw_serial : forall fuel buf len s,
  serial (link s) = true -> unrecoverableError s = false ->
  writeRaw fuel buf len s = Some (tt, serial_write buf len s).
Proof.
  intros fuel buf len s Hser Herr. unfold writeRaw, bind, gets, modify.
  rewrite Hser, Herr. reflexivity.
Qed.

(** [writeCommand] up to its call of [writeRaw], with the local [buf] and
    [len] spelled out. *)
Lemma writeCommand_line : forall fuel (formatted buf0 : list Z) s,
  let n := Z.of_nat (List.length formatted) in
  let buf := store_bytes buf0 0 (take (Z.to_nat (Z.min n 125)) formatted ++ [0]) in
  let len := if n >? 126 then 126 else n in
  let s1 := if (n >? 126) && (GS_LOG_ERRORS && has_error s)
            then error_print (bytes_of_string "Command truncated: "
                                ++ take 126 buf ++ [13; 10]) s
            else s in
  writeCommand fuel formatted buf0 s =
    writeRaw fuel (<[Z.to_nat (len + 1) := 10]> (<[Z.to_nat len := 13]> buf))
             (len + 1 + 1) s1.
Proof.
  intros fuel formatted buf0 s n buf len s1.
  unfold writeCommand, vsnprintf.
  change (128 - 2 <=? 0) with false. cbv iota.
  change (128 - 2 - 1) with 125. change (128 - 2) with 126.
  fold n. fold buf. subst len s1.
  destruct (n >? 126).
  - unfold bind at 1. unfold bind at 1. unfold gets at 1. cbv beta iota.
    unfold when. destruct (GS_LOG_ERRORS && has_error s); simpl andb; cbv iota.
    + unfold bind at 1. unfold modify at 1. cbv beta iota. unfold ret at 1.
      reflexivity.
    + unfold bind at 1. unfold ret at 1. cbv beta iota. unfold ret at 1.
      reflexivity.
  - unfold bind at 1. unfold ret at 1. cbv beta iota. reflexivity.
Qed.

(** C9, amended: [writeCommand] hands to [writeRaw], and over a serial port
    with no fault latched writes to it, the command followed by "\r\n" when
    the command has at most 125 bytes; of a longer command the first 125
    bytes, then one more byte, then "\r\n", 128 bytes in all.  When the
    command is longer than 126 bytes and the error stream is in use, what
    precedes the "\r\n" is printed there after "Command truncated: ";
    otherwise nothing is printed. *)
Theorem writeCommand_sends_bounded_line :
  forall fuel (formatted buf0 : list Z) s,
    List.length buf0 = 128%nat ->
    exists buf len s1 sent,
      writeCommand fuel formatted buf0 s = writeRaw fuel buf len s1 /\
      sent = take (Z.to_nat len) buf /\
      ((List.length formatted <= 125)%nat -> sent = formatted ++ [13; 10]) /\
      ((125 < List.length formatted)%nat ->
         exists x, sent = take 125 formatted ++ [x; 13; 10]) /\
      (List.length sent <= 128)%nat /\
      s1 = (if (126 <? Z.of_nat (List.length formatted)) && (GS_LOG_ERRORS && has_error s)
            then error_print (bytes_of_string "Command truncated: "
                                ++ take 126 sent ++ [13; 10]) s
            else s) /\
      (serial (link s) = true -> unrecoverableError s = false ->
       exists s',
         writeCommand fuel formatted buf0 s = Some (tt, s') /\
         wire_out (world s') = wire_out (world s) ++ sent /\
         error_out (world s') = error_out (world s1)).
Proof.
  intros fuel formatted buf0 s Hlen.
  rewrite (writeCommand_line fuel formatted buf0 s).
  rewrite (Z.gtb_ltb (Z.of_nat (List.length formatted)) 126).
  match goal with
  | |- exists buf len s1 sent, writeRaw _ ?b ?l ?s0 = _ /\ _ =>
      exists b, l, s0, (take (Z.to_nat l) b)
  end.
  split; [reflexivity|]. split; [reflexivity|].
  assert (Hser : forall b l s0,
             serial (link s0) = serial (link s) ->
             unrecoverableError s0 = unrecoverableError s ->
             wire_out (world s0) = wire_out (world s) ->
             serial (link s) = true -> unrecoverableError s = false ->
             exists s', writeRaw fuel b l s0 = Some (tt, s') /\
                        wire_out (world s') = wire_out (world s) ++ take (Z.to_nat l) b /\
                        error_out (world s') = error_out (world s0)).
  { intros b l s0 E1 E2 E3 H1 H2. eexists. split.
    - apply writeRaw_serial; congruence.
    - unfold serial_write. cbn [world upd_world wire_out set_wire_out error_out].
      rewrite E3. auto. }
  destruct (Nat.le_gt_cases (List.length formatted) 125) as [Hn|Hn].
  - (* the command fits *)
    destruct (Z.ltb_spec 126 (Z.of_nat (List.length formatted))) as [|_]; [lia|].
    replace (Z.min (Z.of_nat (List.length formatted)) 125)
      with (Z.of_nat (List.length formatted)) by lia.
    rewrite !Nat2Z.id, (take_ge formatted); [|lia].
    replace (Z.to_nat (Z.of_nat (List.length formatted) + 1))
      with (S (List.length formatted)) by lia.
    replace (Z.to_nat (Z.of_nat (List.length formatted) + 1 + 1))
      with (S (S (List.length formatted))) by lia.
    rewrite command_buffer_short; auto. cbn [andb].
    refine (conj (fun _ => eq_refl) (conj _ (conj _ (conj eq_refl _)))).
    + intros H. lia.
    + rewrite length_app. simpl. lia.
    + intros H1 H2.
      destruct (Hser (<[S (List.length formatted) := 10]>
                        (<[List.length formatted := 13]>
                           (store_bytes buf0 0 (formatted ++ [0]))))
                     (Z.of_nat (List.length formatted) + 1 + 1) s
                     eq_refl eq_refl eq_refl H1 H2) as (s' & Hrun & Hout & Herr).
      exists s'. split; [exact Hrun|]. split; [|exact Herr].
      rewrite Hout.
      replace (Z.to_nat (Z.of_nat (List.length formatted) + 1 + 1))
        with (S (S (List.length formatted))) by lia.
      rewrite command_buffer_short; auto.
  - (* the command is cut *)
    replace (Z.min (Z.of_nat (List.length formatted)) 125) with 125 by lia.
    change (Z.to_nat 125) with 125%nat.
    destruct (command_buffer_long formatted buf0 Hn Hlen) as (x & Hbuf & Hlog).
    assert (Hsent126 : take 126 (take 125 formatted ++ [x; 13; 10]) = take 125 formatted ++ [x]).
    { rewrite take_app_ge; rewrite length_take; [|lia].
      replace (126 - 125 `min` List.length formatted)%nat with 1%nat by lia. reflexivity. }
    assert (Hl : (if 126 <? Z.of_nat (List.length formatted) then 126
                  else Z.of_nat (List.length formatted)) = 126).
    { destruct (Z.ltb_spec 126 (Z.of_nat (List.length formatted))); lia. }
    rewrite Hl. change (Z.to_nat (126 + 1)) with 127%nat.
    change (Z.to_nat 126) with 126%nat. change (126 + 1 + 1) with 128.
    change (Z.to_nat 128) with 128%nat. rewrite Hbuf, Hsent126, Hlog.
    refine (conj _ (conj (fun _ => ex_intro _ x eq_refl) (conj _ (conj eq_refl _)))).
    + intros H. lia.
    + rewrite length_app, length_take. cbn [List.length]. lia.
    + intros H1 H2.
      match goal with
      | |- exists s', writeRaw _ ?b ?l ?s0 = _ /\ _ =>
          destruct (Hser b l s0) as (s' & Hrun & Hout & Herr); auto
      end.
      1-3: destruct ((126 <? Z.of_nat (List.length formatted))
                     && (GS_LOG_ERRORS && has_error s)); reflexivity.
      exists s'. split; [exact Hrun|]. split; [|exact Herr].
      rewrite Hout. change (Z.to_nat 128) with 128%nat. rewrite Hbuf. reflexivity.
Qed.

End Commands.

(** C9, as stated, fails: a command of 127 bytes is not sent whole.  Over a
    serial port 125 of its bytes go out, then a NUL, then "\r\n". *)
Lemma writeCommand_cuts_before_127 :
  exists s',
    writeCommand (hdr := avr_header) 0 (repeat (ch "A") 127) (repeat 0 128) core0 = Some (tt, s') /\
    wire_out (world s') = repeat (ch "A") 125 ++ [0; 13; 10] /\
    wire_out (world s') <> repeat (ch "A") 127 ++ [13; 10].
Proof.
  eexists. split; [vm_compute; reflexivity|].
  split; [vm_compute; reflexivity|vm_compute; discriminate].
Qed.

Lemma writeCommand_sends_bounded_line_witness :
  exists s',
    writeCommand (hdr := avr_header) 0 (bytes_of_string "AT+NSTAT=?") (repeat 0 128) core0
      = Some (tt, s') /\
    wire_out (world s') = bytes_of_string "AT+NSTAT=?" ++ [13; 10].
Proof.
  destruct (writeCommand_sends_bounded_line (hdr := avr_header) 0
              (bytes_of_string "AT+NSTAT=?") (repeat 0 128) core0 eq_refl)
    as (buf & len & s1 & sent & _ & _ & Hshort & _ & _ & _ & Hser).
  destruct (Hser eq_refl eq_refl) as (s' & Hrun & Hout & _).
  exists s'. split; [exact Hrun|].
  rewrite Hout, Hshort; [reflexivity|]. simpl. lia.
Defined.

(** ** The ring buffer *)

(** ** Running member functions *)

Lemma bind_gets : forall A B (f : GSCore -> A) (k : A -> M B) s,
  bind (gets f) k s = k (f s) s.
Proof. reflexivity. Qed.

Lemma bind_modify : forall B (f : GSCore -> GSCore) (k : unit -> M B) s,
  bind (modify f) k s = k tt (f s).
Proof. reflexivity. Qed.

Lemma bind_ret : forall A B (a : A) (k : A -> M B) s,
  bind (ret a) k s = k a s.
Proof. reflexivity. Qed.

Lemma bind_lift : forall A B (f : GSCore -> A * GSCore) (k : A -> M B) s,
  bind (lift f) k s = k (fst (f s)) (snd (f s)).
Proof. intros. unfold bind, lift. destruct (f s). reflexivity. Qed.

Lemma bind_bind : forall A B C (m : M A) (k : A -> M B) (k' : B -> M C) s,
  bind (bind m k) k' s = bind m (fun a => bind (k a) k') s.
Proof. intros. unfold bind. destruct (m s) as [[a s']|]; reflexivity. Qed.

Lemma bind_run : forall A B (m : M A) (k : A -> M B) s a s',
  m s = Some (a, s') -> bind m k s = k a s'.
Proof. intros A B m k s a s' H. unfold bind. rewrite H. reflexivity. Qed.

(** One step of a computation in [M]. *)
Ltac mstep :=
  first [ rewrite bind_gets | rewrite bind_modify | rewrite bind_ret
        | rewrite bind_lift | rewrite bind_bind ];
  cbn [negb andb orb fst snd].

Section RingBuffer.
Context {hdr : Header} {ok : HeaderOk hdr}.
Variable processIncoming_rec : Z -> M bool.
Variable fuel : nat.

Lemma rx_data_size_ge : 2 < RX_DATA_SIZE.
Proof.
  pose proof frame_size_pos. pose proof frame_size_fits. lia.
Qed.

Lemma ring_full_not_empty : forall s,
  ring_ok s -> ring_full s -> rx_data_tail (ring s) <> rx_data_head (ring s).
Proof.
  intros s (_ & Hh & Ht & _) Hfull Heq. unfold ring_full in Hfull.
  pose proof rx_data_size_ge as HN. rewrite Heq in Hfull.
  destruct (Z.eq_dec (rx_data_head (ring s) + 1) RX_DATA_SIZE) as [E|E].
  - rewrite E, Z.mod_same in Hfull; lia.
  - rewrite Z.mod_small in Hfull; lia.
Qed.

(** With bytes left in [tail_frame], [getFrameHeader(ANY_CID)] is
    [tail_frame] and changes nothing. *)
Lemma getFrameHeader_pending : forall s,
  fr_length (tail_frame (ring s)) <> 0 ->
  getFrameHeader processIncoming_rec fuel ANY_CID s = Some (tail_frame (ring s), s).
Proof.
  intros s Hlen. unfold getFrameHeader.
  mstep.
  destruct (Z.eqb_spec (fr_length (tail_frame (ring s))) 0); [contradiction|].
  mstep. mstep.
  rewrite Z.eqb_refl. reflexivity.
Qed.

(** [getData] when the ring is not empty. *)
Lemma getData_buffered : forall s,
  rx_data_tail (ring s) <> rx_data_head (ring s) ->
  getData s =
    (byte_at (rx_data (ring s)) (rx_data_tail (ring s)),
     upd_ring dec_tail_length
       (upd_ring (fun r => set_rx_data_tail ((rx_data_tail r + 1) mod RX_DATA_SIZE) r) s)).
Proof.
  intros s Hne. unfold getData.
  destruct (Z.eqb_spec (rx_data_tail (ring s)) (rx_data_head (ring s))); [contradiction|].
  reflexivity.
Qed.

Lemma byte_at_range : forall (l : list Z) i,
  Forall (fun b => 0 <= b < 256) l -> 0 <= byte_at l i < 256.
Proof.
  intros l i H. unfold byte_at. destruct (i <? 0); [lia|].
  destruct (l !! Z.to_nat i) as [b|] eqn:E; simpl; [|lia].
  rewrite Forall_forall in H. apply H. eapply list_elem_of_lookup_2. exact E.
Qed.

(** With [tail_frame] used up and the ring not empty, [getFrameHeader]
    loads the next frame record. *)
Lemma getFrameHeader_load : forall s,
  fr_length (tail_frame (ring s)) = 0 ->
  rx_data_tail (ring s) <> rx_data_head (ring s) ->
  getFrameHeader processIncoming_rec fuel ANY_CID s =
    Some (tail_frame (ring (loadFrameHeader s)), loadFrameHeader s).
Proof.
  intros s Hlen Hne. unfold getFrameHeader.
  mstep. rewrite Hlen. change (0 =? 0) with true. cbv iota.
  repeat mstep. unfold ring_empty.
  destruct (Z.eqb_spec (rx_data_head (ring s)) (rx_data_tail (ring s))) as [E|_];
    [symmetry in E; contradiction|].
  cbn [negb]. repeat mstep. rewrite Z.eqb_refl. reflexivity.
Qed.

(** Dropping one byte, once [getFrameHeader] has settled on the state [s1]
    whose tail frame has bytes left in the ring. *)
Lemma dropData_one_from : forall s s1,
  getFrameHeader processIncoming_rec fuel ANY_CID s = Some (tail_frame (ring s1), s1) ->
  Forall (fun b => 0 <= b < 256) (rx_data (ring s1)) ->
  rx_data_tail (ring s1) <> rx_data_head (ring s1) ->
  0 < fr_length (tail_frame (ring s1)) ->
  valid_cid (fr_cid (tail_frame (ring s1))) ->
  dropData processIncoming_rec fuel 1 s =
    Some (tt, upd_connection (fr_cid (tail_frame (ring s1))) (set_error true)
                (upd_ring dec_tail_length
                   (upd_ring (fun r => set_rx_data_tail
                                         ((rx_data_tail r + 1) mod RX_DATA_SIZE) r) s1))).
Proof.
  intros s s1 Hget Hbytes Hne Hlen Hcid. unfold dropData.
  change (Z.to_nat (u8 1)) with 1%nat.
  unfold dropData_loop, readData_any.
  repeat mstep.
  rewrite (bind_run _ _ _ _ _ _ _ Hget).
  rewrite (frame_bool_pending _ Hlen Hcid). cbn [negb].
  repeat mstep. rewrite (getData_buffered s1 Hne). cbn [fst snd].
  pose proof (byte_at_range (rx_data (ring s1)) (rx_data_tail (ring s1)) Hbytes) as Hb.
  destruct (Z.geb_spec (byte_at (rx_data (ring s1)) (rx_data_tail (ring s1))) 0); [|lia].
  repeat mstep.
  destruct (Z.geb_spec (byte_at (rx_data (ring s1)) (rx_data_tail (ring s1))) 0); [|lia].
  repeat mstep. reflexivity.
Qed.

(** The state [bufferIncomingData] leaves when the ring was full. *)
Lemma bufferIncomingData_full_run : forall c s s1,
  ring_full s ->
  getFrameHeader processIncoming_rec fuel ANY_CID s = Some (tail_frame (ring s1), s1) ->
  Forall (fun b => 0 <= b < 256) (rx_data (ring s1)) ->
  rx_data_tail (ring s1) <> rx_data_head (ring s1) ->
  0 < fr_length (tail_frame (ring s1)) ->
  valid_cid (fr_cid (tail_frame (ring s1))) ->
  bufferIncomingData processIncoming_rec fuel c s =
    Some (tt,
          upd_ring (set_rx_data_head (rx_data_tail (ring s)))
            (upd_ring (fun r => set_rx_data
                                  (<[Z.to_nat (rx_data_head r) := u8 c]> (rx_data r)) r)
               (upd_connection (fr_cid (tail_frame (ring s1))) (set_error true)
                  (upd_ring dec_tail_length
                     (upd_ring (fun r => set_rx_data_tail
                                           ((rx_data_tail r + 1) mod RX_DATA_SIZE) r) s1))))).
Proof.
  intros c s s1 Hfull Hget Hbytes Hne Hlen Hcid.
  unfold bufferIncomingData.
  repeat mstep. unfold ring_full in Hfull. rewrite Hfull, Z.eqb_refl. unfold when.
  rewrite (bind_run _ _ _ _ _ _ _ (dropData_one_from s s1 Hget Hbytes Hne Hlen Hcid)).
  repeat mstep. reflexivity.
Qed.

Lemma mod_succ_cases : forall x n,
  0 <= x < n -> ((x + 1) mod n = x + 1 /\ x + 1 < n) \/ ((x + 1) mod n = 0 /\ x + 1 = n).
Proof.
  intros x n Hx. destruct (Z.eq_dec (x + 1) n) as [E|E].
  - right. rewrite E, Z.mod_same; lia.
  - left. rewrite Z.mod_small; lia.
Qed.

(** C2, amended: when the ring is full, [bufferIncomingData] first drops
    the oldest byte of the tail frame (the tail moves on by one,
    [tail_frame.length] shrinks by one, and the connection of the tail frame
    gets its error flag, no other connection being touched) and then stores
    the new byte at the head, which moves on to where the tail was.  When the
    tail frame has bytes left this leaves the ring full again, with
    [RX_DATA_SIZE - 1] bytes; when the tail frame is used up, the frame record
    at the tail is loaded as the new tail frame first, and the byte dropped
    is the first one of that frame. *)
Theorem bufferIncomingData_full_drops_oldest :
  forall c s,
    ring_ok s -> table_ok s -> ring_full s ->
    (0 < fr_length (tail_frame (ring s)) < 65536 ->
     valid_cid (fr_cid (tail_frame (ring s))) ->
     exists s',
       bufferIncomingData processIncoming_rec fuel c s = Some (tt, s') /\
       rx_data_tail (ring s') = (rx_data_tail (ring s) + 1) mod RX_DATA_SIZE /\
       tail_frame (ring s') =
         set_fr_length (fr_length (tail_frame (ring s)) - 1) (tail_frame (ring s)) /\
       error (connection (fr_cid (tail_frame (ring s))) s') = true /\
       (forall cid, 0 <= cid -> cid <> fr_cid (tail_frame (ring s)) ->
                    connection cid s' = connection cid s) /\
       rx_data (ring s') =
         <[Z.to_nat (rx_data_head (ring s)) := u8 c]> (rx_data (ring s)) /\
       rx_data_head (ring s') = rx_data_tail (ring s) /\
       head_frame (ring s') = head_frame (ring s) /\
       occupancy s' = RX_DATA_SIZE - 1) /\
    (fr_length (tail_frame (ring s)) = 0 ->
     rx_data_tail (ring (loadFrameHeader s)) <> rx_data_head (ring s) ->
     0 < fr_length (tail_frame (ring (loadFrameHeader s))) < 65536 ->
     valid_cid (fr_cid (tail_frame (ring (loadFrameHeader s)))) ->
     exists s',
       bufferIncomingData processIncoming_rec fuel c s = Some (tt, s') /\
       rx_data_tail (ring s') =
         (rx_data_tail (ring (loadFrameHeader s)) + 1) mod RX_DATA_SIZE /\
       tail_frame (ring s') =
         set_fr_length (fr_length (tail_frame (ring (loadFrameHeader s))) - 1)
                       (tail_frame (ring (loadFrameHeader s))) /\
       error (connection (fr_cid (tail_frame (ring (loadFrameHeader s)))) s') = true /\
       (forall cid, 0 <= cid -> cid <> fr_cid (tail_frame (ring (loadFrameHeader s))) ->
                    connection cid s' = connection cid s) /\
       rx_data (ring s') =
         <[Z.to_nat (rx_data_head (ring s)) := u8 c]> (rx_data (ring s)) /\
       rx_data_head (ring s') = rx_data_tail (ring s) /\
       head_frame (ring s') = head_frame (ring s)).
Proof.
  intros c s Hok Htab Hfull.
  pose proof (ring_full_not_empty s Hok Hfull) as Hne.
  assert (Hbytes : Forall (fun b => 0 <= b < 256) (rx_data (ring s)))
    by (destruct Hok as (_ & _ & _ & H); exact H).
  split.
  - intros Hlen Hcid. eexists. split.
    { apply (bufferIncomingData_full_run c s s);
        [ exact Hfull | apply getFrameHeader_pending; lia | exact Hbytes
        | exact Hne | lia | exact Hcid ]. }
    cbn [ring upd_ring upd_connection upd_net rx_data_tail set_rx_data_tail set_rx_data
         set_rx_data_head dec_tail_length tail_frame set_tail_frame rx_data rx_data_head
         head_frame].
    refine (conj eq_refl (conj _ (conj _ (conj _ (conj eq_refl (conj eq_refl (conj eq_refl _))))))).
    + unfold u16. rewrite Z.mod_small; [reflexivity|lia].
    + match goal with
      | |- error (connection ?cid (upd_ring ?f1 (upd_ring ?f2 (upd_connection ?cid ?g ?s0)))) = true =>
          change (error (connection cid (upd_connection cid g s0)) = true)
      end.
      rewrite connection_upd_same; [reflexivity|exact Hcid|exact Htab].
    + intros cid Hc Hne'.
      match goal with
      | |- connection cid (upd_ring ?f1 (upd_ring ?f2 (upd_connection ?cid0 ?g ?s0))) = _ =>
          change (connection cid (upd_connection cid0 g s0) = connection cid s)
      end.
      rewrite connection_upd_other; [reflexivity| |exact Hc|auto].
      destruct Hcid; assumption.
    + unfold occupancy. cbn [ring upd_ring rx_data_head rx_data_tail set_rx_data_head
                              set_rx_data set_rx_data_tail upd_connection upd_net
                              dec_tail_length set_tail_frame].
      destruct Hok as (_ & Hh & Ht & _).
      destruct (mod_succ_cases (rx_data_tail (ring s)) RX_DATA_SIZE Ht) as [[E Hlt]|[E Heq]];
        rewrite E.
      * replace (rx_data_tail (ring s) - (rx_data_tail (ring s) + 1)) with (-1) by lia.
        rewrite <- (Z.mod_add _ 1); [|lia]. rewrite Z.mod_small; lia.
      * rewrite Z.sub_0_r, Z.mod_small; lia.
  - intros Hzero Hne1 Hlen Hcid.
    assert (Hdata : rx_data (ring (loadFrameHeader s)) = rx_data (ring s)).
    { unfold loadFrameHeader.
      destruct (RX_DATA_SIZE - rx_data_tail (ring s) <? FRAME_SIZE); reflexivity. }
    assert (Hhead : rx_data_head (ring (loadFrameHeader s)) = rx_data_head (ring s)).
    { unfold loadFrameHeader.
      destruct (RX_DATA_SIZE - rx_data_tail (ring s) <? FRAME_SIZE); reflexivity. }
    assert (Hhf : head_frame (ring (loadFrameHeader s)) = head_frame (ring s)).
    { unfold loadFrameHeader.
      destruct (RX_DATA_SIZE - rx_data_tail (ring s) <? FRAME_SIZE); reflexivity. }
    assert (Hconn : forall cid, connection cid (loadFrameHeader s) = connection cid s).
    { intros cid. unfold loadFrameHeader.
      destruct (RX_DATA_SIZE - rx_data_tail (ring s) <? FRAME_SIZE); reflexivity. }
    assert (Htab1 : table_ok (loadFrameHeader s)).
    { unfold loadFrameHeader.
      destruct (RX_DATA_SIZE - rx_data_tail (ring s) <? FRAME_SIZE); exact Htab. }
    eexists. split.
    { apply (bufferIncomingData_full_run c s (loadFrameHeader s));
        [ exact Hfull | apply getFrameHeader_load; auto | rewrite Hdata; exact Hbytes
        | rewrite Hhead; exact Hne1 | lia | exact Hcid ]. }
    cbn [ring upd_ring upd_connection upd_net rx_data_tail set_rx_data_tail set_rx_data
         set_rx_data_head dec_tail_length tail_frame set_tail_frame rx_data rx_data_head
         head_frame].
    rewrite Hdata, Hhead, Hhf.
    refine (conj eq_refl (conj _ (conj _ (conj _ (conj eq_refl (conj eq_refl eq_refl)))))).
    + unfold u16. rewrite Z.mod_small; [reflexivity|lia].
    + match goal with
      | |- error (connection ?cid (upd_ring ?f1 (upd_ring ?f2 (upd_connection ?cid ?g ?s0)))) = true =>
          change (error (connection cid (upd_connection cid g s0)) = true)
      end.
      rewrite connection_upd_same; [reflexivity|exact Hcid|exact Htab1].
    + intros cid Hc Hne'.
      match goal with
      | |- connection cid (upd_ring ?f1 (upd_ring ?f2 (upd_connection ?cid0 ?g ?s0))) = _ =>
          change (connection cid (upd_connection cid0 g s0) = connection cid s)
      end.
      rewrite connection_upd_other; [apply Hconn| |exact Hc|auto].
      destruct Hcid; assumption.
Qed.

End RingBuffer.

(** ** The header instance *)

Lemma avr_header_ok : HeaderOk avr_header.
Proof.
  constructor; simpl; try lia.
  - exists 8. split; [lia|reflexivity].
  - exists 8. split; [lia|reflexivity].
  - intros [cid len udp ipv port] (Hc & Hl & Hp & Hlen & Hip). simpl in *.
    unfold frame_of_bytes_packed, frame_bytes_packed.
    destruct ipv as [|a [|b [|c [|d [|e ipv]]]]]; try discriminate.
    change (mkRXFrame cid (len mod 256 + 256 * (len / 256))
                      (negb ((if udp then 1 else 0) =? 0)) [a; b; c; d]
                      (port mod 256 + 256 * (port / 256))
            = mkRXFrame cid len udp [a; b; c; d] port).
    f_equal.
    + pose proof (Z.div_mod len 256). lia.
    + destruct udp; reflexivity.
    + pose proof (Z.div_mod port 256). lia.
Qed.

Lemma forallb_bytes : forall l,
  forallb (fun b => (0 <=? b) && (b <? 256)) l = true ->
  Forall (fun b => 0 <= b < 256) l.
Proof.
  intros l H. rewrite forallb_forall in H. apply Forall_forall. intros x Hx.
  apply list_elem_of_In in Hx. apply H in Hx. apply andb_prop in Hx as [H1 H2].
  apply Z.leb_le in H1. apply Z.ltb_lt in H2. lia.
Qed.

(** C2, as stated, fails: in the state [exhausted_tail_full] the ring is
    full and the tail is at 2, with nothing left of the tail frame; the byte
    that arrives next moves the tail to 13, past the frame record queued
    there, not to 3, and it is the length of the frame loaded from that
    record that shrinks, from 300 to 299. *)
Lemma bufferIncomingData_full_loads_header :
  exists s s',
    exhausted_tail_full = Some s /\
    ring_full (hdr := avr_header) s /\
    rx_data_tail (ring s) = 2 /\
    fr_length (tail_frame (ring s)) = 0 /\
    bufferIncomingData (hdr := avr_header) (processIncoming (hdr := avr_header) 4) 4
                       (ch "q") s = Some (tt, s') /\
    rx_data_tail (ring s') = 13 /\
    rx_data_tail (ring s') <> (rx_data_tail (ring s) + 1) mod 256 /\
    fr_length (tail_frame (ring s')) = 299 /\
    error (connection 2 s') = true.
Proof.
  eexists. eexists. split; [vm_compute; reflexivity|].
  split; [vm_compute; reflexivity|].
  split; [reflexivity|]. split; [reflexivity|].
  split; [vm_compute; reflexivity|].
  split; [reflexivity|]. split; [vm_compute; discriminate|].
  split; reflexivity.
Qed.

Lemma bufferIncomingData_full_drops_oldest_witness :
  exists s',
    bufferIncomingData (hdr := avr_header) (processIncoming (hdr := avr_header) 4) 4
                       (ch "q") full_ring = Some (tt, s') /\
    rx_data_tail (ring s') = 1 /\
    fr_length (tail_frame (ring s')) = 299 /\
    error (connection 1 s') = true.
Proof.
  assert (Hok : ring_ok (hdr := avr_header) full_ring).
  { split; [reflexivity|]. split; [vm_compute; split; [discriminate|reflexivity]|].
    split; [vm_compute; split; [discriminate|reflexivity]|].
    apply forallb_bytes. vm_compute. reflexivity. }
  assert (Htab : table_ok full_ring) by reflexivity.
  assert (Hfull : ring_full (hdr := avr_header) full_ring) by reflexivity.
  destruct (bufferIncomingData_full_drops_oldest (hdr := avr_header) (ok := avr_header_ok)
              (processIncoming (hdr := avr_header) 4) 4 (ch "q") full_ring Hok Htab Hfull)
    as [H _].
  destruct H as (s' & Hrun & Htail & Hframe & Herr & _).
  - vm_compute. split; reflexivity.
  - vm_compute. split; discriminate.
  - exists s'. split; [exact Hrun|]. split; [exact Htail|].
    split; [rewrite Hframe; reflexivity|exact Herr].
Defined.

(** ** Queueing a frame header: [bufferFrameHeader] *)

Section FrameQueue.
Context {hdr : Header} {ok : HeaderOk hdr}.
Variable processIncoming_rec : Z -> M bool.
Variable fuel : nat.

(** On an empty ring the frame becomes the tail frame and the ring stays
    empty. *)
Lemma bufferFrameHeader_empty : forall s,
  rx_data_head (ring s) = rx_data_tail (ring s) ->
  bufferFrameHeader processIncoming_rec fuel s =
    Some (tt, upd_ring (fun r => set_tail_frame (head_frame r) r) s).
Proof.
  intros s He. unfold bufferFrameHeader. mstep. unfold ring_empty.
  rewrite He, Z.eqb_refl. reflexivity.
Qed.

(** With room before the end of the array and before the tail, the record
    is stored at the head. *)
Lemma bufferFrameHeader_fits : forall s,
  rx_data_head (ring s) <> rx_data_tail (ring s) ->
  rx_data_head (ring s) <= RX_DATA_SIZE - FRAME_SIZE ->
  FRAME_SIZE <= u8 ((rx_data_tail (ring s) - rx_data_head (ring s) - 1) mod RX_DATA_SIZE) ->
  bufferFrameHeader processIncoming_rec fuel s =
    Some (tt,
          upd_ring (fun r => set_rx_data_head ((rx_data_head r + FRAME_SIZE) mod RX_INDEX_MOD) r)
            (upd_ring (fun r => set_rx_data
                                  (store_bytes (rx_data r) (Z.to_nat (rx_data_head r))
                                               (frame_bytes (head_frame r))) r) s)).
Proof.
  intros s Hne Hfit Hfree. unfold bufferFrameHeader. mstep. unfold ring_empty.
  destruct (Z.eqb_spec (rx_data_head (ring s)) (rx_data_tail (ring s))); [contradiction|].
  repeat mstep.
  destruct (Z.gtb_spec (rx_data_head (ring s)) (RX_DATA_SIZE - FRAME_SIZE)); [lia|].
  unfold when at 1. repeat mstep.
  destruct (Z.ltb_spec
              (u8 ((rx_data_tail (ring s) - rx_data_head (ring s) - 1) mod RX_DATA_SIZE))
              FRAME_SIZE); [lia|].
  unfold when. repeat mstep. reflexivity.
Qed.

(** When the record would straddle the end of the array and the tail lies
    between the head and that end, that is, when unread bytes wrap round to
    index 0, the head is moved to 0 with nothing dropped: the byte count
    handed to [dropData] is [rx_data_tail - rx_data_tail]. *)
Lemma bufferFrameHeader_wrap_no_drop : forall s,
  RX_DATA_SIZE - FRAME_SIZE < rx_data_head (ring s) ->
  rx_data_head (ring s) < rx_data_tail (ring s) ->
  FRAME_SIZE <= u8 ((rx_data_tail (ring s) - 0 - 1) mod RX_DATA_SIZE) ->
  bufferFrameHeader processIncoming_rec fuel s =
    Some (tt,
          upd_ring (set_rx_data_head ((0 + FRAME_SIZE) mod RX_INDEX_MOD))
            (upd_ring (fun r => set_rx_data
                                  (store_bytes (rx_data r) 0 (frame_bytes (head_frame r))) r)
               s)).
Proof.
  intros s Hwrap Htail Hfree.
  pose proof frame_size_pos as HF. pose proof frame_size_fits as HN.
  unfold bufferFrameHeader. mstep. unfold ring_empty.
  destruct (Z.eqb_spec (rx_data_head (ring s)) (rx_data_tail (ring s))); [lia|].
  repeat mstep.
  destruct (Z.gtb_spec (rx_data_head (ring s)) (RX_DATA_SIZE - FRAME_SIZE)); [|lia].
  unfold when at 1. repeat mstep.
  destruct (Z.gtb_spec (rx_data_tail (ring s)) (rx_data_head (ring s))); [|lia].
  unfold when at 1. rewrite Z.sub_diag.
  unfold dropData at 1. change (Z.to_nat (u8 0)) with 0%nat. cbn [dropData_loop].
  repeat mstep.
  destruct (Z.eqb_spec (rx_data_tail (ring s)) 0); [lia|].
  unfold when at 1. repeat mstep.
  cbn [ring upd_ring rx_data_head rx_data_tail set_rx_data_head].
  destruct (Z.ltb_spec (u8 ((rx_data_tail (ring s) - 0 - 1) mod RX_DATA_SIZE)) FRAME_SIZE);
    [lia|].
  unfold when. repeat mstep. reflexivity.
Qed.

(** A record stored in the ring is what [loadFrameHeader] reads back. *)
Lemma frame_record_roundtrip : forall (data : list Z) h f,
  frame_wf f -> (h + Z.to_nat FRAME_SIZE <= List.length data)%nat ->
  frame_of_bytes (take (Z.to_nat FRAME_SIZE) (drop h (store_bytes data h (frame_bytes f)))) = f.
Proof.
  intros data h f Hwf Hroom. pose proof (frame_bytes_length f) as Hlen.
  rewrite store_bytes_spec; [|lia].
  rewrite drop_app_length'; [|rewrite length_take; lia].
  rewrite take_app_length'; [|lia].
  apply frame_roundtrip, Hwf.
Qed.

End FrameQueue.

(** C6 at the failing input: in [wrapped_ring] 254 unread bytes of CID 2
    lie from index 252 round to index 249, and nothing has been dropped.
    Queueing the next frame header moves the head from 250 to 0 and writes
    the record over the unread bytes at 0 to 9.  No byte is dropped from the
    tail: the tail stays at 252, the tail frame still counts 254 bytes, no
    error flag is set; yet only 14 bytes are left in the ring, 10 of them
    the record. *)
Theorem bufferFrameHeader_relocation_overwrites_unread :
  exists s s',
    wrapped_ring = Some s /\
    rx_data_head (ring s) = 250 /\ rx_data_tail (ring s) = 252 /\
    occupancy (hdr := avr_header) s = 254 /\
    fr_length (tail_frame (ring s)) = 254 /\
    bufferFrameHeader (hdr := avr_header) (processIncoming (hdr := avr_header) 4) 4
                      (upd_ring (set_head_frame frame_3) s) = Some (tt, s') /\
    rx_data_tail (ring s') = 252 /\
    tail_frame (ring s') = tail_frame (ring s) /\
    connections (net s') = connections (net s) /\
    error (connection 2 s') = false /\
    rx_data_head (ring s') = 10 /\
    take 10 (rx_data (ring s')) = frame_bytes (Header := avr_header) frame_3 /\
    take 10 (rx_data (ring s)) = repeat (ch "b") 10 /\
    occupancy (hdr := avr_header) s' = 14.
Proof.
  eexists. eexists. split; [vm_compute; reflexivity|].
  repeat (split; [vm_compute; reflexivity|]). vm_compute. reflexivity.
Qed.

(** ** The reply buffer: [readResponseInternal] *)

Lemma memmove_down_one : forall (buf : list Z) ls read,
  0 < ls <= read -> read <= Z.of_nat (List.length buf) ->
  memmove buf (ls - 1) ls (read - ls) =
    take (Z.to_nat (ls - 1)) buf
    ++ take (Z.to_nat (read - ls)) (drop (Z.to_nat ls) buf)
    ++ drop (Z.to_nat (read - 1)) buf.
Proof.
  intros buf ls read Hls Hread. unfold memmove.
  assert (Hlen : List.length (take (Z.to_nat (read - ls)) (drop (Z.to_nat ls) buf))
                 = Z.to_nat (read - ls)).
  { rewrite length_take, length_drop. lia. }
  rewrite store_bytes_spec; [|rewrite Hlen; lia].
  rewrite Hlen. do 3 f_equal. lia.
Qed.

Section ReplyBuffer.
Context {hdr : Header}.

(** The buffer is full and the line is too long for a reply: the byte is
    discarded and the line marked to be skipped. *)
Lemma resp_store_long_line : forall len c l,
  len <= r_read l ->
  MAX_RESPONSE_SIZE <= r_read l - r_line_start l ->
  resp_store len c l = mkResp (r_buf l) (r_read l) (r_line_start l) true true.
Proof.
  intros len c l Hfull Hlong. unfold resp_store.
  destruct (Z.ltb_spec (r_read l) len); [lia|].
  destruct (Z.geb_spec (r_read l - r_line_start l) MAX_RESPONSE_SIZE); [reflexivity|lia].
Qed.

(** The buffer is full and the line may still be a reply: the last byte
    kept before the line is given up and the line moves down by one. *)
Lemma resp_store_evicts_last : forall len c l,
  resp_wf len l -> len <= r_read l ->
  r_read l - r_line_start l < MAX_RESPONSE_SIZE ->
  0 < r_line_start l ->
  r_line_start (resp_store len c l) = r_line_start l - 1 /\
  r_read (resp_store len c l) = r_read l /\
  r_dropped_data (resp_store len c l) = true /\
  r_skip_line (resp_store len c l) = r_skip_line l /\
  kept (resp_store len c l) = take (Z.to_nat (r_line_start l - 1)) (kept l) /\
  take (Z.to_nat (r_read l - r_line_start l))
       (drop (Z.to_nat (r_line_start l - 1)) (r_buf (resp_store len c l)))
    = take (Z.to_nat (r_read l - r_line_start l))
           (drop (Z.to_nat (r_line_start l)) (r_buf l)).
Proof.
  intros len c l (Hls & Hread & Hcap & Hlen) Hfull Hshort Hpos.
  unfold resp_store, kept.
  destruct (Z.ltb_spec (r_read l) len); [lia|].
  destruct (Z.geb_spec (r_read l - r_line_start l) MAX_RESPONSE_SIZE); [lia|].
  destruct (Z.gtb_spec (r_line_start l) 0); [|lia].
  cbn [r_line_start r_read r_dropped_data r_skip_line r_buf].
  assert (Hu : u16 (r_line_start l - 1) = r_line_start l - 1)
    by (unfold u16; rewrite Z.mod_small; lia).
  rewrite Hu.
  refine (conj eq_refl (conj eq_refl (conj eq_refl (conj eq_refl (conj _ _))))).
  - rewrite take_insert_ge; [|lia].
    rewrite memmove_down_one; [|lia|lia].
    rewrite take_app_le; [|rewrite length_take; lia].
    rewrite take_take. rewrite take_take. f_equal; lia.
  - rewrite drop_insert_ge; [|lia]. rewrite take_insert_ge; [|lia].
    rewrite memmove_down_one; [|lia|lia].
    rewrite drop_app_length'; [|rewrite length_take; lia].
    rewrite take_app_length'; [reflexivity|].
    rewrite length_take, length_drop. lia.
Qed.

Lemma resp_store_wf : forall len c l,
  resp_wf len l -> resp_wf len (resp_store len c l).
Proof.
  intros len c l (Hls & Hread & Hcap & Hlen). unfold resp_store, resp_wf.
  destruct (Z.ltb_spec (r_read l) len).
  - cbn [r_line_start r_read r_buf]. rewrite length_insert.
    unfold u16. rewrite Z.mod_small; lia.
  - destruct (Z.geb_spec (r_read l - r_line_start l) MAX_RESPONSE_SIZE).
    + cbn [r_line_start r_read r_buf]. lia.
    + destruct (Z.gtb_spec (r_line_start l) 0); cbn [r_line_start r_read r_buf]; [|lia].
      rewrite length_insert. unfold memmove.
      rewrite store_bytes_spec; [|rewrite length_take, length_drop; lia].
      rewrite !length_app, !length_take, !length_drop.
      unfold u16. rewrite Z.mod_small; lia.
Qed.

(** Once a byte has been given up, storing a character never lets the kept
    data grow or change: what is kept afterwards is a prefix of what was
    kept before. *)
Lemma resp_store_dropped : forall len c l,
  resp_wf len l -> r_dropped_data l = true ->
  r_dropped_data (resp_store len c l) = true /\
  r_line_start (resp_store len c l) <= r_line_start l /\
  kept (resp_store len c l)
    = take (Z.to_nat (r_line_start (resp_store len c l))) (kept l).
Proof.
  intros len c l Hwf Hd. pose proof Hwf as (Hls & Hread & Hcap & Hlen).
  destruct (Z.ltb_spec (r_read l) len) as [Hroom|Hfull].
  - unfold resp_store, kept. destruct (Z.ltb_spec (r_read l) len); [|lia].
    cbn [r_line_start r_read r_buf r_dropped_data].
    rewrite take_insert_ge; [|lia]. rewrite take_take.
    split; [exact Hd|]. split; [lia|]. f_equal. lia.
  - destruct (Z.le_gt_cases MAX_RESPONSE_SIZE (r_read l - r_line_start l)) as [Hlong|Hshort].
    + rewrite resp_store_long_line; auto. unfold kept.
      cbn [r_line_start r_read r_buf r_dropped_data]. rewrite take_take.
      split; [reflexivity|]. split; [lia|]. f_equal. lia.
    + destruct (Z.le_gt_cases (r_line_start l) 0) as [Hzero|Hpos].
      * unfold resp_store, kept. destruct (Z.ltb_spec (r_read l) len); [lia|].
        destruct (Z.geb_spec (r_read l - r_line_start l) MAX_RESPONSE_SIZE); [lia|].
        destruct (Z.gtb_spec (r_line_start l) 0); [lia|].
        cbn [r_line_start r_read r_buf r_dropped_data]. rewrite take_take.
        split; [reflexivity|]. split; [lia|]. f_equal. lia.
      * destruct (resp_store_evicts_last len c l Hwf Hfull Hshort ltac:(lia))
          as (H1 & _ & H3 & _ & H5 & _).
        rewrite H1, H3, H5. split; [reflexivity|]. split; [lia|reflexivity].
Qed.

(** Closing a line: when a byte has been given up before, or the line is
    not kept for another reason, the line is removed and the kept data stay
    as they are, whether the loop goes on or returns. *)
Lemma resp_line_not_kept : forall len keep_data callback res l,
  keep_data && negb callback && negb (r_dropped_data l)
    && match res with GS_UNKNOWN_RESPONSE => true | _ => false end = false ->
  exists called,
    let l' := mkResp (r_buf l) (r_line_start l) (r_line_start l) (r_dropped_data l) false in
    resp_line len keep_data callback res l = (Continue l', called) \/
    resp_line len keep_data callback res l = (Return res (r_line_start l) l', called).
Proof.
  intros len keep_data callback res l H. unfold resp_line. rewrite H.
  cbn [r_read r_line_start r_buf r_dropped_data].
  eexists. destruct (negb _ && negb _); [right|left]; reflexivity.
Qed.

Lemma resp_line_return : forall len keep_data callback res l res' len' l' called,
  resp_line len keep_data callback res l = (Return res' len' l', called) ->
  r_buf l' = r_buf l /\ len' = r_line_start l /\ res' = res.
Proof.
  intros len keep_data callback res l res' len' l' called H. unfold resp_line in H.
  destruct (keep_data && negb callback && negb (r_dropped_data l)
            && match res with GS_UNKNOWN_RESPONSE => true | _ => false end);
    [discriminate|].
  cbn [r_read r_line_start r_buf r_dropped_data] in H.
  destruct (negb _ && negb _); [|discriminate].
  injection H as <- <- <- _. auto.
Qed.

Lemma resp_line_wf : forall len keep_data callback res l l' called,
  resp_wf len l ->
  resp_line len keep_data callback res l = (Continue l', called) ->
  resp_wf len l'.
Proof.
  intros len keep_data callback res l l' called (Hls & Hread & Hcap & Hlen) H.
  unfold resp_line in H.
  destruct (keep_data && negb callback && negb (r_dropped_data l)
            && match res with GS_UNKNOWN_RESPONSE => true | _ => false end).
  - injection H as <- _. unfold resp_wf.
    destruct (Z.ltb_spec (r_read l) len) as [H1|H1];
      cbn [r_read r_line_start r_buf r_dropped_data].
    + assert (Hu : u16 (r_read l + 1) = r_read l + 1)
        by (unfold u16; rewrite Z.mod_small; lia).
      rewrite Hu.
      destruct (Z.ltb_spec (r_read l + 1) len) as [H2|H2];
        cbn [r_read r_line_start r_buf r_dropped_data];
        rewrite ?length_insert; unfold u16; rewrite ?Z.mod_small; lia.
    + destruct (Z.ltb_spec (r_read l) len); [lia|].
      cbn [r_read r_line_start r_buf r_dropped_data]. lia.
  - cbn [r_read r_line_start r_buf r_dropped_data] in H.
    destruct (negb _ && negb _); [discriminate|].
    injection H as <- _. unfold resp_wf.
    cbn [r_read r_line_start r_buf r_dropped_data]. lia.
Qed.

(** One turn, once a byte has been given up. *)
Lemma resp_turn_dropped : forall len l l',
  resp_turn len l l' -> resp_wf len l -> r_dropped_data l = true ->
  resp_wf len l' /\ r_dropped_data l' = true /\
  r_line_start l' <= r_line_start l /\
  kept l' = take (Z.to_nat (r_line_start l')) (kept l).
Proof.
  intros len l l' Hturn Hwf Hd. pose proof Hwf as (Hls & Hread & Hcap & Hlen).
  destruct Hturn as [c l|keep_data callback res l l' called Hline|l Hskip|l].
  - split; [apply resp_store_wf, Hwf|]. apply resp_store_dropped; assumption.
  - split; [eapply resp_line_wf; eauto|].
    destruct (resp_line_not_kept len keep_data callback res l) as (called' & [H|H]).
    { rewrite Hd. cbn [negb]. rewrite andb_false_r. reflexivity. }
    + rewrite Hline in H. injection H as -> _. unfold kept.
      cbn [r_read r_line_start r_buf r_dropped_data]. rewrite take_take.
      split; [exact Hd|]. split; [lia|]. f_equal. lia.
    + rewrite Hline in H. discriminate.
  - unfold resp_wf, kept. cbn [r_read r_line_start r_buf r_dropped_data].
    rewrite take_take.
    split; [lia|]. split; [exact Hd|]. split; [lia|]. f_equal. lia.
  - unfold kept. rewrite take_take.
    split; [exact Hwf|]. split; [exact Hd|]. split; [lia|]. f_equal. lia.
Qed.

(** Any number of turns, once a byte has been given up: the kept data only
    ever lose bytes at their end. *)
Lemma resp_turns_dropped : forall len l l',
  resp_turns len l l' -> resp_wf len l -> r_dropped_data l = true ->
  resp_wf len l' /\ r_dropped_data l' = true /\
  r_line_start l' <= r_line_start l /\
  kept l' = take (Z.to_nat (r_line_start l')) (kept l).
Proof.
  intros len l l' Hturns. induction Hturns as [l|l l1 l2 Hturn Hturns IH]; intros Hwf Hd.
  - unfold kept. rewrite take_take. pose proof Hwf as (Hls & _).
    split; [exact Hwf|]. split; [exact Hd|]. split; [lia|]. f_equal. lia.
  - destruct (resp_turn_dropped len l l1 Hturn Hwf Hd) as (Hwf1 & Hd1 & Hle1 & Hk1).
    destruct (IH Hwf1 Hd1) as (Hwf2 & Hd2 & Hle2 & Hk2).
    split; [exact Hwf2|]. split; [exact Hd2|]. split; [lia|].
    rewrite Hk2, Hk1, take_take. f_equal. lia.
Qed.

End ReplyBuffer.

Section ReplyLoop.
Context {hdr : Header}.

Lemma resp_turns_snoc : forall len l l' l'',
  resp_turns len l l' -> resp_turn len l' l'' -> resp_turns len l l''.
Proof.
  intros len l l' l'' H. induction H as [l|l l1 l2 Hturn Hturns IH]; intros Hlast.
  - eapply turns_more; [exact Hlast|apply turns_none].
  - eapply turns_more; [exact Hturn|apply IH, Hlast].
Qed.

(** A reply that [readResponseInternal] returns, other than by giving up,
    hands back the buffer and the kept length that some number of turns
    lead to. *)
Lemma readResponse_loop_turns :
  forall fuel len start keep_data callback connect_cid lines l s r s',
    readResponse_loop fuel len start keep_data callback connect_cid lines l s = Some (r, s') ->
    reply_code r <> GS_UNRECOVERABLE_ERROR ->
    exists l', resp_turns len l l' /\
               reply_buf r = r_buf l' /\ reply_len r = r_line_start l'.
Proof.
  induction fuel as [|fuel IH];
    intros len start keep_data callback connect_cid lines l s r s' Hrun Hcode.
  - discriminate.
  - cbn [readResponse_loop] in Hrun.
    rewrite bind_gets in Hrun.
    destruct (unrecoverableError s).
    { injection Hrun as <- _. contradiction Hcode. reflexivity. }
    rewrite bind_lift in Hrun.
    destruct (fst (readRaw s) =? -1).
    { rewrite bind_lift in Hrun.
      destruct (u32 (fst (millis (snd (readRaw s))) - start) >? RESPONSE_TIMEOUT).
      - rewrite bind_modify in Hrun. injection Hrun as <- _.
        contradiction Hcode. reflexivity.
      - apply IH in Hrun; auto. }
    rewrite bind_gets in Hrun.
    destruct (negb match rx_state (rx (snd (readRaw s))) with
                   | GS_RX_IDLE => true
                   | _ => false
                   end || (fst (readRaw s) =? 27)).
    { unfold bind at 1 in Hrun.
      destruct (processIncoming fuel (fst (readRaw s)) (snd (readRaw s))) as [[b s2]|];
        [|discriminate].
      apply IH in Hrun; auto. }
    destruct ((fst (readRaw s) =? ch "013") || (fst (readRaw s) =? ch "010")).
    + destruct (r_read l - r_line_start l =? 0).
      { apply IH in Hrun; auto. }
      destruct (r_skip_line l) eqn:Hskip.
      { apply IH in Hrun; auto. destruct Hrun as (l' & Hturns & Hbuf & Hlen).
        exists l'. split; [|auto].
        eapply turns_more; [apply turn_skip; exact Hskip|exact Hturns]. }
      destruct (processResponseLine (advance (r_buf l) (r_line_start l))
                  (u8 (r_read l - r_line_start l)) connect_cid) as [res cc'].
      unfold bind at 1 in Hrun.
      destruct (when match res with GS_LINK_LOST => true | _ => false end
                     (modify processDisassociation) (snd (readRaw s)))
        as [[u s2]|]; [|discriminate].
      destruct (resp_line len keep_data callback res l) as [[l1|res1 len1 l1] called] eqn:Hline.
      * apply IH in Hrun; auto. destruct Hrun as (l' & Hturns & Hbuf & Hlen).
        exists l'. split; [|auto].
        eapply turns_more; [eapply turn_line; exact Hline|exact Hturns].
      * injection Hrun as <- _. cbn [reply_buf reply_len].
        apply resp_line_return in Hline as (Hbuf & -> & _).
        exists l. split; [apply turns_none|auto].
    + apply IH in Hrun; auto. destruct Hrun as (l' & Hturns & Hbuf & Hlen).
      exists l'. split; [|auto].
      eapply turns_more; [apply turn_store|exact Hturns].
Qed.

(** C7, amended: with the buffer full, a character of a line that is
    already too long for a reply is discarded and the line marked to be
    skipped; a character of a shorter line makes room by giving up the last
    byte of the data kept before the line, the line moving down by one, or
    is itself discarded when nothing is kept; in each case the result is
    marked as truncated.  From then on no turn of the loop adds to the data
    kept for the caller, and the data a reply hands back are a prefix of the
    data that were kept when the mark was set. *)
Theorem readResponse_overflow_policy :
  forall len c l,
    resp_wf len l -> r_read l = len ->
    (MAX_RESPONSE_SIZE <= r_read l - r_line_start l ->
     resp_store len c l = mkResp (r_buf l) (r_read l) (r_line_start l) true true) /\
    (r_read l - r_line_start l < MAX_RESPONSE_SIZE -> 0 < r_line_start l ->
     r_dropped_data (resp_store len c l) = true /\
     r_skip_line (resp_store len c l) = r_skip_line l /\
     r_read (resp_store len c l) = r_read l /\
     r_line_start (resp_store len c l) = r_line_start l - 1 /\
     kept (resp_store len c l) = take (Z.to_nat (r_line_start l - 1)) (kept l) /\
     take (Z.to_nat (r_read l - r_line_start l))
          (drop (Z.to_nat (r_line_start l - 1)) (r_buf (resp_store len c l)))
       = take (Z.to_nat (r_read l - r_line_start l))
              (drop (Z.to_nat (r_line_start l)) (r_buf l))) /\
    (r_read l - r_line_start l < MAX_RESPONSE_SIZE -> r_line_start l = 0 ->
     resp_store len c l = mkResp (r_buf l) (r_read l) (r_line_start l) true (r_skip_line l)) /\
    (forall l1 fuel start keep_data callback connect_cid lines s r s',
        l1 = resp_store len c l ->
        readResponse_loop fuel len start keep_data callback connect_cid lines l1 s
          = Some (r, s') ->
        reply_code r <> GS_UNRECOVERABLE_ERROR ->
        reply_len r <= r_line_start l1 /\
        take (Z.to_nat (reply_len r)) (reply_buf r)
          = take (Z.to_nat (reply_len r)) (kept l1)).
Proof.
  intros len c l Hwf Hfull. pose proof Hwf as (Hls & Hread & Hcap & Hlen).
  refine (conj _ (conj _ (conj _ _))).
  - intros Hlong. apply resp_store_long_line; lia.
  - intros Hshort Hpos.
    destruct (resp_store_evicts_last len c l Hwf ltac:(lia) Hshort Hpos)
      as (H1 & H2 & H3 & H4 & H5 & H6).
    auto 10.
  - intros Hshort Hzero. unfold resp_store.
    destruct (Z.ltb_spec (r_read l) len); [lia|].
    destruct (Z.geb_spec (r_read l - r_line_start l) MAX_RESPONSE_SIZE); [lia|].
    destruct (Z.gtb_spec (r_line_start l) 0); [lia|reflexivity].
  - intros l1 fuel start keep_data callback connect_cid lines s r s' -> Hrun Hcode.
    assert (Hd : r_dropped_data (resp_store len c l) = true).
    { unfold resp_store. destruct (Z.ltb_spec (r_read l) len); [lia|].
      destruct (r_read l - r_line_start l >=? MAX_RESPONSE_SIZE); [reflexivity|].
      destruct (r_line_start l >? 0); reflexivity. }
    destruct (readResponse_loop_turns _ _ _ _ _ _ _ _ _ _ _ Hrun Hcode)
      as (l' & Hturns & Hbuf & Hlen').
    destruct (resp_turns_dropped len _ l' Hturns (resp_store_wf len c l Hwf) Hd)
      as (_ & _ & Hle & Hk).
    rewrite Hbuf, Hlen'. split; [exact Hle|exact Hk].
Qed.

End ReplyLoop.

(** C7, as stated, fails: with the buffer full of the kept line "xyz", its
    line end, and "AB" of the line being read, the next character does not
    evict "x", the oldest byte of the previous line: the kept data become
    "xyz" and a carriage return, their last byte is the one given up. *)
Lemma resp_store_keeps_oldest_byte :
  kept resp_full = bytes_of_string "xyz" ++ [13; 10] /\
  kept (resp_store (hdr := avr_header) 7 (ch "C") resp_full) = bytes_of_string "xyz" ++ [13] /\
  kept (resp_store (hdr := avr_header) 7 (ch "C") resp_full) <> drop 1 (kept resp_full).
Proof. vm_compute. repeat split; (reflexivity || discriminate). Qed.

Lemma readResponse_overflow_policy_witness :
  r_dropped_data (resp_store (hdr := avr_header) 7 (ch "C") resp_full) = true /\
  r_line_start (resp_store (hdr := avr_header) 7 (ch "C") resp_full) = 4 /\
  kept (resp_store (hdr := avr_header) 7 (ch "C") resp_full) = take 4 (kept resp_full).
Proof.
  assert (Hwf : resp_wf 7 resp_full) by (vm_compute; intuition discriminate).
  destruct (readResponse_overflow_policy (hdr := avr_header) 7 (ch "C") resp_full Hwf eq_refl)
    as (_ & H & _).
  destruct H as (H1 & _ & _ & H4 & H5 & _); [vm_compute; reflexivity|vm_compute; reflexivity|].
  split; [exact H1|]. split; [exact H4|exact H5].
Defined.

(** * Further properties of the engine *)

(** ** Numbers: [parseNumber] *)

(** The codes of the characters that bound the digits and the letters. *)
Ltac ch_values :=
  change (ch "0") with 48 in *; change (ch "9") with 57 in *;
  change (ch "a") with 97 in *; change (ch "z") with 122 in *;
  change (ch "A") with 65 in *; change (ch "Z") with 90 in *.

Lemma digit_value_range : forall c,
  is_alnum c = true -> 0 <= digit_value c <= 35.
Proof.
  intros c. unfold is_alnum, digit_value. ch_values.
  destruct (Z.leb_spec 48 c), (Z.leb_spec c 57), (Z.leb_spec 97 c), (Z.leb_spec c 122),
    (Z.leb_spec 65 c), (Z.leb_spec c 90); simpl; intros; try discriminate; lia.
Qed.

Lemma parseNumber_digit_alnum : forall base r c,
  is_alnum c = true -> 0 <= r <= 6553 ->
  parseNumber_digit base r c = Some (u16 (u16 (r * base) + digit_value c)).
Proof.
  intros base r c Hc Hr. unfold parseNumber_digit, UINT16_MAX.
  change (65535 / 10) with 6553.
  destruct (Z.gtb_spec r 6553); [lia|].
  unfold is_alnum in Hc. unfold digit_value.
  destruct ((ch "0" <=? c) && (c <=? ch "9")); [reflexivity|].
  destruct ((ch "a" <=? c) && (c <=? ch "z")); [reflexivity|].
  simpl in Hc. rewrite Hc. reflexivity.
Qed.

Lemma parseNumber_digit_not_alnum : forall base r c,
  is_alnum c = false -> parseNumber_digit base r c = None.
Proof.
  intros base r c Hc. unfold parseNumber_digit.
  destruct (r >? UINT16_MAX / 10); [reflexivity|].
  unfold is_alnum in Hc.
  destruct ((ch "0" <=? c) && (c <=? ch "9")); [discriminate|].
  destruct ((ch "a" <=? c) && (c <=? ch "z")); [discriminate|].
  simpl in Hc. rewrite Hc. reflexivity.
Qed.

(** The loop over one more character. *)
Lemma parseNumber_loop_snoc : forall base l x rest acc,
  parseNumber_loop base (S (List.length l)) (l ++ x :: rest) acc =
    match parseNumber_loop base (List.length l) (l ++ x :: rest) acc with
    | Some r => parseNumber_digit base r x
    | None => None
    end.
Proof.
  intros base l x rest. induction l as [|a l IH]; intros acc.
  - simpl. change (byte_at (x :: rest) 0) with x.
    destruct (parseNumber_digit base acc x); reflexivity.
  - cbn [List.length app]. cbn [parseNumber_loop].
    change (byte_at (a :: l ++ x :: rest) 0) with a.
    change (advance (a :: l ++ x :: rest) 1) with (l ++ x :: rest).
    destruct (parseNumber_digit base acc a) as [r|]; [|reflexivity].
    apply IH.
Qed.

Lemma number_of_snoc : forall base ds d,
  number_of base (ds ++ [d]) = base * number_of base ds + d.
Proof. intros. unfold number_of. rewrite fold_left_app. reflexivity. Qed.

Lemma number_of_nonneg : forall base ds,
  0 <= base -> Forall (fun d => 0 <= d) ds -> 0 <= number_of base ds.
Proof.
  intros base ds Hb. induction ds as [|d ds IH] using rev_ind; intros Hds.
  - unfold number_of. simpl. lia.
  - rewrite number_of_snoc. apply Forall_app in Hds as [Hds Hd].
    inversion Hd; subst. specialize (IH Hds). nia.
Qed.

Lemma parseNumber_loop_value : forall base (cs rest : list Z),
  10 <= base <= 36 ->
  Forall (fun c => is_alnum c = true) cs ->
  number_of base (map digit_value cs) <= 65535 ->
  parseNumber_loop base (List.length cs) (cs ++ rest) 0
    = Some (number_of base (map digit_value cs)).
Proof.
  intros base cs rest Hb. revert rest.
  induction cs as [|x l IH] using rev_ind; intros rest Hcs Hv.
  - reflexivity.
  - apply Forall_app in Hcs as [Hl Hx]. inversion Hx as [|? ? Hx' _]; subst.
    rewrite map_app in *. cbn [map] in *. rewrite number_of_snoc in *.
    pose proof (digit_value_range x Hx') as Hd.
    assert (Hn : 0 <= number_of base (map digit_value l)).
    { apply number_of_nonneg; [lia|]. apply Forall_map.
      eapply Forall_impl; [exact Hl|]. intros c Hc. cbn.
      pose proof (digit_value_range c Hc). lia. }
    assert (Hp : number_of base (map digit_value l) <= 6553) by nia.
    rewrite length_app. cbn [List.length]. rewrite Nat.add_1_r.
    rewrite <- app_assoc. cbn [app].
    rewrite parseNumber_loop_snoc, IH; [|exact Hl|lia].
    rewrite parseNumber_digit_alnum; [|exact Hx'|lia].
    f_equal. unfold u16.
    rewrite (Z.mod_small (_ * base)); [|nia].
    rewrite Z.mod_small; lia.
Qed.

(** X1: a string of digits and letters whose number in a base of 10 to 36
    fits 16 bits is parsed to that number, whatever follows it in the
    buffer. *)
Theorem parseNumber16_value :
  forall base (cs rest : list Z),
    10 <= base <= 36 ->
    (List.length cs < 256)%nat ->
    Forall (fun c => is_alnum c = true) cs ->
    number_of base (map digit_value cs) <= 65535 ->
    parseNumber16 (cs ++ rest) (Z.of_nat (List.length cs)) base
      = Some (number_of base (map digit_value cs)).
Proof.
  intros base cs rest Hb _ Hcs Hv. unfold parseNumber16.
  destruct (Z.ltb_spec base 2); [lia|]. destruct (Z.gtb_spec base 36); [lia|].
  cbn [orb]. rewrite Nat2Z.id. apply parseNumber_loop_value; assumption.
Qed.

Lemma parseNumber16_value_witness :
  parseNumber16 (bytes_of_string "1400" ++ bytes_of_string "payload") 4 10 = Some 1400 /\
  parseNumber16 (bytes_of_string "fF" ++ []) 2 16 = Some 255.
Proof.
  split.
  - apply (parseNumber16_value 10 (bytes_of_string "1400") (bytes_of_string "payload"));
      [lia | simpl; lia | repeat constructor | vm_compute; discriminate].
  - apply (parseNumber16_value 16 (bytes_of_string "fF") []);
      [lia | simpl; lia | repeat constructor | vm_compute; discriminate].
Defined.

Lemma parseNumber_loop_rejects : forall base n buf acc i,
  (i < n)%nat -> is_alnum (byte_at buf (Z.of_nat i)) = false ->
  parseNumber_loop base n buf acc = None.
Proof.
  intros base n. induction n as [|n IH]; intros buf acc i Hi Hc; [lia|].
  cbn [parseNumber_loop].
  destruct (parseNumber_digit base acc (byte_at buf 0)) as [r|] eqn:Hd; [|reflexivity].
  destruct i as [|i].
  - rewrite parseNumber_digit_not_alnum in Hd; [discriminate|exact Hc].
  - apply (IH _ _ i); [lia|].
    rewrite byte_at_advance; [|lia|lia].
    replace (1 + Z.of_nat i) with (Z.of_nat (S i)) by lia. exact Hc.
Qed.

(** X2: [parseNumber] fails when the base is not one of 2 to 36 and when
    one of the [len] characters is neither a digit nor a letter. *)
Theorem parseNumber_rejects :
  forall buf len base,
    (base < 2 \/ 36 < base \/
     exists i, 0 <= i < len /\ is_alnum (byte_at buf i) = false) ->
    parseNumber16 buf len base = None /\ parseNumber8 buf len base = None.
Proof.
  intros buf len base H.
  assert (H16 : parseNumber16 buf len base = None).
  { unfold parseNumber16.
    destruct (Z.ltb_spec base 2); [reflexivity|].
    destruct (Z.gtb_spec base 36); [reflexivity|]. cbn [orb].
    destruct H as [H|[H|(i & Hi & Hc)]]; [lia|lia|].
    apply (parseNumber_loop_rejects base _ buf 0 (Z.to_nat i)); [lia|].
    rewrite Z2Nat.id; [exact Hc|lia]. }
  split; [exact H16|]. unfold parseNumber8. rewrite H16. reflexivity.
Qed.

Lemma parseNumber_rejects_witness :
  parseNumber16 (bytes_of_string "12.5") 4 10 = None /\
  parseNumber8 (bytes_of_string "12.5") 4 10 = None.
Proof.
  apply parseNumber_rejects. right. right. exists 2. split; [lia|reflexivity].
Defined.

(** One character, in any base. *)
Lemma parseNumber8_one : forall base buf,
  2 <= base <= 36 ->
  parseNumber8 buf 1 base =
    if is_alnum (byte_at buf 0) then Some (digit_value (byte_at buf 0)) else None.
Proof.
  intros base buf Hb. unfold parseNumber8, parseNumber16.
  destruct (Z.ltb_spec base 2); [lia|]. destruct (Z.gtb_spec base 36); [lia|].
  cbn [orb]. change (Z.to_nat 1) with 1%nat. cbn [parseNumber_loop].
  destruct (is_alnum (byte_at buf 0)) eqn:Hc.
  - rewrite parseNumber_digit_alnum; [|exact Hc|lia].
    pose proof (digit_value_range _ Hc) as Hd.
    replace (u16 (u16 (0 * base) + digit_value (byte_at buf 0)))
      with (digit_value (byte_at buf 0))
      by (unfold u16; rewrite Z.mul_0_l, Z.mod_0_l, Z.add_0_l, Z.mod_small; lia).
    unfold UINT8_MAX. destruct (Z.gtb_spec (digit_value (byte_at buf 0)) 255); [lia|].
    reflexivity.
  - rewrite parseNumber_digit_not_alnum; [reflexivity|exact Hc].
Qed.

(** X3: a single character is read as a digit of base 36 whatever base is
    given: a letter is accepted with its value of 10 to 35 even when that
    is not a digit of the base. *)
Theorem parseNumber8_digit_not_checked_against_base :
  forall base c rest,
    2 <= base <= 36 ->
    parseNumber8 (c :: rest) 1 base =
      if is_alnum c then Some (digit_value c) else None.
Proof.
  intros base c rest Hb. rewrite (parseNumber8_one base); [reflexivity|exact Hb].
Qed.

Lemma parseNumber8_digit_not_checked_against_base_witness :
  parseNumber8 (ch "z" :: []) 1 16 = Some 35.
Proof.
  apply (parseNumber8_digit_not_checked_against_base 16 (ch "z") []). lia.
Defined.

(** ** Synchronous replies *)



Lemma byte_at_take : forall (buf : list Z) n i,
  0 <= i < n -> byte_at (take (Z.to_nat n) buf) i = byte_at buf i.
Proof.
  intros buf n i Hi. unfold byte_at. destruct (Z.ltb_spec i 0); [lia|].
  rewrite lookup_take_lt; [reflexivity|lia].
Qed.

(** X4: the classification of a reply line depends on the [len] bytes of
    the line only, not on what lies behind them in the buffer. *)
Theorem processResponseLine_reads_only_the_line :
  forall buf buf' len cc,
    take (Z.to_nat len) buf = take (Z.to_nat len) buf' ->
    processResponseLine buf len cc = processResponseLine buf' len cc.
Proof.
  intros buf buf' len cc Htake.
  assert (Hb : forall i, 0 <= i < len -> byte_at buf i = byte_at buf' i).
  { intros i Hi. rewrite <- (byte_at_take buf len i Hi), <- (byte_at_take buf' len i Hi).
    rewrite Htake. reflexivity. }
  assert (Hbody : forall off code, 0 <= off <= len ->
    (let args := advance buf off in
     let arg_len := u8 (len - off) in
     if negb (arg_len =? 0) && negb (byte_at args 0 =? ch " ")
     then (GS_UNKNOWN_RESPONSE, cc)
     else
       match code with
       | GS_SUCCESS | GS_FAILURE | GS_EINVAL | GS_ENOCID | GS_EBADCID
       | GS_ENOTSUP | GS_LINK_LOST | GS_ENOIP =>
           if negb (arg_len =? 0) then (GS_UNKNOWN_RESPONSE, cc) else (code, cc)
       | GS_SOCK_FAIL =>
           if negb (arg_len =? 2) then (GS_UNKNOWN_RESPONSE, cc) else (code, cc)
       | GS_CON_SUCCESS =>
           if negb (arg_len =? 2) then (GS_UNKNOWN_RESPONSE, cc)
           else
             match cc with
             | None => (GS_UNKNOWN_RESPONSE, cc)
             | Some _ =>
                 match parseNumber8 (advance args 1) 1 16 with
                 | None => (GS_UNKNOWN_RESPONSE, cc)
                 | Some cid => (code, Some cid)
                 end
             end
       | _ => (GS_UNKNOWN_RESPONSE, cc)
       end) =
    (let args := advance buf' off in
     let arg_len := u8 (len - off) in
     if negb (arg_len =? 0) && negb (byte_at args 0 =? ch " ")
     then (GS_UNKNOWN_RESPONSE, cc)
     else
       match code with
       | GS_SUCCESS | GS_FAILURE | GS_EINVAL | GS_ENOCID | GS_EBADCID
       | GS_ENOTSUP | GS_LINK_LOST | GS_ENOIP =>
           if negb (arg_len =? 0) then (GS_UNKNOWN_RESPONSE, cc) else (code, cc)
       | GS_SOCK_FAIL =>
           if negb (arg_len =? 2) then (GS_UNKNOWN_RESPONSE, cc) else (code, cc)
       | GS_CON_SUCCESS =>
           if negb (arg_len =? 2) then (GS_UNKNOWN_RESPONSE, cc)
           else
             match cc with
             | None => (GS_UNKNOWN_RESPONSE, cc)
             | Some _ =>
                 match parseNumber8 (advance args 1) 1 16 with
                 | None => (GS_UNKNOWN_RESPONSE, cc)
                 | Some cid => (code, Some cid)
                 end
             end
       | _ => (GS_UNKNOWN_RESPONSE, cc)
       end)).
  { intros off code Hoff. cbv zeta.
    destruct (Z.eqb_spec (u8 (len - off)) 0) as [E0|E0]; cbn [negb andb].
    { rewrite E0. change (0 =? 2) with false. cbn [negb]. reflexivity. }
    assert (Hlt : off < len).
    { destruct (Z.eq_dec off len) as [->|]; [|lia].
      rewrite Z.sub_diag in E0. exfalso. apply E0. reflexivity. }
    rewrite !byte_at_advance by lia. rewrite Z.add_0_r.
    rewrite <- (Hb off) by lia.
    destruct (negb (byte_at buf off =? ch " ")); [reflexivity|].
    destruct code; try reflexivity.
    destruct (Z.eqb_spec (u8 (len - off)) 2) as [E2|E2]; cbn [negb]; [|reflexivity].
    destruct cc as [c0|]; [|reflexivity].
    rewrite !(parseNumber8_one 16) by lia.
    rewrite !byte_at_advance by lia.
    replace (off + (1 + 0)) with (off + 1) by lia.
    assert (Hlt2 : off + 1 < len).
    { destruct (Z.eq_dec (off + 1) len) as [E|]; [|lia].
      replace (len - off) with 1 in E2 by lia. discriminate E2. }
    rewrite <- (Hb (off + 1)) by lia. reflexivity. }
  unfold processResponseLine.
  destruct (Z.geb_spec len 2) as [G2|G2]; cbn [andb].
  - rewrite <- (Hb 0), <- (Hb 1) by lia.
    destruct ((byte_at buf 0 =? ch "1") && (byte_at buf 1 >=? ch "0")
              && (byte_at buf 1 <=? ch "8"));
      [exact (Hbody 2 (response_of_code (10 + byte_at buf 1 - ch "0")) ltac:(lia))|].
    destruct (Z.geb_spec len 1); [|lia]. cbn [andb].
    destruct ((byte_at buf 0 >=? ch "0") && (byte_at buf 0 <=? ch "9"));
      [exact (Hbody 1 (response_of_code (byte_at buf 0 - ch "0")) ltac:(lia))|].
    destruct ((len =? 2) && (byte_at buf 0 =? ch "O") && (byte_at buf 1 =? ch "K"));
      [exact (Hbody 2 GS_SUCCESS ltac:(lia))|reflexivity].
  - destruct (Z.eqb_spec len 2); [lia|]. cbn [andb].
    destruct (Z.geb_spec len 1) as [G1|G1]; cbn [andb]; [|reflexivity].
    rewrite <- (Hb 0) by lia.
    destruct ((byte_at buf 0 >=? ch "0") && (byte_at buf 0 <=? ch "9"));
      [exact (Hbody 1 (response_of_code (byte_at buf 0 - ch "0")) ltac:(lia))|reflexivity].
Qed.

Lemma processResponseLine_reads_only_the_line_witness :
  processResponseLine (bytes_of_string "7 4junk") 3 (Some 0)
  = processResponseLine (bytes_of_string "7 4") 3 (Some 0).
Proof.
  apply processResponseLine_reads_only_the_line. reflexivity.
Defined.

(** ** Asynchronous messages and the connection table *)

(** X6: a socket-failure message and a close message for a connection both
    disconnect it, and neither touches an error flag: the flag is set only
    when the subtype of the message equals the synchronous code
    GS_SOCK_FAIL, which is not the subtype of a socket failure. *)
Theorem processAsync_socket_failure_sets_no_error :
  forall s subtype c rest,
    subtype = GS_ASYNC_SOCK_FAIL \/ subtype = GS_ASYNC_ECIDCLOSE ->
    rx_async_subtype (rx s) = subtype ->
    rx_async_len (rx s) = 3 ->
    rx_async (rx s) = (ch "0" + subtype) :: ch " " :: c :: rest ->
    is_alnum c = true ->
    processAsync s = (true, processDisconnect (digit_value c) s) /\
    connected (connection (digit_value c) (snd (processAsync s))) = false /\
    forall cid, error (connection cid (snd (processAsync s))) = error (connection cid s).
Proof.
  intros s subtype c rest Hsub Hst Hlen Hbuf Hc.
  assert (Hrun : processAsync s = (true, processDisconnect (digit_value c) s)).
  { unfold processAsync. rewrite Hst, Hlen, Hbuf.
    rewrite !(parseNumber8_one 16) by lia.
    change (byte_at (ch "0" + subtype :: ch " " :: c :: rest) 0) with (ch "0" + subtype).
    change (byte_at (advance (advance (ch "0" + subtype :: ch " " :: c :: rest) 1) 1) 0)
      with c.
    rewrite Hc.
    destruct Hsub as [-> | ->]; reflexivity. }
  rewrite Hrun. cbn [snd]. split; [reflexivity|].
  pose proof (digit_value_range c Hc) as Hd.
  unfold processDisconnect.
  destruct (connected (connection (digit_value c) s)) eqn:Hcon; cbn [negb].
  2: { split; [exact Hcon|reflexivity]. }
  assert (Hin : exists x, connections (net s) !! Z.to_nat (digit_value c) = Some x).
  { unfold connection in Hcon.
    destruct (connections (net s) !! Z.to_nat (digit_value c)) as [x|]; [eauto|discriminate]. }
  destruct Hin as [x Hx].
  assert (Hall : forall s',
    connections (net s') =
      alter (set_ssl false) (Z.to_nat (digit_value c))
            (alter (set_connected false) (Z.to_nat (digit_value c)) (connections (net s))) ->
    connected (connection (digit_value c) s') = false /\
    forall cid, error (connection cid s') = error (connection cid s)).
  { intros s' Hs'. unfold connection. rewrite Hs'. split.
    - rewrite !list_lookup_alter_eq, Hx. reflexivity.
    - intros cid. destruct (Nat.eq_dec (Z.to_nat (digit_value c)) (Z.to_nat cid)) as [E|E].
      + rewrite <- E, !list_lookup_alter_eq, Hx. reflexivity.
      + rewrite !list_lookup_alter_ne by exact E. reflexivity. }
  destruct (digit_value c =? ncm_auto_cid _); [|apply Hall; reflexivity].
  destruct (has_flag _ EVENT_NCM_CONNECTED); apply Hall; reflexivity.
Qed.

Lemma processAsync_socket_failure_sets_no_error_witness :
  processAsync (async_core GS_ASYNC_SOCK_FAIL (bytes_of_string "0 4"))
  = (true, processDisconnect 4 (async_core GS_ASYNC_SOCK_FAIL (bytes_of_string "0 4"))).
Proof.
  apply (processAsync_socket_failure_sets_no_error
           (async_core GS_ASYNC_SOCK_FAIL (bytes_of_string "0 4"))
           GS_ASYNC_SOCK_FAIL (ch "4") (repeat 0 61));
    [left; reflexivity | reflexivity | reflexivity | reflexivity | reflexivity].
Defined.

(** ** The connection of the network connection manager *)

Lemma connection_invalid_cid : forall s,
  table_ok s -> connected (connection INVALID_CID s) = false.
Proof.
  intros s Hok. unfold connection, table_ok in *.
  rewrite (proj2 (lookup_ge_None _ _)); [reflexivity|].
  rewrite Hok. unfold INVALID_CID, MAX_CID. lia.
Qed.

Lemma connected_valid : forall cid s,
  table_ok s -> 0 <= cid -> connected (connection cid s) = true -> valid_cid cid.
Proof.
  intros cid s Hok Hc Hcon. unfold connection in Hcon.
  destruct (connections (net s) !! Z.to_nat cid) as [x|] eqn:Hl; [|discriminate].
  apply lookup_lt_Some in Hl. unfold table_ok in Hok. rewrite Hok in Hl.
  unfold valid_cid, MAX_CID in *. lia.
Qed.

Lemma ncm_inv_processDisconnect : forall cid s,
  0 <= cid -> table_ok s -> ncm_inv s -> ncm_inv (processDisconnect cid s).
Proof.
  intros cid s Hc Hok (H0 & Hn & Hf). unfold processDisconnect.
  destruct (connected (connection cid s)) eqn:Hcon; cbn [negb]; [|repeat split; assumption].
  set (s1 := upd_connection cid (set_ssl false)
               (upd_connection cid (set_connected false) s)).
  assert (Hnet : ncm_auto_cid (net s1) = ncm_auto_cid (net s) /\
                 events (net s1) = events (net s)) by (split; reflexivity).
  destruct Hnet as [Hn1 He1].
  destruct (Z.eqb_spec cid (ncm_auto_cid (net s1))) as [E|E].
  - destruct (has_flag (events (net (upd_net (set_ncm_auto_cid INVALID_CID) s1)))
                       EVENT_NCM_CONNECTED) eqn:Hp.
    + unfold ncm_inv. cbn. split; [unfold INVALID_CID; lia|]. split; [left; reflexivity|].
      change (events (net s1)) with (events (net s)).
      fold (clear_flag EVENT_NCM_CONNECTED (net s)).
      intros Hflag. exfalso.
      assert (Hcl : has_flag (Z.land (events (net s)) (Z.lnot EVENT_NCM_CONNECTED))
                             EVENT_NCM_CONNECTED = false)
        by (apply has_flag_clear_same; auto with flags).
      congruence.
    + unfold ncm_inv. cbn. split; [unfold INVALID_CID; lia|]. split; [left; reflexivity|].
      change (events (net s1)) with (events (net s)).
      cbn in Hp. change (events (net s1)) with (events (net s)) in Hp.
      intros Hflag. exfalso.
      assert (Hset : has_flag (Z.lor (events (net s)) EVENT_NCM_DISCONNECTED)
                              EVENT_NCM_CONNECTED
                     = has_flag (events (net s)) EVENT_NCM_CONNECTED)
        by (apply has_flag_set_other; auto with flags; discriminate).
      congruence.
  - unfold ncm_inv. rewrite Hn1 in *. split; [exact H0|]. split.
    + destruct Hn as [Hn|Hn]; [left; exact Hn|right].
      subst s1. rewrite !connection_upd_other; auto.
    + exact Hf.
Qed.

Lemma ncm_inv_upd_error : forall cid s,
  ncm_inv s -> ncm_inv (upd_connection cid (set_error true) s).
Proof.
  intros cid s (H0 & Hn & Hf). unfold ncm_inv.
  change (ncm_auto_cid (net (upd_connection cid (set_error true) s)))
    with (ncm_auto_cid (net s)).
  change (events (net (upd_connection cid (set_error true) s))) with (events (net s)).
  split; [exact H0|]. split; [|exact Hf].
  destruct Hn as [Hn|Hn]; [left; exact Hn|right].
  unfold connection, upd_connection in *. cbn.
  destruct (Nat.eq_dec (Z.to_nat cid) (Z.to_nat (ncm_auto_cid (net s)))) as [E|E].
  - rewrite E, list_lookup_alter_eq.
    destruct (connections (net s) !! Z.to_nat (ncm_auto_cid (net s))); [exact Hn|discriminate].
  - rewrite list_lookup_alter_ne by exact E. exact Hn.
Qed.

Lemma ncm_inv_disassociate_cids : forall (l : list Z) s,
  Forall (fun cid => 0 <= cid) l -> table_ok s -> ncm_inv s ->
  table_ok (fold_left disassociate_cid l s) /\ ncm_inv (fold_left disassociate_cid l s).
Proof.
  induction l as [|cid l IH]; intros s Hl Hok Hinv; [split; assumption|].
  inversion Hl; subst. cbn [fold_left]. apply IH; [assumption| |].
  - apply disassociate_cid_table_ok, Hok.
  - unfold disassociate_cid. destruct (connected (connection cid s)); [|exact Hinv].
    apply ncm_inv_processDisconnect; [assumption| |].
    + apply table_ok_upd_connection, Hok.
    + apply ncm_inv_upd_error, Hinv.
Qed.

Lemma ncm_inv_upd_flags : forall f s,
  ncm_auto_cid (f (net s)) = ncm_auto_cid (net s) ->
  connections (f (net s)) = connections (net s) ->
  has_flag (events (f (net s))) EVENT_NCM_CONNECTED
    = has_flag (events (net s)) EVENT_NCM_CONNECTED ->
  ncm_inv s -> ncm_inv (upd_net f s).
Proof.
  intros f s Hn Hc He (H0 & Hcon & Hf). unfold ncm_inv, connection in *. cbn.
  rewrite Hn, Hc, He. repeat split; assumption.
Qed.

Lemma ncm_inv_processDisassociation : forall s,
  table_ok s -> ncm_inv s -> ncm_inv (processDisassociation s).
Proof.
  intros s Hok Hinv. destruct (associated (net s)) eqn:Ha.
  2: { rewrite processDisassociation_idle; assumption. }
  rewrite processDisassociation_unfold by exact Ha.
  apply ncm_inv_disassociate_cids.
  - eapply Forall_impl; [apply all_cids_valid|].
    intros cid Hc. unfold valid_cid in Hc. cbn. lia.
  - destruct (has_flag (events (net s)) EVENT_ASSOCIATED); exact Hok.
  - apply ncm_inv_upd_flags; try reflexivity.
    destruct (has_flag (events (net s)) EVENT_ASSOCIATED) eqn:Hpend;
      apply ncm_inv_upd_flags; try reflexivity; try exact Hinv; cbn.
    + apply has_flag_clear_other; auto with flags; discriminate.
    + apply has_flag_set_other; auto with flags; discriminate.
Qed.

(** X7: the event functions keep the NCM connection consistent.  Whenever
    [ncm_auto_cid] is not INVALID_CID it names a connected connection, and
    an NCM-connected event is pending only with such a CID; so the CID that
    [loop] hands to the NCM-connect callback is that of a connection that is
    connected when the callback is invoked. *)
Theorem ncm_connection_consistent :
  forall s,
    table_ok s -> ncm_inv s ->
    (forall cid, 0 <= cid -> ncm_inv (processDisconnect cid s)) /\
    (forall cid ipv rport lport ncm,
        valid_cid cid -> ncm_inv (processConnect cid ipv rport lport ncm s)) /\
    ncm_inv (processDisassociation s) /\
    ncm_inv (processAssociation s) /\
    (forall r1 r2 r3 r4 cid,
        In (OnNcmConnect cid) (fst (dispatch_events r1 r2 r3 r4 s)) ->
        connected (connection cid s) = true).
Proof.
  intros s Hok Hinv. split; [|split; [|split; [|split]]].
  - intros cid Hc. apply ncm_inv_processDisconnect; assumption.
  - intros cid ipv rport lport ncm Hc. unfold processConnect.
    set (s1 := if connected (connection cid s) then processDisconnect cid s else s).
    assert (Hok1 : table_ok s1).
    { subst s1. destruct (connected (connection cid s));
        auto using processDisconnect_table_ok. }
    assert (Hinv1 : ncm_inv s1).
    { subst s1. destruct (connected (connection cid s)); [|exact Hinv].
      apply ncm_inv_processDisconnect; [unfold valid_cid in Hc; lia|exact Hok|exact Hinv]. }
    set (s2 := if ncm
               then upd_net (set_flag EVENT_NCM_CONNECTED) (upd_net (set_ncm_auto_cid cid) s1)
               else s1).
    assert (Hok2 : table_ok s2) by (subst s2; destruct ncm; exact Hok1).
    set (s3 := upd_connection cid (set_error false)
                 (upd_connection cid (set_remote ipv rport lport) s2)).
    assert (Hok3 : table_ok s3) by (subst s3; do 2 apply table_ok_upd_connection; exact Hok2).
    assert (Hcid : connected (connection cid (upd_connection cid (set_connected true) s3))
                   = true).
    { rewrite connection_upd_same; [reflexivity|exact Hc|exact Hok3]. }
    assert (Hother : forall c, 0 <= c -> c <> cid ->
              connection c (upd_connection cid (set_connected true) s3) = connection c s2).
    { intros c H0 Hne. unfold valid_cid in Hc. subst s3.
      rewrite !connection_upd_other; auto; lia. }
    unfold ncm_inv.
    change (ncm_auto_cid (net (upd_connection cid (set_connected true) s3)))
      with (ncm_auto_cid (net s2)).
    change (events (net (upd_connection cid (set_connected true) s3)))
      with (events (net s2)).
    destruct ncm; subst s2.
    + cbn [net upd_net ncm_auto_cid set_flag set_events set_ncm_auto_cid].
      unfold valid_cid, MAX_CID, INVALID_CID in *.
      split; [lia|]. split; [right; exact Hcid|]. intros _. lia.
    + destruct Hinv1 as (H0 & Hn & Hf). split; [exact H0|]. split; [|exact Hf].
      destruct Hn as [Hn|Hn]; [left; exact Hn|right].
      destruct (Z.eq_dec (ncm_auto_cid (net s1)) cid) as [E|E].
      * rewrite E. exact Hcid.
      * rewrite Hother; auto.
  - apply ncm_inv_processDisassociation; assumption.
  - unfold processAssociation.
    set (s1 := if associated (net s) then processDisassociation s else s).
    assert (Hinv1 : ncm_inv s1).
    { subst s1. destruct (associated (net s)); [|exact Hinv].
      apply ncm_inv_processDisassociation; assumption. }
    apply ncm_inv_upd_flags; try reflexivity.
    + cbn. apply has_flag_set_other; auto with flags; discriminate.
    + apply ncm_inv_upd_flags; try reflexivity. exact Hinv1.
  - intros r1 r2 r3 r4 cid Hin. rewrite dispatch_events_fired in Hin.
    destruct Hinv as (H0 & Hn & Hf). unfold fired_if in Hin.
    apply in_app_or in Hin as [Hin|Hin].
    { destruct (r1 && _); cbn in Hin; [destruct Hin as [Hin|[]]; discriminate|contradiction]. }
    apply in_app_or in Hin as [Hin|Hin].
    { destruct (r2 && _); cbn in Hin; [destruct Hin as [Hin|[]]; discriminate|contradiction]. }
    apply in_app_or in Hin as [Hin|Hin].
    { destruct (r3 && _); cbn in Hin; [destruct Hin as [Hin|[]]; discriminate|contradiction]. }
    destruct (r4 && has_flag (events (net s)) EVENT_NCM_CONNECTED) eqn:E4;
      cbn in Hin; [|contradiction].
    destruct Hin as [Hin|[]]. injection Hin as <-.
    apply andb_prop in E4 as [_ E4]. specialize (Hf E4).
    destruct Hn as [Hn|Hn]; [contradiction|exact Hn].
Qed.

Lemma ncm_connection_consistent_witness :
  ncm_inv (processConnect 2 0 0 0 true core0) /\
  ncm_inv (processDisassociation core0).
Proof.
  assert (Hok : table_ok core0) by reflexivity.
  assert (Hinv : ncm_inv core0).
  { unfold ncm_inv. cbn. split; [unfold INVALID_CID; lia|].
    split; [left; reflexivity|discriminate]. }
  destruct (ncm_connection_consistent core0 Hok Hinv) as (_ & Hc & Hd & _).
  split; [apply Hc; unfold valid_cid, MAX_CID; lia|exact Hd].
Defined.

(** ** Writing over SPI *)

Lemma spi_same_refl : forall s, spi_same s s.
Proof. intros s. repeat split. Qed.

Lemma spi_same_trans : forall s1 s2 s3, spi_same s1 s2 -> spi_same s2 s3 -> spi_same s1 s3.
Proof.
  intros s1 s2 s3 (A1 & A2 & A3 & A4 & A5 & A6) (B1 & B2 & B3 & B4 & B5 & B6).
  repeat split; congruence.
Qed.

Lemma spi_exchange_silent : forall out s,
  spi_silent s ->
  exists s1, spi_exchange out s = (-1, s1) /\ spi_silent s1 /\ spi_same s s1 /\
             wire_out (world s1) = wire_out (world s) ++ [out].
Proof.
  intros out s (Hser & Herr & Hesc & Hin).
  unfold spi_exchange, transferSpi.
  change (wire_in (world (upd_world (fun w => set_wire_out (wire_out w ++ [out]) w) s)))
    with (wire_in (world s)). rewrite Hin.
  unfold processSpiSpecial.
  change (spi_prev_was_esc (link (upd_world (fun w => set_wire_out (wire_out w ++ [out]) w) s)))
    with (spi_prev_was_esc (link s)). rewrite Hesc.
  change (SPI_SPECIAL_IDLE =? SPI_SPECIAL_ALL_ONE) with false. cbn [negb].
  change (SPI_SPECIAL_IDLE =? SPI_SPECIAL_ALL_ZERO) with false.
  change (SPI_SPECIAL_IDLE =? SPI_SPECIAL_ACK) with false.
  change (SPI_SPECIAL_IDLE =? SPI_SPECIAL_IDLE) with true. cbv iota.
  eexists. split; [reflexivity|].
  repeat split; assumption.
Qed.

Lemma processIncoming_nothing : forall {hdr : Header} fuel c s,
  (0 < fuel)%nat -> c < 0 -> processIncoming fuel c s = Some (false, s).
Proof.
  intros hdr fuel c s Hf Hc. destruct fuel as [|n]; [lia|].
  cbn [processIncoming]. unfold processIncoming_step.
  destruct (Z.ltb_spec c 0); [reflexivity|lia].
Qed.

Lemma spi_decode_app : forall a b s,
  spi_decode (a ++ b) s = spi_decode a s ++ spi_decode b (spi_feed a s).
Proof.
  induction a as [|c a IH]; intros b s; [reflexivity|].
  cbn [app spi_decode]. rewrite IH, <- app_assoc. reflexivity.
Qed.

Lemma processSpiSpecial_esc : forall r,
  spi_prev_was_esc (link r) = false ->
  processSpiSpecial SPI_SPECIAL_ESC r
    = (-1, upd_link (set_spi_prev_was_esc true) (upd_link (set_errorcount 0) r)).
Proof. intros r Hesc. unfold processSpiSpecial. rewrite Hesc. reflexivity. Qed.

Lemma processSpiSpecial_escaped : forall c r,
  spi_prev_was_esc (link r) = true ->
  processSpiSpecial c r = (Z.lxor c SPI_ESC_XOR, upd_link (set_spi_prev_was_esc false) r).
Proof. intros c r Hesc. unfold processSpiSpecial. rewrite Hesc. reflexivity. Qed.

Lemma processSpiSpecial_data : forall b r,
  spi_prev_was_esc (link r) = false -> isSpiSpecial b = false ->
  processSpiSpecial b r = (b, upd_link (set_errorcount 0) r).
Proof.
  intros b r Hesc Hsp. unfold isSpiSpecial in Hsp.
  apply orb_false_elim in Hsp as [Hsp H7]. apply orb_false_elim in Hsp as [Hsp H6].
  apply orb_false_elim in Hsp as [Hsp H5]. apply orb_false_elim in Hsp as [Hsp H4].
  apply orb_false_elim in Hsp as [Hsp H3]. apply orb_false_elim in Hsp as [H1 H2].
  unfold processSpiSpecial. rewrite Hesc, H1, H2, H3, H4, H5, H6, H7. reflexivity.
Qed.

(** A byte as [writeRaw] puts it on the wire is read back as that byte. *)
Lemma spi_decode_byte : forall b r,
  0 <= b < 256 -> spi_prev_was_esc (link r) = false ->
  let sent := if isSpiSpecial b then [SPI_SPECIAL_ESC; Z.lxor b SPI_ESC_XOR] else [b] in
  spi_decode sent r = [b] /\ spi_prev_was_esc (link (spi_feed sent r)) = false.
Proof.
  intros b r Hb Hesc. cbv zeta.
  destruct (isSpiSpecial b) eqn:Hsp.
  - cbn [spi_decode]. unfold spi_feed. cbn [fold_left].
    rewrite (processSpiSpecial_esc r Hesc). cbn [fst snd].
    rewrite processSpiSpecial_escaped by reflexivity. cbn [fst snd].
    rewrite Z.lxor_assoc, Z.lxor_nilpotent, Z.lxor_0_r.
    change (-1 <? 0) with true. cbv iota.
    destruct (Z.ltb_spec b 0); [lia|]. split; reflexivity.
  - cbn [spi_decode]. unfold spi_feed. cbn [fold_left].
    rewrite (processSpiSpecial_data b r Hesc Hsp). cbn [fst snd].
    destruct (Z.ltb_spec b 0); [lia|]. split; [reflexivity|exact Hesc].
Qed.

Section SpiWriting.
Context {hdr : Header}.

(** One turn of the loop of [writeRaw] for a data byte. *)
Lemma writeRaw_spi_byte : forall fuel n buf len tries s,
  (0 < fuel)%nat -> spi_silent s -> spi_xoff (link s) = false ->
  len <> 0 -> 0 < tries ->
  exists s1,
    writeRaw_spi fuel (S n) buf len tries s
      = writeRaw_spi fuel n (advance buf 1) (len - 1) tries s1 /\
    spi_silent s1 /\ spi_same s s1 /\
    wire_out (world s1) = wire_out (world s)
      ++ (if isSpiSpecial (byte_at buf 0)
          then [SPI_SPECIAL_ESC; Z.lxor (byte_at buf 0) SPI_ESC_XOR]
          else [byte_at buf 0]).
Proof.
  intros fuel n buf len tries s Hf Hs Hxoff Hlen Htries.
  cbn [writeRaw_spi].
  destruct (Z.eqb_spec len 0); [contradiction|].
  destruct (Z.gtb_spec tries 0); [|lia]. cbn [negb orb].
  pose proof Hs as (_ & Herr & _).
  mstep. rewrite Herr. mstep. rewrite Hxoff.
  destruct (isSpiSpecial (byte_at buf 0)).
  - destruct (spi_exchange_silent SPI_SPECIAL_ESC s Hs) as (s1 & E1 & Hs1 & Hsame1 & Hw1).
    destruct (spi_exchange_silent (Z.lxor (byte_at buf 0) SPI_ESC_XOR) s1 Hs1)
      as (s2 & E2 & Hs2 & Hsame2 & Hw2).
    rewrite bind_bind, bind_lift, E1. cbn [fst snd].
    rewrite bind_bind, (bind_run _ _ _ _ _ _ _ (processIncoming_nothing fuel (-1) s1 Hf ltac:(lia))).
    rewrite bind_bind, bind_lift, E2. cbn [fst snd].
    rewrite bind_bind, (bind_run _ _ _ _ _ _ _ (processIncoming_nothing fuel (-1) s2 Hf ltac:(lia))).
    rewrite bind_ret.
    exists s2. split; [reflexivity|]. split; [exact Hs2|].
    split; [eapply spi_same_trans; eassumption|].
    rewrite Hw2, Hw1, <- app_assoc. reflexivity.
  - destruct (spi_exchange_silent (byte_at buf 0) s Hs) as (s1 & E1 & Hs1 & Hsame1 & Hw1).
    rewrite bind_bind, bind_lift, E1. cbn [fst snd].
    rewrite bind_bind, (bind_run _ _ _ _ _ _ _ (processIncoming_nothing fuel (-1) s1 Hf ltac:(lia))).
    rewrite bind_ret.
    exists s1. split; [reflexivity|]. split; [exact Hs1|]. split; [exact Hsame1|exact Hw1].
Qed.

Lemma writeRaw_spi_bytes : forall fuel (bytes rest : list Z) n s,
  (0 < fuel)%nat -> spi_silent s -> spi_xoff (link s) = false ->
  Forall (fun b => 0 <= b < 256) bytes ->
  (List.length bytes <= n)%nat ->
  exists s' sent,
    writeRaw_spi fuel n (bytes ++ rest) (Z.of_nat (List.length bytes)) 1024 s = Some (tt, s') /\
    spi_silent s' /\ spi_same s s' /\
    wire_out (world s') = wire_out (world s) ++ sent /\
    (List.length sent <= 2 * List.length bytes)%nat /\
    forall r, spi_prev_was_esc (link r) = false ->
              spi_decode sent r = bytes /\ spi_prev_was_esc (link (spi_feed sent r)) = false.
Proof.
  intros fuel bytes. induction bytes as [|b bytes IH]; intros rest n s Hf Hs Hxoff Hb Hn.
  - exists s, []. split.
    { destruct n; reflexivity. }
    split; [exact Hs|]. split; [apply spi_same_refl|]. rewrite app_nil_r.
    split; [reflexivity|]. split; [cbn; lia|]. intros r Hr. split; [reflexivity|exact Hr].
  - inversion Hb as [|? ? Hb0 Hbs]; subst.
    destruct n as [|n]; [cbn in Hn; lia|].
    destruct (writeRaw_spi_byte fuel n ((b :: bytes) ++ rest)
                (Z.of_nat (List.length (b :: bytes))) 1024 s Hf Hs Hxoff)
      as (s1 & Estep & Hs1 & Hsame1 & Hw1); [cbn [List.length]; lia|lia|].
    change (byte_at ((b :: bytes) ++ rest) 0) with b in Hw1.
    change (advance ((b :: bytes) ++ rest) 1) with (bytes ++ rest) in Estep.
    replace (Z.of_nat (List.length (b :: bytes)) - 1) with (Z.of_nat (List.length bytes))
      in Estep by (cbn [List.length]; lia).
    assert (Hxoff1 : spi_xoff (link s1) = false).
    { destruct Hsame1 as (_ & _ & _ & Hx & _). rewrite Hx. exact Hxoff. }
    destruct (IH rest n s1 Hf Hs1 Hxoff1 Hbs ltac:(cbn in Hn; lia))
      as (s' & sent & Erun & Hs' & Hsame' & Hw' & Hlen & Hdec).
    exists s'. eexists. split; [rewrite Estep; exact Erun|].
    split; [exact Hs'|]. split; [eapply spi_same_trans; eassumption|].
    split; [rewrite Hw', Hw1, <- app_assoc; reflexivity|].
    split.
    { rewrite length_app. cbn [List.length]. destruct (isSpiSpecial b); cbn [List.length]; lia. }
    intros r Hr. rewrite spi_decode_app, spi_feed_app.
    destruct (spi_decode_byte b r Hb0 Hr) as [D1 D2].
    destruct (Hdec _ D2) as [D3 D4].
    rewrite D1, D3. split; [reflexivity|exact D4].
Qed.

(** X8: over SPI, with flow control open and a module that sends nothing
    in the meantime, [writeRaw] puts every byte on the wire, a reserved
    byte as an escape byte followed by the byte xored with the escape mask;
    a receiver running [processSpiSpecial] on what was sent reads back
    exactly the bytes written.  Nothing but the wire and the counter of
    all-ones bytes changes. *)
Theorem writeRaw_spi_stuffing_round_trip :
  forall fuel (bytes rest : list Z) s,
    (0 < fuel)%nat -> spi_silent s -> spi_xoff (link s) = false ->
    ss_pin (link s) <> 0 ->
    Forall (fun b => 0 <= b < 256) bytes ->
    exists s' sent,
      writeRaw fuel (bytes ++ rest) (Z.of_nat (List.length bytes)) s = Some (tt, s') /\
      wire_out (world s') = wire_out (world s) ++ sent /\
      (List.length sent <= 2 * List.length bytes)%nat /\
      (forall r, spi_prev_was_esc (link r) = false -> spi_decode sent r = bytes) /\
      spi_silent s' /\ spi_same s s'.
Proof.
  intros fuel bytes rest s Hf Hs Hxoff Hpin Hb.
  destruct (writeRaw_spi_bytes fuel bytes rest (Z.to_nat (Z.of_nat (List.length bytes)) + 1024)
              s Hf Hs Hxoff Hb ltac:(lia))
    as (s' & sent & Erun & Hs' & Hsame & Hw & Hlen & Hdec).
  exists s', sent. split.
  - unfold writeRaw. pose proof Hs as (Hser & _).
    mstep. rewrite Hser. mstep.
    destruct (Z.eqb_spec (ss_pin (link s)) 0); [contradiction|]. exact Erun.
  - split; [exact Hw|]. split; [exact Hlen|]. split; [|split; assumption].
    intros r Hr. apply Hdec, Hr.
Qed.

(** While the module holds the flow control closed and sends nothing,
    every turn of the loop of [writeRaw] clocks out one idle byte. *)
Lemma writeRaw_spi_xoff : forall fuel (k n : nat) buf len s,
  (0 < fuel)%nat -> spi_silent s -> spi_xoff (link s) = true -> len <> 0 ->
  (k <= n)%nat ->
  exists s',
    writeRaw_spi fuel n buf len (Z.of_nat k) s = Some (tt, s') /\
    spi_silent s' /\ spi_same s s' /\
    wire_out (world s') = wire_out (world s) ++ repeat SPI_SPECIAL_IDLE k.
Proof.
  intros fuel k. induction k as [|k IH]; intros n buf len s Hf Hs Hxoff Hlen Hn.
  - exists s. split.
    { destruct n; cbn [writeRaw_spi]; change (Z.of_nat 0 >? 0) with false;
        rewrite orb_true_r; reflexivity. }
    split; [exact Hs|]. split; [apply spi_same_refl|]. cbn. rewrite app_nil_r. reflexivity.
  - destruct n as [|n]; [lia|].
    destruct (spi_exchange_silent SPI_SPECIAL_IDLE s Hs) as (s1 & E1 & Hs1 & Hsame1 & Hw1).
    assert (Hxoff1 : spi_xoff (link s1) = true).
    { destruct Hsame1 as (_ & _ & _ & Hx & _). rewrite Hx. exact Hxoff. }
    destruct (IH n buf len s1 Hf Hs1 Hxoff1 Hlen ltac:(lia)) as (s' & Erun & Hs' & Hsame' & Hw').
    exists s'. split.
    + cbn [writeRaw_spi].
      destruct (Z.eqb_spec len 0); [contradiction|].
      destruct (Z.gtb_spec (Z.of_nat (S k)) 0); [|lia]. cbn [negb orb].
      pose proof Hs as (_ & Herr & _).
      mstep. rewrite Herr. mstep. rewrite Hxoff.
      rewrite bind_lift, E1. cbn [fst snd].
      rewrite (bind_run _ _ _ _ _ _ _ (processIncoming_nothing fuel (-1) s1 Hf ltac:(lia))).
      replace (Z.of_nat (S k) - 1) with (Z.of_nat k) by lia. exact Erun.
    + split; [exact Hs'|]. split; [eapply spi_same_trans; eassumption|].
      rewrite Hw', Hw1, <- app_assoc. reflexivity.
Qed.

(** X9: over SPI, when the module has closed the flow control and sends
    nothing, [writeRaw] clocks out 1024 idle bytes and returns: no byte of
    the buffer is written, and nothing tells the caller. *)
Theorem writeRaw_gives_up_under_xoff :
  forall fuel buf len s,
    (0 < fuel)%nat -> spi_silent s -> spi_xoff (link s) = true ->
    ss_pin (link s) <> 0 -> 0 < len ->
    exists s',
      writeRaw fuel buf len s = Some (tt, s') /\
      wire_out (world s') = wire_out (world s) ++ repeat SPI_SPECIAL_IDLE 1024 /\
      spi_silent s' /\ spi_same s s'.
Proof.
  intros fuel buf len s Hf Hs Hxoff Hpin Hlen.
  destruct (writeRaw_spi_xoff fuel 1024 (Z.to_nat len + 1024) buf len s Hf Hs Hxoff
              ltac:(lia) ltac:(lia)) as (s' & Erun & Hs' & Hsame & Hw).
  exists s'. split.
  - unfold writeRaw. pose proof Hs as (Hser & _).
    mstep. rewrite Hser. mstep.
    destruct (Z.eqb_spec (ss_pin (link s)) 0); [contradiction|]. exact Erun.
  - split; [exact Hw|]. split; assumption.
Qed.

End SpiWriting.

Lemma writeRaw_spi_stuffing_round_trip_witness :
  exists s' sent,
    writeRaw (hdr := avr_header) 1 ([SPI_SPECIAL_IDLE; ch "A"] ++ [])
             (Z.of_nat (List.length [SPI_SPECIAL_IDLE; ch "A"])) (spi_core []) = Some (tt, s') /\
    wire_out (world s') = wire_out (world (spi_core [])) ++ sent /\
    (List.length sent <= 2 * List.length [SPI_SPECIAL_IDLE; ch "A"])%nat /\
    (forall r, spi_prev_was_esc (link r) = false ->
               spi_decode sent r = [SPI_SPECIAL_IDLE; ch "A"]) /\
    spi_silent s' /\ spi_same (spi_core []) s'.
Proof.
  apply (writeRaw_spi_stuffing_round_trip (hdr := avr_header) 1 [SPI_SPECIAL_IDLE; ch "A"] [] (spi_core [])).
  - lia.
  - repeat split.
  - reflexivity.
  - discriminate.
  - repeat constructor; vm_compute; congruence.
Defined.

Lemma writeRaw_gives_up_under_xoff_witness :
  exists s',
    writeRaw (hdr := avr_header) 1 (bytes_of_string "AT") 2
             (upd_link (set_spi_xoff true) (spi_core [])) = Some (tt, s') /\
    wire_out (world s') =
      wire_out (world (upd_link (set_spi_xoff true) (spi_core [])))
      ++ repeat SPI_SPECIAL_IDLE 1024 /\
    spi_silent s' /\ spi_same (upd_link (set_spi_xoff true) (spi_core [])) s'.
Proof.
  apply (writeRaw_gives_up_under_xoff (hdr := avr_header) 1 (bytes_of_string "AT") 2
           (upd_link (set_spi_xoff true) (spi_core []))).
  - lia.
  - repeat split.
  - reflexivity.
  - discriminate.
  - lia.
Defined.

(** ** What no operation of the engine changes

    A relation between the object before and after a call that is kept by
    every write to a field other than the choice of the transport and the
    clearing of the fault is kept by every operation: the operations
    change the object through such writes only. *)

Create HintDb frame.

Section Frame.
Context {hdr : Header}.
Variable R : GSCore -> GSCore -> Prop.
Hypothesis R_refl : forall s, R s s.
Hypothesis R_trans : forall s1 s2 s3, R s1 s2 -> R s2 s3 -> R s1 s3.
Hypothesis R_ring : forall f s, R s (upd_ring f s).
Hypothesis R_rx : forall f s, R s (upd_rx f s).
Hypothesis R_net : forall f s, R s (upd_net f s).
Hypothesis R_world : forall f s, R s (upd_world f s).
Hypothesis R_link : forall f s, keeps_transport f -> R s (upd_link f s).
Hypothesis R_fault : forall s, R s (set_unrecoverableError true s).

Lemma keeps_transport_esc : forall v, keeps_transport (set_spi_prev_was_esc v).
Proof. intros v l. repeat split. Qed.
Lemma keeps_transport_xoff : forall v, keeps_transport (set_spi_xoff v).
Proof. intros v l. repeat split. Qed.
Lemma keeps_transport_poll : forall v, keeps_transport (set_spi_poll_time v).
Proof. intros v l. repeat split. Qed.
Lemma keeps_transport_poll_fun : forall g,
  keeps_transport (fun l => set_spi_poll_time (g l) l).
Proof. intros g l. repeat split. Qed.
Lemma keeps_transport_count : forall v, keeps_transport (set_errorcount v).
Proof. intros v l. repeat split. Qed.

(** A chain of writes. *)
Ltac frame :=
  repeat first
    [ apply R_refl
    | assumption
    | eapply R_trans;
      [|first [ apply R_ring | apply R_rx | apply R_net | apply R_world | apply R_fault
              | apply R_link;
                first [ apply keeps_transport_esc | apply keeps_transport_xoff
                      | apply keeps_transport_poll | apply keeps_transport_poll_fun
                      | apply keeps_transport_count ] ]] ].

Lemma steps_ret : forall A (a : A), steps R (ret a).
Proof. intros A a s a' s' H. inversion H; subst. apply R_refl. Qed.

Lemma steps_gets : forall A (f : GSCore -> A), steps R (gets f).
Proof. intros A f s a s' H. inversion H; subst. apply R_refl. Qed.

Lemma steps_no_result : forall A, steps R (@no_result A).
Proof. intros A s a s' H. discriminate H. Qed.

Lemma steps_modify : forall f, (forall s, R s (f s)) -> steps R (modify f).
Proof. intros f Hf s a s' H. inversion H; subst. apply Hf. Qed.

Lemma steps_lift : forall A (f : GSCore -> A * GSCore),
  (forall s, R s (snd (f s))) -> steps R (lift f).
Proof.
  intros A f Hf s a s' H. unfold lift in H. inversion H as [H1].
  pose proof (Hf s) as H2. rewrite H1 in H2. exact H2.
Qed.

Lemma steps_bind : forall A B (m : M A) (k : A -> M B),
  steps R m -> (forall a, steps R (k a)) -> steps R (bind m k).
Proof.
  intros A B m k Hm Hk s b s' Hrun. unfold bind in Hrun.
  destruct (m s) as [[a s1]|] eqn:E; [|discriminate].
  eapply R_trans; [eapply Hm, E|eapply Hk, Hrun].
Qed.

Lemma steps_when : forall b m, steps R m -> steps R (when b m).
Proof. intros [] m Hm; [exact Hm|apply steps_ret]. Qed.

(** The structure of a computation, down to the calls. *)
Ltac walk :=
  repeat first
    [ apply steps_ret | apply steps_gets | apply steps_no_result
    | solve [auto with frame]
    | apply steps_when
    | apply steps_bind; [|intro]
    | apply steps_modify; intro; solve [frame]
    | match goal with
      | |- steps _ (if ?b then _ else _) => destruct b
      | |- steps _ (match ?x with _ => _ end) => destruct x
      | |- steps _ (let '(_, _) := ?x in _) => destruct x
      end ].

(** *** The event functions *)

Lemma R_processDisconnect : forall cid s, R s (processDisconnect cid s).
Proof.
  intros cid s. unfold processDisconnect, upd_connection.
  destruct (negb (connected (connection cid s))); [apply R_refl|].
  cbv zeta.
  match goal with |- context [if ?b then _ else _] => destruct b end;
    [match goal with |- context [if ?b then _ else _] => destruct b end|]; frame.
Qed.

Lemma R_processConnect : forall cid a b c ncm s, R s (processConnect cid a b c ncm s).
Proof.
  intros cid a b c ncm s. unfold processConnect, upd_connection. cbv zeta.
  eapply R_trans; [|apply R_net]. eapply R_trans; [|apply R_net].
  eapply R_trans; [|apply R_net].
  destruct ncm; [eapply R_trans; [|apply R_net]; eapply R_trans; [|apply R_net]|];
    (destruct (connected (connection cid s)); [apply R_processDisconnect|apply R_refl]).
Qed.

Lemma R_fold_left : forall A (f : GSCore -> A -> GSCore) (l : list A) s,
  (forall s x, R s (f s x)) -> R s (fold_left f l s).
Proof.
  intros A f l. induction l as [|x l IH]; intros s Hf; [apply R_refl|].
  cbn [fold_left]. eapply R_trans; [apply Hf|apply IH, Hf].
Qed.

Lemma R_processDisassociation : forall s, R s (processDisassociation s).
Proof.
  intros s. unfold processDisassociation.
  destruct (negb (associated (net s))); [apply R_refl|]. cbv zeta.
  eapply R_trans; [|apply R_fold_left].
  - eapply R_trans; [|apply R_net].
    destruct (has_flag (events (net s)) EVENT_ASSOCIATED); apply R_net.
  - intros s1 cid. destruct (connected (connection cid s1)); [|apply R_refl].
    eapply R_trans; [|apply R_processDisconnect]. unfold upd_connection. apply R_net.
Qed.

Lemma R_processAssociation : forall s, R s (processAssociation s).
Proof.
  intros s. unfold processAssociation. cbv zeta.
  eapply R_trans; [|apply R_net]. eapply R_trans; [|apply R_net].
  destruct (associated (net s)); [apply R_processDisassociation|apply R_refl].
Qed.

Lemma R_processAsync : forall s, R s (snd (processAsync s)).
Proof.
  intros s. unfold processAsync, processAsync_noargs.
  repeat match goal with
         | |- R _ (snd (if ?b then _ else _)) => destruct b
         | |- R _ (snd (match ?x with _ => _ end)) => destruct x
         end; cbn [snd]; cbv zeta;
    try apply R_refl;
    try apply R_processConnect; try apply R_processDisassociation;
    try apply R_processAssociation.
  all: eapply R_trans; [|apply R_processDisconnect].
  all: try apply R_refl.
  all: match goal with |- context [if ?b then _ else _] => destruct b end;
    [unfold upd_connection; apply R_net|apply R_refl].
Qed.

Lemma R_dispatch_events : forall r1 r2 r3 r4 s,
  R s (snd (dispatch_events r1 r2 r3 r4 s)).
Proof.
  assert (H1 : forall b m cb acc s, R s (snd acc) -> R s (snd (dispatch_one b m cb acc))).
  { intros b m cb [fired s1] s Hacc. unfold dispatch_one.
    destruct (b && has_flag (events (net s1)) m); cbn [snd] in *; [|exact Hacc].
    eapply R_trans; [exact Hacc|apply R_net]. }
  intros r1 r2 r3 r4 s. unfold dispatch_events. cbv zeta.
  do 4 apply H1. apply R_refl.
Qed.

(** *** The transport *)

Lemma R_serial_read : forall s, R s (snd (serial_read s)).
Proof.
  intros s. unfold serial_read. destruct (wire_in (world s)); cbn [snd]; frame.
Qed.

Lemma R_transferSpi : forall out s, R s (snd (transferSpi out s)).
Proof.
  intros out s. unfold transferSpi. cbv zeta.
  destruct (wire_in _); cbn [snd]; frame.
Qed.

Lemma R_digitalRead : forall s, R s (snd (digitalRead_data_ready s)).
Proof.
  intros s. unfold digitalRead_data_ready. destruct (pin_in (world s)); cbn [snd]; frame.
Qed.

Lemma R_micros : forall s, R s (snd (micros s)).
Proof. intros s. unfold micros. destruct (micros_in (world s)); cbn [snd]; frame. Qed.

Lemma R_millis : forall s, R s (snd (millis s)).
Proof. intros s. unfold millis. destruct (millis_in (world s)); cbn [snd]; frame. Qed.

Lemma R_processSpiSpecial : forall c s, R s (snd (processSpiSpecial c s)).
Proof.
  intros c s. unfold processSpiSpecial.
  destruct (spi_prev_was_esc (link s)); cbn [snd]; [frame|]. cbv zeta.
  assert (H0 : R s (if negb (c =? SPI_SPECIAL_ALL_ONE)
                    then upd_link (set_errorcount 0) s else s))
    by (destruct (negb (c =? SPI_SPECIAL_ALL_ONE)); frame).
  repeat match goal with
         | |- R _ (snd (if ?b then _ else _)) => destruct b
         end; cbn [snd]; frame.
Qed.

Lemma R_spi_exchange : forall out s, R s (snd (spi_exchange out s)).
Proof.
  intros out s. unfold spi_exchange.
  pose proof (R_transferSpi out s) as H1.
  destruct (transferSpi out s) as [c s1]. cbn [snd] in H1.
  eapply R_trans; [exact H1|apply R_processSpiSpecial].
Qed.

Lemma R_readRaw_poll : forall more s, R s (snd (readRaw_poll more s)).
Proof.
  induction more as [|more IH]; intros s; cbn [readRaw_poll];
    pose proof (R_spi_exchange SPI_SPECIAL_IDLE s) as H1;
    destruct (spi_exchange SPI_SPECIAL_IDLE s) as [c s1]; cbn [snd] in H1.
  - exact H1.
  - destruct (c =? -1); [|exact H1]. eapply R_trans; [exact H1|apply IH].
Qed.

Lemma R_readRaw_tries : forall s, R s (snd (readRaw_tries s)).
Proof.
  intros s. unfold readRaw_tries.
  pose proof (R_micros s) as H1. destruct (micros s) as [t s1]. cbn [snd] in H1.
  cbv zeta.
  repeat match goal with
         | |- R _ (snd (if ?b then _ else _)) => destruct b
         end; cbn [snd]; frame.
Qed.

Lemma R_readRaw : forall s, R s (snd (readRaw s)).
Proof.
  intros s. unfold readRaw.
  destruct (unrecoverableError s); [apply R_refl|].
  destruct (serial (link s)); [apply R_serial_read|].
  destruct (negb (ss_pin (link s) =? INVALID_PIN)); [|apply R_refl].
  destruct (negb (data_ready_pin (link s) =? INVALID_PIN)).
  - pose proof (R_digitalRead s) as H1.
    destruct (digitalRead_data_ready s) as [ready s1]. cbn [snd] in H1.
    destruct (negb ready); [exact H1|].
    eapply R_trans; [exact H1|apply R_readRaw_poll].
  - pose proof (R_readRaw_tries s) as H1.
    destruct (readRaw_tries s) as [tries s1]. cbn [snd] in H1.
    eapply R_trans; [exact H1|apply R_readRaw_poll].
Qed.

(** *** The ring buffer *)

Lemma R_loadFrameHeader : forall s, R s (loadFrameHeader s).
Proof.
  intros s. unfold loadFrameHeader. cbv zeta.
  destruct (RX_DATA_SIZE - rx_data_tail (ring s) <? FRAME_SIZE); frame.
Qed.

Lemma R_getData : forall s, R s (snd (getData s)).
Proof.
  intros s. unfold getData.
  destruct (negb (rx_data_tail (ring s) =? rx_data_head (ring s))); [cbn [snd]; frame|].
  pose proof (R_readRaw s) as H1. destruct (readRaw s) as [c s1]. cbn [snd] in H1.
  destruct (c >=? 0); [|exact H1]. cbv zeta.
  match goal with |- context [if ?b then _ else _] => destruct b end; cbn [snd]; frame.
Qed.

#[local] Hint Resolve R_processDisconnect R_processConnect R_processDisassociation
  R_processAssociation R_processAsync R_dispatch_events R_serial_read R_transferSpi
  R_digitalRead R_micros R_millis R_processSpiSpecial R_spi_exchange R_readRaw_poll
  R_readRaw R_loadFrameHeader R_getData : frame.

Lemma steps_readRaw : steps R (lift readRaw).
Proof. apply steps_lift, R_readRaw. Qed.

Lemma steps_getData : steps R (lift getData).
Proof. apply steps_lift, R_getData. Qed.

Lemma steps_millis : steps R (lift millis).
Proof. apply steps_lift, R_millis. Qed.

Lemma steps_micros : steps R (lift micros).
Proof. apply steps_lift, R_micros. Qed.

Lemma steps_spi_exchange : forall out, steps R (lift (spi_exchange out)).
Proof. intros out. apply steps_lift, R_spi_exchange. Qed.

Lemma steps_processAsync : steps R (lift processAsync).
Proof. apply steps_lift, R_processAsync. Qed.

Lemma steps_loadFrameHeader : steps R (modify loadFrameHeader).
Proof. apply steps_modify, R_loadFrameHeader. Qed.

Lemma steps_processDisassociation : steps R (modify processDisassociation).
Proof. apply steps_modify, R_processDisassociation. Qed.

#[local] Hint Resolve steps_readRaw steps_getData steps_millis steps_micros
  steps_spi_exchange steps_processAsync steps_loadFrameHeader
  steps_processDisassociation : frame.

Section FrameReentrant.
Variable processIncoming_rec : Z -> M bool.
Variable fuel : nat.
Hypothesis rec_steps : forall c, steps R (processIncoming_rec c).

Lemma steps_getFrameHeader_wait : forall n,
  steps R (getFrameHeader_wait processIncoming_rec n).
Proof.
  induction n as [|n IH]; cbn [getFrameHeader_wait]; walk.
Qed.
#[local] Hint Resolve steps_getFrameHeader_wait : frame.

Lemma steps_getFrameHeader : forall cid,
  steps R (getFrameHeader processIncoming_rec fuel cid).
Proof. intros cid. unfold getFrameHeader. walk. Qed.
#[local] Hint Resolve steps_getFrameHeader : frame.

Lemma steps_readData_any : steps R (readData_any processIncoming_rec fuel).
Proof. unfold readData_any. walk. Qed.
#[local] Hint Resolve steps_readData_any : frame.

Lemma steps_readData : forall cid, steps R (readData processIncoming_rec fuel cid).
Proof. intros cid. unfold readData. walk. Qed.

Lemma steps_dropData_loop : forall n,
  steps R (dropData_loop processIncoming_rec fuel n).
Proof.
  induction n as [|n IH]; cbn [dropData_loop]; walk.
  all: apply steps_modify; intro; unfold upd_connection; apply R_net.
Qed.

Lemma steps_dropData : forall n, steps R (dropData processIncoming_rec fuel n).
Proof. intros n. apply steps_dropData_loop. Qed.
#[local] Hint Resolve steps_dropData : frame.

Lemma steps_bufferIncomingData : forall c,
  steps R (bufferIncomingData processIncoming_rec fuel c).
Proof. intros c. unfold bufferIncomingData. walk. Qed.

Lemma steps_bufferFrameHeader : steps R (bufferFrameHeader processIncoming_rec fuel).
Proof. unfold bufferFrameHeader. walk. Qed.

Lemma steps_set_state : forall st, steps R (set_state st).
Proof. intros st. unfold set_state. walk. Qed.

Lemma steps_upd_head_frame : forall f, steps R (upd_head_frame f).
Proof. intros f. unfold upd_head_frame. walk. Qed.

Lemma steps_dec_async_left : steps R dec_async_left.
Proof. unfold dec_async_left. walk. Qed.

Lemma steps_find_char8 : forall c p, steps R (find_char8 c p).
Proof. intros c p. unfold find_char8. walk. Qed.

#[local] Hint Resolve steps_set_state steps_upd_head_frame steps_dec_async_left
  steps_find_char8 steps_bufferFrameHeader steps_bufferIncomingData : frame.

Lemma steps_finish_ESC_Z : steps R (finish_ESC_Z processIncoming_rec fuel).
Proof. unfold finish_ESC_Z. walk. Qed.

Lemma steps_finish_ESC_y : steps R (finish_ESC_y processIncoming_rec fuel).
Proof. unfold finish_ESC_y. walk. Qed.

Lemma steps_finish_ESC_A : steps R finish_ESC_A.
Proof. unfold finish_ESC_A. walk. Qed.

#[local] Hint Resolve steps_finish_ESC_Z steps_finish_ESC_y steps_finish_ESC_A : frame.

Lemma steps_processIncoming_step : forall c,
  steps R (processIncoming_step processIncoming_rec fuel c).
Proof.
  intros c. unfold processIncoming_step.
  destruct (c <? 0); [apply steps_ret|].
  apply steps_bind; [apply steps_gets|]. intros st.
  apply steps_bind; [|intros; apply steps_ret].
  destruct st; walk.
Qed.

End FrameReentrant.

Lemma steps_processIncoming : forall fuel c, steps R (processIncoming fuel c).
Proof.
  induction fuel as [|fuel IH]; intros c; cbn [processIncoming].
  - apply steps_no_result.
  - apply steps_processIncoming_step. exact IH.
Qed.

#[local] Hint Resolve steps_processIncoming steps_getFrameHeader steps_readData
  steps_readData_any steps_set_state : frame.

(** *** Writing, replies and the application interface *)

Lemma steps_writeRaw_spi : forall fuel n buf len tries,
  steps R (writeRaw_spi fuel n buf len tries).
Proof.
  intros fuel n. induction n as [|n IH]; intros buf len tries; cbn [writeRaw_spi]; walk.
Qed.
#[local] Hint Resolve steps_writeRaw_spi : frame.

Lemma steps_writeRaw : forall fuel buf len, steps R (writeRaw fuel buf len).
Proof.
  intros fuel buf len. unfold writeRaw. walk.
Qed.
#[local] Hint Resolve steps_writeRaw : frame.

Lemma steps_writeCommand : forall fuel formatted buf0,
  steps R (writeCommand fuel formatted buf0).
Proof.
  intros fuel formatted buf0. unfold writeCommand.
  destruct (vsnprintf buf0 (128 - 2) formatted) as [buf len]. cbv zeta. walk.
Qed.
#[local] Hint Resolve steps_writeCommand : frame.

Lemma steps_readResponse_loop : forall fuel len start keep_data callback cc lines l,
  steps R (readResponse_loop fuel len start keep_data callback cc lines l).
Proof.
  induction fuel as [|fuel IH]; intros len start keep_data callback cc lines l;
    cbn [readResponse_loop]; walk.
Qed.
#[local] Hint Resolve steps_readResponse_loop : frame.

Lemma steps_readResponseInternal : forall fuel buf len cc keep_data callback,
  steps R (readResponseInternal fuel buf len cc keep_data callback).
Proof. intros. unfold readResponseInternal. walk. Qed.
#[local] Hint Resolve steps_readResponseInternal : frame.

Lemma steps_readAndProcessAsync_loop : forall fuel tries,
  steps R (readAndProcessAsync_loop fuel tries).
Proof.
  intros fuel tries. induction tries as [|tries IH]; cbn [readAndProcessAsync_loop]; walk.
Qed.
#[local] Hint Resolve steps_readAndProcessAsync_loop : frame.

Lemma steps_loop : forall fuel r1 r2 r3 r4, steps R (loop fuel r1 r2 r3 r4).
Proof.
  intros. unfold loop, readAndProcessAsync. walk.
  apply steps_lift. intro. apply R_dispatch_events.
Qed.

Lemma steps_availableData : forall fuel cid, steps R (availableData fuel cid).
Proof. intros. unfold availableData. walk. Qed.
#[local] Hint Resolve steps_availableData : frame.

Lemma steps_peekData : forall fuel cid, steps R (peekData fuel cid).
Proof. intros. unfold peekData. walk. Qed.

Lemma steps_firstCidWithData : forall fuel, steps R (firstCidWithData fuel).
Proof. intros. unfold firstCidWithData. walk. Qed.

Lemma steps_readData_direct : forall remaining buf off read,
  steps R (readData_direct remaining buf off read).
Proof.
  induction remaining as [|k IH]; intros buf off read; cbn [readData_direct]; walk.
Qed.
#[local] Hint Resolve steps_readData_direct : frame.

Lemma steps_readData_block : forall fuel depth cid buf off size,
  steps R (readData_block fuel depth cid buf off size).
Proof.
  intros fuel depth. induction depth as [|depth IH]; intros cid buf off size;
    cbn [readData_block]; walk.
Qed.

Lemma steps_readDataResponse_loop : forall fuel n start,
  steps R (readDataResponse_loop fuel n start).
Proof.
  intros fuel n. induction n as [|n IH]; intros start; cbn [readDataResponse_loop]; walk.
Qed.
#[local] Hint Resolve steps_readDataResponse_loop : frame.

Lemma steps_readDataResponse : forall fuel n, steps R (readDataResponse fuel n).
Proof. intros. unfold readDataResponse. walk. Qed.
#[local] Hint Resolve steps_readDataResponse : frame.

Lemma steps_writeData : forall fuel depth cid buf len header0,
  steps R (writeData fuel depth cid buf len header0).
Proof.
  intros fuel depth. induction depth as [|depth IH]; intros cid buf len header0;
    cbn [writeData]; walk.
Qed.

Lemma steps_writeData_udp : forall fuel cid ip port buf len header0,
  steps R (writeData_udp fuel cid ip port buf len header0).
Proof.
  intros. unfold writeData_udp.
  destruct (vsnprintf header0 28 (udp_header cid ip port len)) as [header headerlen].
  walk.
Qed.

Lemma steps_writeCommandCheckOk : forall fuel formatted cmd0 resp0,
  steps R (writeCommandCheckOk fuel formatted cmd0 resp0).
Proof. intros. unfold writeCommandCheckOk, readResponse. walk. Qed.
#[local] Hint Resolve steps_writeCommandCheckOk : frame.

Lemma steps_begin_wait : forall n start, steps R (begin_wait n start).
Proof.
  induction n as [|n IH]; intros start; cbn [begin_wait]; walk.
  all: apply steps_lift; intro; apply R_digitalRead.
Qed.
#[local] Hint Resolve steps_begin_wait : frame.

Lemma steps_begin_drain : forall n, steps R (begin_drain n).
Proof. induction n as [|n IH]; cbn [begin_drain]; walk. Qed.
#[local] Hint Resolve steps_begin_drain : frame.

Lemma steps__begin : forall fuel cmd0 resp0, steps R (_begin fuel cmd0 resp0).
Proof. intros. unfold _begin. walk. Qed.

End Frame.

Lemma engine_steps_frame : forall {hdr : Header} (R : GSCore -> GSCore -> Prop),
  (forall s, R s s) ->
  (forall s1 s2 s3, R s1 s2 -> R s2 s3 -> R s1 s3) ->
  (forall f s, R s (upd_ring f s)) ->
  (forall f s, R s (upd_rx f s)) ->
  (forall f s, R s (upd_net f s)) ->
  (forall f s, R s (upd_world f s)) ->
  (forall f s, keeps_transport f -> R s (upd_link f s)) ->
  (forall s, R s (set_unrecoverableError true s)) ->
  engine_steps R.
Proof.
  intros hdr R H1 H2 H3 H4 H5 H6 H7 H8. unfold engine_steps.
  repeat split; intros.
  - apply R_readRaw; assumption.
  - apply steps_processIncoming; assumption.
  - apply steps_readData; try assumption. intro. apply steps_processIncoming; assumption.
  - apply steps_readData_block; assumption.
  - apply steps_availableData; assumption.
  - apply steps_peekData; assumption.
  - apply steps_firstCidWithData; assumption.
  - apply steps_writeRaw; assumption.
  - apply steps_writeData; assumption.
  - apply steps_writeData_udp; assumption.
  - apply steps_writeCommand; assumption.
  - apply steps_writeCommandCheckOk; assumption.
  - apply steps_readResponseInternal; assumption.
  - apply steps_readDataResponse; assumption.
  - apply steps_loop; assumption.
  - apply steps__begin; assumption.
Qed.

(** X10: nothing but [end] clears the fault.  If [unrecoverableError] is
    set before a read, a write, a command, a reply, a poll, [loop] or the
    set-up sequence, it is set afterwards. *)
Theorem fault_is_sticky : forall {hdr : Header}, engine_steps fault_kept.
Proof.
  intros hdr. apply engine_steps_frame; unfold fault_kept; intros; cbn; auto.
Qed.

(** X11: nothing but [begin] and [end] changes the choice of the
    transport: the serial port, the select pin and the data-ready pin are
    the same after every other operation. *)
Theorem transport_is_kept : forall {hdr : Header}, engine_steps transport_kept.
Proof.
  intros hdr. apply engine_steps_frame; unfold transport_kept; intros; cbn.
  - repeat split.
  - destruct H as (A1 & A2 & A3), H0 as (B1 & B2 & B3). repeat split; congruence.
  - repeat split.
  - repeat split.
  - repeat split.
  - repeat split.
  - apply H.
  - repeat split.
Qed.

(** ** Setting up and shutting down *)

(** [begin] on a serial port and on SPI, step by step. *)
Lemma begin_serial_unfold : forall {hdr : Header} fuel cmd0 resp0 s,
  begin_serial fuel cmd0 resp0 s =
    if serial (link s) || negb (ss_pin (link s) =? INVALID_PIN) then Some (false, s)
    else match _begin fuel cmd0 resp0 (upd_link (set_serial true) (set_initializing true s)) with
         | Some (r, s1) => Some (r, set_initializing false s1)
         | None => None
         end.
Proof.
  intros. unfold begin_serial. rewrite bind_gets.
  destruct (serial (link s) || negb (ss_pin (link s) =? INVALID_PIN)); [reflexivity|].
  rewrite !bind_modify. unfold bind.
  destruct (_begin fuel cmd0 resp0 (upd_link (set_serial true) (set_initializing true s)))
    as [[r s1]|]; reflexivity.
Qed.

Lemma begin_spi_busy : forall {hdr : Header} fuel ss dr cmd0 resp0 s,
  serial (link s) = true -> begin_spi fuel ss dr cmd0 resp0 s = Some (false, s).
Proof.
  intros hdr fuel ss dr cmd0 resp0 s Hser. unfold begin_spi.
  rewrite bind_gets, Hser. reflexivity.
Qed.

(** The set-up sequence leaves the choice of the serial port as it is. *)
Lemma begin_keeps_serial : forall {hdr : Header} fuel cmd0 resp0 s res s',
  _begin fuel cmd0 resp0 s = Some (res, s') -> serial (link s') = serial (link s).
Proof.
  intros hdr fuel cmd0 resp0 s res s' Hb.
  assert (H : steps transport_kept (_begin fuel cmd0 resp0)).
  { apply steps__begin; unfold transport_kept; intros; cbn.
    - repeat split.
    - destruct H as (A1 & A2 & A3), H0 as (B1 & B2 & B3). repeat split; congruence.
    - repeat split.
    - repeat split.
    - repeat split.
    - repeat split.
    - apply H.
    - repeat split. }
  apply H in Hb. apply Hb.
Qed.

(** X12: [begin] is refused, with nothing changed, while a transport is
    chosen; a [begin] that ran, whether it succeeded or not, leaves its
    transport chosen, so that every later [begin] is refused until [end]
    has been called; [end] leaves no transport chosen. *)
Theorem begin_is_refused_until_end :
  forall {hdr : Header} fuel cmd0 resp0 s res s',
    begin_serial fuel cmd0 resp0 s = Some (res, s') ->
    (serial (link s) = true \/ ss_pin (link s) <> INVALID_PIN -> res = false /\ s' = s) /\
    (serial (link s) = false -> ss_pin (link s) = INVALID_PIN ->
     serial (link s') = true /\
     (forall fuel2 c2 r2, begin_serial fuel2 c2 r2 s' = Some (false, s')) /\
     (forall fuel2 ss dr c2 r2, begin_spi fuel2 ss dr c2 r2 s' = Some (false, s'))) /\
    serial (link (gs_end s')) = false /\ ss_pin (link (gs_end s')) = INVALID_PIN.
Proof.
  intros hdr fuel cmd0 resp0 s res s' Hrun.
  rewrite begin_serial_unfold in Hrun.
  split; [|split; [|split; reflexivity]].
  - intros Hbusy.
    assert (Hg : serial (link s) || negb (ss_pin (link s) =? INVALID_PIN) = true).
    { destruct Hbusy as [->|Hpin]; [reflexivity|].
      destruct (Z.eqb_spec (ss_pin (link s)) INVALID_PIN); [contradiction|].
      apply orb_true_r. }
    rewrite Hg in Hrun. injection Hrun as <- <-. split; reflexivity.
  - intros Hser Hpin.
    assert (Hg : serial (link s) || negb (ss_pin (link s) =? INVALID_PIN) = false)
      by (rewrite Hser, Hpin, Z.eqb_refl; reflexivity).
    rewrite Hg in Hrun.
    destruct (_begin fuel cmd0 resp0 (upd_link (set_serial true) (set_initializing true s)))
      as [[r s1]|] eqn:Hb; [|discriminate].
    injection Hrun as <- <-.
    apply begin_keeps_serial in Hb.
    assert (Hser' : serial (link (set_initializing false s1)) = true) by exact Hb.
    split; [exact Hser'|]. split.
    + intros. rewrite begin_serial_unfold, Hser'. reflexivity.
    + intros. apply begin_spi_busy. exact Hser'.
Qed.

Lemma begin_is_refused_until_end_witness :
  exists res s',
    begin_serial (hdr := avr_header) 1 [] []
      (upd_world (set_millis_in [0; 30000]) (gs_end (hdr := avr_header) core0))
      = Some (res, s') /\
    serial (link s') = true.
Proof.
  destruct (begin_serial (hdr := avr_header) 1 [] []
              (upd_world (set_millis_in [0; 30000]) (gs_end (hdr := avr_header) core0)))
    as [[res s']|] eqn:E; [|vm_compute in E; discriminate].
  exists res, s'. split; [reflexivity|].
  apply (begin_is_refused_until_end (hdr := avr_header) 1 [] [] _ res s' E); reflexivity.
Defined.

(** ** Reading connection data *)

Section RingReads.
Context {hdr : Header} {ok : HeaderOk hdr}.

Lemma rx_data_size_pos : 0 < RX_DATA_SIZE.
Proof. pose proof frame_size_pos. pose proof frame_size_fits. lia. Qed.

Lemma getFrameHeader_match : forall rec fuel cid s,
  fr_length (tail_frame (ring s)) <> 0 ->
  (cid =? ANY_CID) || (fr_cid (tail_frame (ring s)) =? cid) = true ->
  getFrameHeader rec fuel cid s = Some (tail_frame (ring s), s).
Proof.
  intros rec fuel cid s Hlen Hcid. unfold getFrameHeader.
  mstep. destruct (Z.eqb_spec (fr_length (tail_frame (ring s))) 0); [contradiction|].
  mstep. mstep. rewrite Hcid. reflexivity.
Qed.

Lemma getFrameHeader_mismatch : forall rec fuel cid s,
  fr_length (tail_frame (ring s)) <> 0 ->
  (cid =? ANY_CID) || (fr_cid (tail_frame (ring s)) =? cid) = false ->
  getFrameHeader rec fuel cid s = Some (frame_null, s).
Proof.
  intros rec fuel cid s Hlen Hcid. unfold getFrameHeader.
  mstep. destruct (Z.eqb_spec (fr_length (tail_frame (ring s))) 0); [contradiction|].
  mstep. mstep. rewrite Hcid. reflexivity.
Qed.

(** X13: while the frame at the tail of the queue has bytes left and
    belongs to another connection, a read, a poll and a peek for this
    connection return at once with "nothing" and change nothing: they
    neither consume a byte nor touch the transport. *)
Theorem other_connection_blocks_reads :
  forall fuel cid s,
    fr_length (tail_frame (ring s)) <> 0 ->
    cid <> ANY_CID -> fr_cid (tail_frame (ring s)) <> cid ->
    readData (processIncoming fuel) fuel cid s = Some (-1, s) /\
    availableData fuel cid s = Some (0, s) /\
    peekData fuel cid s = Some (-1, s).
Proof.
  intros fuel cid s Hlen Hany Hcid.
  assert (Hm : (cid =? ANY_CID) || (fr_cid (tail_frame (ring s)) =? cid) = false).
  { destruct (Z.eqb_spec cid ANY_CID); [contradiction|].
    destruct (Z.eqb_spec (fr_cid (tail_frame (ring s))) cid); [contradiction|reflexivity]. }
  pose proof (getFrameHeader_mismatch (processIncoming fuel) fuel cid s Hlen Hm) as Hget.
  assert (Ha : availableData fuel cid s = Some (0, s)).
  { unfold availableData. rewrite (bind_run _ _ _ _ _ _ _ Hget).
    rewrite frame_bool_null. reflexivity. }
  split; [|split; [exact Ha|]].
  - unfold readData. rewrite (bind_run _ _ _ _ _ _ _ Hget).
    rewrite frame_bool_null. reflexivity.
  - unfold peekData. rewrite (bind_run _ _ _ _ _ _ _ Ha). reflexivity.
Qed.

Lemma readData_buffered : forall rec fuel cid s,
  fr_length (tail_frame (ring s)) <> 0 ->
  (cid =? ANY_CID) || (fr_cid (tail_frame (ring s)) =? cid) = true ->
  frame_bool (tail_frame (ring s)) = true ->
  rx_data_tail (ring s) <> rx_data_head (ring s) ->
  readData rec fuel cid s
    = Some (byte_at (rx_data (ring s)) (rx_data_tail (ring s)), ring_pop s).
Proof.
  intros rec fuel cid s Hlen Hcid Hbool Hne. unfold readData.
  rewrite (bind_run _ _ _ _ _ _ _ (getFrameHeader_match rec fuel cid s Hlen Hcid)).
  rewrite Hbool. cbn [negb]. unfold lift. rewrite (getData_buffered s Hne). reflexivity.
Qed.

Lemma occupancy_nonempty : forall s,
  occupancy s <> 0 -> rx_data_tail (ring s) <> rx_data_head (ring s).
Proof.
  intros s Hocc Heq. apply Hocc. unfold occupancy. rewrite Heq, Z.sub_diag.
  apply Z.mod_0_l. pose proof rx_data_size_pos. lia.
Qed.

Lemma occupancy_range : forall s, 0 <= occupancy s < RX_DATA_SIZE.
Proof. intros s. unfold occupancy. apply Z.mod_pos_bound, rx_data_size_pos. Qed.

Lemma occupancy_pop : forall s,
  occupancy s <> 0 -> occupancy (ring_pop s) = occupancy s - 1.
Proof.
  intros s Hocc. pose proof (occupancy_range s) as Hr. pose proof rx_data_size_pos as HN.
  unfold occupancy in *. cbn.
  rewrite Zminus_mod_idemp_r.
  replace (rx_data_head (ring s) - (rx_data_tail (ring s) + 1))
    with (rx_data_head (ring s) - rx_data_tail (ring s) - 1) by lia.
  rewrite <- Zminus_mod_idemp_l. apply Z.mod_small. lia.
Qed.

Lemma buffered_pop : forall s,
  occupancy s <> 0 ->
  buffered s = byte_at (rx_data (ring s)) (rx_data_tail (ring s)) :: buffered (ring_pop s).
Proof.
  intros s Hocc. pose proof (occupancy_range s) as Hr. unfold buffered.
  rewrite (occupancy_pop s Hocc).
  replace (Z.to_nat (occupancy s)) with (S (Z.to_nat (occupancy s - 1))) by lia.
  reflexivity.
Qed.

(** Reading what is buffered of the frame at the tail. *)
Lemma read_all_buffered : forall fuel cid (k : nat) s,
  0 <= cid <= MAX_CID -> fr_cid (tail_frame (ring s)) = cid ->
  fr_length (tail_frame (ring s)) < 65536 ->
  Z.of_nat k <= fr_length (tail_frame (ring s)) ->
  Z.of_nat k <= occupancy s ->
  exists s',
    read_all fuel k cid s = Some (take k (buffered s), s') /\
    link s' = link s /\ rx s' = rx s /\ net s' = net s /\ world s' = world s /\
    unrecoverableError s' = unrecoverableError s /\
    occupancy s' = occupancy s - Z.of_nat k /\
    fr_length (tail_frame (ring s')) = fr_length (tail_frame (ring s)) - Z.of_nat k /\
    buffered s' = drop k (buffered s).
Proof.
  intros fuel cid k. induction k as [|k IH]; intros s Hcid Hfc H16 Hlen Hocc.
  - exists s. cbn [read_all take drop]. change (Z.of_nat 0) with 0.
    rewrite !Z.sub_0_r. repeat split; reflexivity.
  - assert (Hne : occupancy s <> 0) by lia.
    assert (Hl0 : fr_length (tail_frame (ring s)) <> 0) by lia.
    assert (Hm : (cid =? ANY_CID) || (fr_cid (tail_frame (ring s)) =? cid) = true).
    { rewrite Hfc, Z.eqb_refl. apply orb_true_r. }
    assert (Hb : frame_bool (tail_frame (ring s)) = true).
    { apply frame_bool_pending; [lia|rewrite Hfc; exact Hcid]. }
    pose proof (readData_buffered (processIncoming fuel) fuel cid s Hl0 Hm Hb
                  (occupancy_nonempty s Hne)) as Hread.
    assert (Hlen' : fr_length (tail_frame (ring (ring_pop s)))
                    = fr_length (tail_frame (ring s)) - 1).
    { cbn. unfold u16. apply Z.mod_small. lia. }
    destruct (IH (ring_pop s) Hcid Hfc ltac:(rewrite Hlen'; lia) ltac:(rewrite Hlen'; lia)
                 ltac:(rewrite occupancy_pop by exact Hne; lia))
      as (s' & Hrun & A1 & A2 & A3 & A4 & A5 & A6 & A7 & A8).
    exists s'. split.
    { cbn [read_all]. rewrite (bind_run _ _ _ _ _ _ _ Hread).
      rewrite (bind_run _ _ _ _ _ _ _ Hrun). unfold ret.
      rewrite (buffered_pop s Hne). reflexivity. }
    rewrite A1, A2, A3, A4, A5, A6, A7, A8, (buffered_pop s Hne), Hlen'.
    rewrite (occupancy_pop s Hne).
    repeat split; try reflexivity; lia.
Qed.

End RingReads.

(** *** What [availableData] promises *)

Lemma empty_stays_refl : forall s, empty_stays s s.
Proof. intros s _. split; reflexivity. Qed.

Lemma empty_stays_trans : forall s1 s2 s3,
  empty_stays s1 s2 -> empty_stays s2 s3 -> empty_stays s1 s3.
Proof.
  intros s1 s2 s3 H12 H23 He. destruct (H12 He) as [A B].
  destruct (H23 ltac:(congruence)) as [C D]. split; congruence.
Qed.

Lemma empty_stays_rx : forall f s, empty_stays s (upd_rx f s).
Proof. intros f s _. split; reflexivity. Qed.

Lemma empty_stays_net : forall f s, empty_stays s (upd_net f s).
Proof. intros f s _. split; reflexivity. Qed.

Lemma ring_kept_readRaw : forall {hdr : Header} s, ring_kept s (snd (readRaw s)).
Proof.
  intros hdr s. apply (R_readRaw ring_kept); unfold ring_kept; intros;
    try reflexivity; congruence.
Qed.

Create HintDb empty_ring.

Section EmptyRing.
Context {hdr : Header} {ok : HeaderOk hdr}.
Variable processIncoming_rec : Z -> M bool.
Variable fuel : nat.

Lemma empty_set_state : forall st, steps empty_stays (set_state st).
Proof. intros st. apply steps_modify. intros s. apply empty_stays_rx. Qed.

Lemma empty_upd_rx : forall f, steps empty_stays (modify (upd_rx f)).
Proof. intros f. apply steps_modify. intros s. apply empty_stays_rx. Qed.

Lemma empty_upd_head_frame : forall f, steps empty_stays (upd_head_frame f).
Proof. intros f. apply steps_modify. intros s _. split; reflexivity. Qed.

Lemma empty_dec_async_left : steps empty_stays dec_async_left.
Proof.
  unfold dec_async_left. apply (steps_bind _ empty_stays_trans).
  - apply empty_upd_rx.
  - intros _. apply (steps_gets _ empty_stays_refl).
Qed.

Lemma empty_find_char8 : forall c p, steps empty_stays (find_char8 c p).
Proof.
  intros c p. unfold find_char8. destruct (find_char c p) as [n|].
  - destruct (n <? 256); [apply (steps_ret _ empty_stays_refl)|apply steps_no_result].
  - apply steps_no_result.
Qed.

Lemma empty_bufferFrameHeader :
  steps empty_stays (bufferFrameHeader processIncoming_rec fuel).
Proof.
  intros s a s' Hrun He. rewrite (bufferFrameHeader_empty _ _ _ He) in Hrun.
  inversion Hrun; subst. split; reflexivity.
Qed.

Lemma empty_processAsync : steps empty_stays (lift processAsync).
Proof.
  apply steps_lift. intros s.
  apply (R_processAsync empty_stays empty_stays_refl empty_stays_trans empty_stays_net).
Qed.

#[local] Hint Resolve empty_set_state empty_upd_rx empty_upd_head_frame
  empty_dec_async_left empty_find_char8 empty_bufferFrameHeader empty_processAsync
  : empty_ring.

(** The structure of a computation that leaves an empty ring empty. *)
Ltac walk_empty :=
  repeat first
    [ apply (steps_ret _ empty_stays_refl) | apply (steps_gets _ empty_stays_refl)
    | apply steps_no_result
    | solve [auto with empty_ring]
    | apply (steps_when _ empty_stays_refl)
    | apply (steps_bind _ empty_stays_trans); [|intro]
    | match goal with
      | |- steps _ (if ?b then _ else _) => destruct b
      | |- steps _ (match ?x with _ => _ end) => destruct x
      | |- steps _ (let '(_, _) := ?x in _) => destruct x
      end ].

Lemma empty_finish_ESC_Z : steps empty_stays (finish_ESC_Z processIncoming_rec fuel).
Proof. unfold finish_ESC_Z. walk_empty. Qed.

Lemma empty_finish_ESC_y : steps empty_stays (finish_ESC_y processIncoming_rec fuel).
Proof. unfold finish_ESC_y. walk_empty. Qed.

Lemma empty_finish_ESC_A : steps empty_stays finish_ESC_A.
Proof. unfold finish_ESC_A. walk_empty. Qed.

#[local] Hint Resolve empty_finish_ESC_Z empty_finish_ESC_y empty_finish_ESC_A : empty_ring.

(** A byte stored while the ring has room. *)
Lemma bufferIncomingData_room : forall c s,
  (rx_data_head (ring s) + 1) mod RX_DATA_SIZE <> rx_data_tail (ring s) ->
  bufferIncomingData processIncoming_rec fuel c s =
    Some (tt, upd_ring (set_rx_data_head ((rx_data_head (ring s) + 1) mod RX_DATA_SIZE))
                (upd_ring (fun r => set_rx_data
                                      (<[Z.to_nat (rx_data_head r) := u8 c]> (rx_data r)) r) s)).
Proof.
  intros c s Hroom. unfold bufferIncomingData. repeat mstep.
  destruct (Z.eqb_spec ((rx_data_head (ring s) + 1) mod RX_DATA_SIZE) (rx_data_tail (ring s)));
    [contradiction|].
  unfold when. repeat mstep. reflexivity.
Qed.

Lemma next_index_differs : forall x, (x + 1) mod RX_DATA_SIZE <> x.
Proof.
  intros x Heq. pose proof frame_size_pos as HF. pose proof frame_size_fits as HN.
  assert (Hb : 0 <= (x + 1) mod RX_DATA_SIZE < RX_DATA_SIZE)
    by (apply Z.mod_pos_bound; lia).
  destruct (Z.eq_dec (x + 1) RX_DATA_SIZE) as [E|E].
  - rewrite E, Z.mod_same in Heq by lia. lia.
  - rewrite Z.mod_small in Heq by lia. lia.
Qed.

(** One byte handed to [processIncoming] while the ring is empty either
    leaves the ring empty or leaves the frame at the tail as it is. *)
Lemma processIncoming_step_empty_ring : forall c s b s',
  rx_data_head (ring s) = rx_data_tail (ring s) ->
  processIncoming_step processIncoming_rec fuel c s = Some (b, s') ->
  rx_data_head (ring s') = rx_data_tail (ring s') \/
  tail_frame (ring s') = tail_frame (ring s).
Proof.
  intros c s b s' He Hrun. unfold processIncoming_step in Hrun.
  destruct (c <? 0); [inversion Hrun; subst; left; exact He|].
  rewrite bind_gets in Hrun.
  destruct (rx_state (rx s)) eqn:Hst.
  9: { right. rewrite bind_bind in Hrun.
       rewrite (bind_run _ _ _ _ _ _ _ (bufferIncomingData_room c s
                  ltac:(rewrite <- He; apply next_index_differs))) in Hrun.
       repeat (rewrite bind_bind in Hrun || rewrite bind_modify in Hrun
               || rewrite bind_gets in Hrun).
       unfold when, set_state in Hrun.
       match type of Hrun with
       | context [if ?b then _ else _] => destruct b
       end; repeat (rewrite bind_modify in Hrun || rewrite bind_ret in Hrun);
         inversion Hrun; subst; reflexivity. }
  all: left.
  all: match type of Hrun with
       | ?m _ = Some _ =>
           assert (Hs : steps empty_stays m) by walk_empty
       end.
  all: destruct (Hs _ _ _ Hrun He) as [A B]; congruence.
Qed.

End EmptyRing.

Section Promise.
Context {hdr : Header} {ok : HeaderOk hdr}.

Lemma processIncoming_empty_ring : forall fuel c s b s',
  rx_data_head (ring s) = rx_data_tail (ring s) ->
  processIncoming fuel c s = Some (b, s') ->
  rx_data_head (ring s') = rx_data_tail (ring s') \/
  tail_frame (ring s') = tail_frame (ring s).
Proof.
  intros fuel c s b s' He Hrun. destruct fuel as [|n]; [discriminate|].
  cbn [processIncoming] in Hrun.
  eapply processIncoming_step_empty_ring; eassumption.
Qed.

(** What [getFrameHeader] returns when it returns a frame. *)
Lemma getFrameHeader_frame : forall rec fuel cid s f s0,
  getFrameHeader rec fuel cid s = Some (f, s0) ->
  frame_bool f = true -> cid <> ANY_CID ->
  f = tail_frame (ring s0) /\ fr_cid (tail_frame (ring s0)) = cid.
Proof.
  intros rec fuel cid s f s0 Hrun Hb Hany. unfold getFrameHeader in Hrun.
  rewrite bind_gets in Hrun. unfold bind at 1 in Hrun.
  match type of Hrun with
  | match ?m with _ => _ end = _ => destruct m as [[okb s1]|] eqn:E; [|discriminate]
  end.
  destruct okb; cbn [negb] in Hrun.
  - rewrite bind_gets in Hrun.
    destruct (Z.eqb_spec cid ANY_CID); [contradiction|]. cbn [orb] in Hrun.
    destruct (Z.eqb_spec (fr_cid (tail_frame (ring s1))) cid) as [Ec|Ec];
      inversion Hrun; subst.
    + split; reflexivity.
    + rewrite frame_bool_null in Hb. discriminate.
  - inversion Hrun; subst. rewrite frame_bool_null in Hb. discriminate.
Qed.

(** What [availableData] has checked when it reports data: the frame at
    the tail belongs to the connection, and the count is within the bytes
    the frame has left and within the bytes in the ring. *)
Lemma availableData_bounds :
  forall fuel cid s n s1,
    0 <= cid <= MAX_CID ->
    availableData fuel cid s = Some (n, s1) -> 0 < n ->
    fr_cid (tail_frame (ring s1)) = cid /\
    n <= fr_length (tail_frame (ring s1)) /\ n <= occupancy s1.
Proof.
  intros fuel cid s n s1 Hcid Hrun Hn.
  unfold availableData in Hrun. unfold bind at 1 in Hrun.
  destruct (getFrameHeader (processIncoming fuel) fuel cid s) as [[f s0]|] eqn:Hget;
    [|discriminate].
  destruct (frame_bool f) eqn:Hb; cbn [negb] in Hrun; [|inversion Hrun; lia].
  destruct (getFrameHeader_frame _ _ _ _ _ _ Hget Hb
              ltac:(unfold ANY_CID, MAX_CID in *; lia)) as [Hf Hfc].
  rewrite bind_gets in Hrun.
  assert (Htail : forall sx,
            (if u16 ((rx_data_head (ring sx) - rx_data_tail (ring sx)) mod RX_DATA_SIZE)
                >? fr_length (tail_frame (ring sx))
             then ret (fr_length (tail_frame (ring sx)))
             else ret (u16 ((rx_data_head (ring sx) - rx_data_tail (ring sx))
                            mod RX_DATA_SIZE))) sx = Some (n, s1) ->
            sx = s1 /\ n <= fr_length (tail_frame (ring s1)) /\ n <= occupancy s1).
  { intros sx Hx. pose proof (occupancy_range sx) as Ho. unfold occupancy in *.
    assert (Hu : u16 ((rx_data_head (ring sx) - rx_data_tail (ring sx)) mod RX_DATA_SIZE)
                 <= (rx_data_head (ring sx) - rx_data_tail (ring sx)) mod RX_DATA_SIZE).
    { unfold u16. apply Z.mod_le; lia. }
    destruct (Z.gtb_spec
                (u16 ((rx_data_head (ring sx) - rx_data_tail (ring sx)) mod RX_DATA_SIZE))
                (fr_length (tail_frame (ring sx))));
      inversion Hx; subst; repeat split; lia. }
  destruct (ring_empty s0) eqn:Hempty; unfold when in Hrun.
  - rewrite bind_bind, bind_lift, bind_bind in Hrun.
    pose proof (ring_kept_readRaw s0) as Hk. unfold ring_kept in Hk.
    unfold bind at 1 in Hrun.
    destruct (processIncoming fuel (fst (readRaw s0)) (snd (readRaw s0)))
      as [[b sp]|] eqn:Hp; [|discriminate].
    rewrite bind_ret, !bind_gets in Hrun.
    destruct (Htail sp Hrun) as (-> & Hl & Ho). split; [|split; assumption].
    unfold ring_empty in Hempty. apply Z.eqb_eq in Hempty.
    destruct (processIncoming_empty_ring fuel _ _ _ _
                ltac:(rewrite Hk; exact Hempty) Hp) as [Hstill|Hsame].
    + exfalso. unfold occupancy in Ho. rewrite Hstill, Z.sub_diag, Z.mod_0_l in Ho; [lia|].
      pose proof rx_data_size_pos. lia.
    + rewrite Hsame, Hk. exact Hfc.
  - rewrite bind_ret, !bind_gets in Hrun.
    destruct (Htail s0 Hrun) as (-> & Hl & Ho). split; [exact Hfc|split; assumption].
Qed.

(** X14: the count [availableData] returns for a connection can be read:
    that many calls of [readData] for the connection, right after, each
    return a byte, the oldest bytes of the ring in their order, without
    touching the transport. *)
Theorem availableData_can_be_read :
  forall fuel cid s n s1,
    0 <= cid <= MAX_CID ->
    availableData fuel cid s = Some (n, s1) ->
    fr_length (tail_frame (ring s1)) < 65536 ->
    exists s2,
      read_all fuel (Z.to_nat n) cid s1 = Some (take (Z.to_nat n) (buffered s1), s2) /\
      List.length (take (Z.to_nat n) (buffered s1)) = Z.to_nat n /\
      world s2 = world s1 /\ link s2 = link s1 /\
      unrecoverableError s2 = unrecoverableError s1.
Proof.
  intros fuel cid s n s1 Hcid Hrun H16.
  assert (Hlenb : forall k, (k <= Z.to_nat (occupancy s1))%nat ->
                            List.length (take k (buffered s1)) = k).
  { intros k Hk. rewrite length_take. unfold buffered.
    assert (Hl : forall m data t, List.length (ring_bytes m data t) = m).
    { induction m as [|m IH]; intros data t; [reflexivity|]. cbn [ring_bytes List.length].
      rewrite IH. reflexivity. }
    rewrite Hl. lia. }
  destruct (Z.leb_spec n 0) as [Hn|Hn].
  { exists s1. replace (Z.to_nat n) with 0%nat by lia. cbn [read_all take].
    repeat split; reflexivity. }
  destruct (availableData_bounds fuel cid s n s1 Hcid Hrun Hn) as (Hfc1 & Hl & Ho).
  destruct (read_all_buffered fuel cid (Z.to_nat n) s1 Hcid Hfc1 H16 ltac:(lia) ltac:(lia))
    as (s2 & Hread & A1 & A2 & A3 & A4 & A5 & _).
  exists s2. split; [exact Hread|]. split; [apply Hlenb; lia|].
  repeat split; assumption.
Qed.

(** X15: when [availableData] reports data for a connection, [peekData]
    returns the byte that the next [readData] for the connection
    returns. *)
Theorem peekData_shows_next_read :
  forall fuel cid s n s1,
    0 <= cid <= MAX_CID ->
    availableData fuel cid s = Some (n, s1) -> 0 < n ->
    fr_length (tail_frame (ring s1)) < 65536 ->
    exists b s2,
      peekData fuel cid s = Some (b, s1) /\
      readData (processIncoming fuel) fuel cid s1 = Some (b, s2).
Proof.
  intros fuel cid s n s1 Hcid Hrun Hn H16.
  destruct (availableData_bounds fuel cid s n s1 Hcid Hrun Hn) as (Hfc1 & Hl & Ho).
  destruct (read_all_buffered fuel cid (Z.to_nat n) s1 Hcid Hfc1 H16 ltac:(lia) ltac:(lia))
    as (s2 & Hread & _).
  replace (Z.to_nat n) with (S (Z.to_nat (n - 1))) in Hread by lia.
  cbn [read_all] in Hread. unfold bind at 1 in Hread.
  destruct (readData (processIncoming fuel) fuel cid s1) as [[b sr]|] eqn:Hr; [|discriminate].
  exists (byte_at (rx_data (ring s1)) (rx_data_tail (ring s1))), sr. split.
  - unfold peekData. rewrite (bind_run _ _ _ _ _ _ _ Hrun).
    destruct (Z.gtb_spec n 0); [reflexivity|lia].
  - unfold bind at 1 in Hread.
    destruct (read_all fuel (Z.to_nat (n - 1)) cid sr) as [[cs sq]|]; [|discriminate].
    unfold ret in Hread. inversion Hread as [[Hb Hs]].
    unfold buffered in Hb.
    destruct (Z.to_nat (occupancy s1)) as [|m]; cbn [ring_bytes take] in Hb.
    + destruct (Z.to_nat (n - 1)); discriminate Hb.
    + inversion Hb. reflexivity.
Qed.

End Promise.

Lemma other_connection_blocks_reads_witness :
  readData (hdr := avr_header) (processIncoming (hdr := avr_header) 4) 4 2 full_ring
    = Some (-1, full_ring) /\
  availableData (hdr := avr_header) 4 2 full_ring = Some (0, full_ring) /\
  peekData (hdr := avr_header) 4 2 full_ring = Some (-1, full_ring).
Proof.
  apply (other_connection_blocks_reads (hdr := avr_header) (ok := avr_header_ok) 4 2 full_ring);
    vm_compute; discriminate.
Defined.

Lemma availableData_can_be_read_witness :
  exists n s1 s2,
    availableData (hdr := avr_header) 4 1 full_ring = Some (n, s1) /\
    n = 255 /\
    read_all (hdr := avr_header) 4 (Z.to_nat n) 1 s1
      = Some (take (Z.to_nat n) (buffered (hdr := avr_header) s1), s2).
Proof.
  destruct (availableData (hdr := avr_header) 4 1 full_ring) as [[n s1]|] eqn:E;
    [|vm_compute in E; discriminate].
  assert (Hn : n = 255) by (vm_compute in E; congruence).
  assert (H16 : fr_length (tail_frame (ring s1)) < 65536).
  { vm_compute in E. inversion E; subst. vm_compute. reflexivity. }
  destruct (availableData_can_be_read (hdr := avr_header) (ok := avr_header_ok)
              4 1 full_ring n s1 ltac:(unfold MAX_CID; lia) E H16) as (s2 & Hread & _).
  exists n, s1, s2. split; [reflexivity|]. split; [exact Hn|exact Hread].
Defined.

Lemma peekData_shows_next_read_witness :
  exists b s1 s2,
    peekData (hdr := avr_header) 4 1 full_ring = Some (b, s1) /\
    readData (hdr := avr_header) (processIncoming (hdr := avr_header) 4) 4 1 s1 = Some (b, s2).
Proof.
  destruct (availableData (hdr := avr_header) 4 1 full_ring) as [[n s1]|] eqn:E;
    [|vm_compute in E; discriminate].
  assert (Hn : 0 < n) by (vm_compute in E; inversion E; lia).
  assert (H16 : fr_length (tail_frame (ring s1)) < 65536).
  { vm_compute in E. inversion E; subst. vm_compute. reflexivity. }
  destruct (peekData_shows_next_read (hdr := avr_header) (ok := avr_header_ok)
              4 1 full_ring n s1 ltac:(unfold MAX_CID; lia) E Hn H16) as (b & s2 & Hp & Hr).
  exists b, s1, s2. split; assumption.
Defined.
